(** * Cobalt scheduler wrapper: a shallow embedding of [cobalt/cobalt.py]

    The development follows the layers of the Python module:
    - the pieces of the Python runtime the module leans on (exceptions,
      [str], [int()], [re], [timedelta], binary64 floats);
    - [Cobalt.Job] and [Cobalt.Queue] with their parsers;
    - [Cobalt.get_queues_jobs], [Cobalt.Queue.submit] and
      [UserPolicy.get_queues];
    - the properties of the specification, one theorem each.

    The semantics is that of Python 3. Python [str] values are lists of
    characters; a character is a code point below 256. Integers are [Z],
    floats are binary64 values. A call that may raise returns a
    [result]. *)

From Stdlib Require Import ZArith List Ascii String Bool Lia.
From Stdlib Require Import Floats.SpecFloat DecimalString.
From stdpp Require Import base list strings gmap.
Import ListNotations.
Open Scope Z_scope.

(** ** Strings *)

Definition pystr := list ascii.

(** String literals of the source are written [str "..."]. *)
Definition str (s : string) : pystr := list_ascii_of_string s.

(** ** Exceptions and results *)

Inductive exn :=
| NameError (name : pystr)
| ValueError
| TypeError
| AttributeError
| IndexError
| OverflowError
| OSError
| CalledProcessError
| StopIteration (reason : pystr)
| OtherError (what : pystr).

Inductive result (A : Type) :=
| Ok (a : A)
| Raise (e : exn).
Arguments Ok {A} a.
Arguments Raise {A} e.

Definition rbind {A B : Type} (x : result A) (f : A -> result B) : result B :=
  match x with
  | Ok a => f a
  | Raise e => Raise e
  end.

Notation "'do' x <- m ; k" := (rbind m (fun x => k))
  (at level 10, x name, m at level 100, k at level 200).

Fixpoint mapM {A B : Type} (f : A -> result B) (l : list A) : result (list B) :=
  match l with
  | [] => Ok []
  | a :: l' => do b <- f a; do bs <- mapM f l'; Ok (b :: bs)
  end.

(** ** Character classes of [re] on [str] patterns *)

Definition code (c : ascii) : N := N_of_ascii c.

Definition in_range (lo hi : string) (c : ascii) : bool :=
  match lo, hi with
  | String l EmptyString, String h EmptyString =>
      ((code l <=? code c) && (code c <=? code h))%N
  | _, _ => false
  end.

Definition one_of (chars : string) (c : ascii) : bool :=
  existsb (Ascii.eqb c) (list_ascii_of_string chars).

Definition cls_or (p q : ascii -> bool) (c : ascii) : bool := p c || q c.
Infix "|||" := cls_or (at level 50, left associativity).

(** [.] under [re.DOTALL]. *)
Definition any_char (c : ascii) : bool := true.

(** [\d]: the decimal digits; below code point 256 these are [0-9]. *)
Definition is_digit : ascii -> bool := in_range "0" "9".

(** [\s]: Unicode white space below code point 256:
    TAB LF VT FF CR, FS GS RS US, SPACE, NEL and NBSP. *)
Definition is_space (c : ascii) : bool :=
  ((9 <=? code c) && (code c <=? 13) || (28 <=? code c) && (code c <=? 32)
   || (code c =? 133) || (code c =? 160))%N.

Definition is_alpha : ascii -> bool := in_range "a" "z" ||| in_range "A" "Z".

(** [\w]: alphanumerics and underscore; below code point 256 the
    alphanumerics outside ASCII are the Latin-1 letters, the superscript
    digits and the vulgar fractions. *)
Definition is_word (c : ascii) : bool :=
  (is_alpha c || is_digit c || Ascii.eqb c "_"
   || (code c =? 170) || (code c =? 181) || (code c =? 186)
   || (code c =? 178) || (code c =? 179) || (code c =? 185)
   || (188 <=? code c) && (code c <=? 190)
   || (192 <=? code c) && (code c <=? 214)
   || (216 <=? code c) && (code c <=? 246)
   || (248 <=? code c))%N.

(** ** A backtracking matcher with the semantics of [re.match]

    Alternatives are tried in order, [*] is greedy, [*?] is lazy, and a
    group keeps the text of its last successful pass. An iteration of a
    repetition has to consume input; every repetition of the module does. *)

Inductive regex :=
| Eps
| Cls (p : ascii -> bool)
| Seq (r1 r2 : regex)
| Alt (r1 r2 : regex)
| Star (r : regex)
| StarLazy (r : regex)
| Group (n : nat) (r : regex).

Definition Plus (r : regex) : regex := Seq r (Star r).
Definition Opt (r : regex) : regex := Alt r Eps.

Fixpoint Lit (w : pystr) : regex :=
  match w with
  | [] => Eps
  | a :: w' => Seq (Cls (Ascii.eqb a)) (Lit w')
  end.

Fixpoint Cat (rs : list regex) : regex :=
  match rs with
  | [] => Eps
  | [r] => r
  | r :: rs' => Seq r (Cat rs')
  end.

Definition caps := list (option pystr).
Definition kont := pystr -> caps -> option caps.

Definition shorter (s' s : pystr) : bool := (length s' <? length s)%nat.

Fixpoint star_loop (step : pystr -> caps -> kont -> option caps) (k : kont)
    (n : nat) (s : pystr) (c : caps) : option caps :=
  match n with
  | O => k s c
  | S n' =>
      match step s c (fun s' c' =>
                        if shorter s' s then star_loop step k n' s' c' else None) with
      | Some r => Some r
      | None => k s c
      end
  end.

Fixpoint lazy_loop (step : pystr -> caps -> kont -> option caps) (k : kont)
    (n : nat) (s : pystr) (c : caps) : option caps :=
  match n with
  | O => k s c
  | S n' =>
      match k s c with
      | Some r => Some r
      | None =>
          step s c (fun s' c' =>
                      if shorter s' s then lazy_loop step k n' s' c' else None)
      end
  end.

Definition consumed (s s' : pystr) : pystr := take (length s - length s')%nat s.

Fixpoint rmatch (r : regex) (s : pystr) (c : caps) (k : kont) {struct r}
  : option caps :=
  match r with
  | Eps => k s c
  | Cls p =>
      match s with
      | a :: s' => if p a then k s' c else None
      | [] => None
      end
  | Seq r1 r2 => rmatch r1 s c (fun s' c' => rmatch r2 s' c' k)
  | Alt r1 r2 =>
      match rmatch r1 s c k with
      | Some x => Some x
      | None => rmatch r2 s c k
      end
  | Star r1 => star_loop (rmatch r1) k (length s) s c
  | StarLazy r1 => lazy_loop (rmatch r1) k (length s) s c
  | Group n r1 =>
      rmatch r1 s c (fun s' c' => k s' (<[n := Some (consumed s s')]> c'))
  end.

(** A compiled pattern: the expression and the number of its groups. *)
Record pattern := { pat_re : regex; pat_groups : nat }.

(** [pattern.match(s)]: anchored at the start of [s], not at its end. *)
Definition re_match (p : pattern) (s : pystr) : option caps :=
  rmatch (Group 0 (pat_re p)) s (replicate (S (pat_groups p)) None)
         (fun _ c => Some c).

(** [match.group(n)]: [None] when the group took no part in the match. *)
Definition group (c : caps) (n : nat) : option pystr := mjoin (c !! n).

(** ** [str] methods *)

Fixpoint starts_with (pre s : pystr) : bool :=
  match pre, s with
  | [], _ => true
  | a :: pre', b :: s' => Ascii.eqb a b && starts_with pre' s'
  | _ :: _, [] => false
  end.

(** [s.split(sep)] for a non-empty separator; [acc] is the current piece,
    reversed, and [skip] counts the characters of a separator still to be
    passed over. *)
Fixpoint split_go (sep : pystr) (skip : nat) (acc : pystr) (s : pystr)
  : list pystr :=
  match s with
  | [] => [rev acc]
  | a :: s' =>
      match skip with
      | S n => split_go sep n acc s'
      | O =>
          if starts_with sep s
          then rev acc :: split_go sep (length sep - 1) [] s'
          else split_go sep 0 (a :: acc) s'
      end
  end.

Definition split (sep : string) (s : pystr) : list pystr :=
  split_go (str sep) 0 [] s.

(** [sep.join(parts)] *)
Fixpoint join (sep : pystr) (parts : list pystr) : pystr :=
  match parts with
  | [] => []
  | [p] => p
  | p :: ps => p ++ sep ++ join sep ps
  end.

(** ** [int(str)] and [str(int)] *)

Definition digit_val (c : ascii) : Z := Z.of_N (code c) - 48.

Definition digits_val (w : pystr) : Z :=
  fold_left (fun acc c => 10 * acc + digit_val c) w 0.

Definition is_digits (w : pystr) : bool :=
  negb (bool_decide (w = [])) && forallb is_digit w.

(** The white space [int] skips around a number: TAB, LF, VT, FF, CR and
    SPACE, and NEL and NBSP, which the conversion of the text to ASCII turns
    into spaces. The separators FS, GS, RS and US are white space for [\s],
    not for [int]. *)
Definition int_space (c : ascii) : bool :=
  ((9 <=? code c) && (code c <=? 13) || (code c =? 32)
   || (code c =? 133) || (code c =? 160))%N.

Fixpoint skip_spaces (s : pystr) : pystr :=
  match s with
  | a :: s' => if int_space a then skip_spaces s' else s
  | [] => []
  end.

Definition trim (s : pystr) : pystr := rev (skip_spaces (rev (skip_spaces s))).

(** The most digits [int] takes from a text: [sys.int_max_str_digits], 4300
    unless the interpreter is told otherwise (CPython 3.11 and later). *)
Definition max_str_digits : nat := 4300.

Definition short (w : pystr) : bool := (length w <=? max_str_digits)%nat.

(** [int(s)] in base ten: surrounding white space, an optional sign, then
    digits, where single underscores may separate digits; the digits,
    leading zeros included and underscores left out, are at most
    [max_str_digits]. *)
Definition py_int (s : pystr) : result Z :=
  let t := trim s in
  let '(neg, body) :=
    match t with
    | a :: b =>
        if Ascii.eqb a "-" then (true, b)
        else if Ascii.eqb a "+" then (false, b)
        else (false, t)
    | [] => (false, t)
    end in
  let parts := split "_" body in
  if forallb is_digits parts && short (concat parts)
  then let v := digits_val (concat parts) in Ok (if neg then - v else v)
  else Raise ValueError.

(** [str(n)] and ['{}'.format(n)] for an [int] of at most [max_str_digits]
    digits. *)
Definition str_of_int (n : Z) : pystr := str (NilZero.string_of_int (Z.to_int n)).

(** [range(a, b)] *)
Definition py_range (a b : Z) : list Z :=
  map (fun k => a + Z.of_nat k) (seq 0 (Z.to_nat (b - a))).

(** ** [datetime.timedelta] and [datetime.datetime] *)

(** A [timedelta] is its length in microseconds. *)
Record timedelta := Timedelta { total_us : Z }.

Definition us_per_day : Z := 86400 * 1000000.

(** [timedelta(hours=h, minutes=m, seconds=s)]: the constructor refuses a
    magnitude of more than 999999999 days. *)
Definition mk_timedelta (hours minutes seconds : Z) : result timedelta :=
  let us := (3600 * hours + 60 * minutes + seconds) * 1000000 in
  let days := us / us_per_day in
  if (-999999999 <=? days) && (days <=? 999999999)
  then Ok (Timedelta us)
  else Raise OverflowError.

Definition td_ltb (a b : timedelta) : bool := total_us a <? total_us b.

(** [min(a, b)] returns its first argument unless the second is smaller. *)
Definition td_min (a b : timedelta) : timedelta := if td_ltb b a then b else a.

Definition pad_left (width : nat) (w : pystr) : pystr :=
  replicate (width - length w) "0"%char ++ w.

(** [str(td)]: [[D day[s], ]H:MM:SS[.UUUUUU]] *)
Definition timedelta_str (t : timedelta) : pystr :=
  let days := total_us t / us_per_day in
  let rest := total_us t mod us_per_day in
  let secs := rest / 1000000 in
  let micro := rest mod 1000000 in
  let hh := secs / 3600 in
  let mm := (secs / 60) mod 60 in
  let ss := secs mod 60 in
  let hms := str_of_int hh ++ str ":" ++ pad_left 2 (str_of_int mm)
             ++ str ":" ++ pad_left 2 (str_of_int ss) in
  let with_days :=
    if days =? 0 then hms
    else str_of_int days ++ str " day"
         ++ (if Z.abs days =? 1 then [] else str "s") ++ str ", " ++ hms in
  if micro =? 0 then with_days
  else with_days ++ str "." ++ pad_left 6 (str_of_int micro).

(** The fields of [datetime.now()] the module reads; [dt_weekday] is 0 on
    Monday and 6 on Sunday. *)
Record datetime := {
  dt_weekday : Z;
  dt_hour : Z;
  dt_minute : Z;
  dt_second : Z
}.

(** ** Floats (binary64) and [math.ceil] *)

Definition pyfloat := spec_float.

Definition fmul : pyfloat -> pyfloat -> pyfloat := SFmul 53 1024.

(** [float(n)] for an [int], rounding to nearest even. *)
Definition float_of_int (n : Z) : result pyfloat :=
  match binary_normalize 53 1024 n 0 false with
  | S754_infinity _ => Raise OverflowError
  | f => Ok f
  end.

(** [n * f] for an [int] and a [float]. *)
Definition mul_int_float (n : Z) (f : pyfloat) : result pyfloat :=
  do x <- float_of_int n; Ok (fmul x f).

(** [math.ceil(f)] *)
Definition ceil (f : pyfloat) : result Z :=
  match f with
  | S754_zero _ => Ok 0
  | S754_finite s m e =>
      let v := if s then Zneg m else Zpos m in
      Ok (if 0 <=? e then v * 2 ^ e else - ((- v) / 2 ^ (- e)))
  | S754_infinity _ => Raise OverflowError
  | S754_nan => Raise ValueError
  end.

(** [f <= 0] and [f > 1] against the [int] constants. *)
Definition float_le_zero (f : pyfloat) : bool := SFleb f (S754_zero false).
Definition float_gt_one (f : pyfloat) : bool :=
  SFltb (S754_finite false 4503599627370496 (-52)) f.

(** ** Name resolution

    A name used in a function body is looked up among the function's local
    variables, then the globals of [cobalt.py], then the builtins. Names
    bound in a class body are attributes of the class, not variables of
    the methods defined there. *)

Definition module_globals : list string :=
  ["os"; "re"; "stat"; "getuser"; "check_output"; "ceil"; "mkstemp";
   "timedelta"; "datetime"; "user"; "getoutput"; "Cobalt"; "UserPolicy";
   "__all__"]%string.

(** The builtins the module refers to. *)
Definition builtins : list string :=
  ["isinstance"; "hasattr"; "setattr"; "str"; "int"; "len"; "max"; "min";
   "next"; "eval"; "range"; "print"; "ValueError"; "StopIteration";
   "KeyError"; "True"; "False"; "None"]%string.

Definition lookup_name (locals : list string) (n : string) : result unit :=
  if existsb (String.eqb n) (locals ++ module_globals ++ builtins)
  then Ok tt
  else Raise (NameError (str n)).

(** ** Dynamically typed values

    Fields that hold whatever the caller or [eval] hands over are kept as
    [pyval]; [VObject] stands for any other object, by identity. *)

Inductive pyval :=
| VNone
| VInt (n : Z)
| VStr (s : pystr)
| VDict (items : list (pystr * pystr))
| VTime (d : datetime)
| VObject (id : nat).

(** [Job.queue] is the queue name until the job is cross-linked, and the
    [Queue] object (its position among the parsed queues) afterwards. *)
Inductive queue_ref :=
| QueueName (name : pystr)
| QueueObj (q : nat).

(** ** [Cobalt.Job]: the attributes set by [__init__] *)
Module Job.
Record t := mk {
  jobid : Z;
  queue : queue_ref;
  user : option pystr;
  name : option pystr;
  users : option (list pystr);
  walltime : option timedelta;
  runtime : option timedelta;
  start_time : option timedelta;
  queued_time : option timedelta;
  remaining_time : option timedelta;
  nodecount : option Z;
  proccount : option Z;
  location : list pystr;
  state : option pystr;
  user_hold : option bool;
  envs : option (list (pystr * pystr));
  attrs : pyval;
  kwargs : list (string * pyval)
}.

Definition set_queue (j : t) (q : queue_ref) : t :=
  mk (jobid j) q (user j) (name j) (users j) (walltime j) (runtime j)
     (start_time j) (queued_time j) (remaining_time j) (nodecount j)
     (proccount j) (location j) (state j) (user_hold j) (envs j) (attrs j)
     (kwargs j).
End Job.

(** ** [Cobalt.Queue]: the attributes set by [__init__]; [jobs] holds
    references to [Job] objects (positions among the parsed jobs). *)
Module Queue.
Record t := mk {
  jobs : list nat;
  name : pystr;
  users : list pystr;
  groups : list pystr;
  mintime : timedelta;
  maxtime : timedelta;
  maxrunning : Z;
  maxqueued : Z;
  maxusernodes : Z;
  maxnodehours : Z;
  totalnodes : Z;
  state : pystr
}.

Definition set_jobs (q : t) (js : list nat) : t :=
  mk js (name q) (users q) (groups q) (mintime q) (maxtime q) (maxrunning q)
     (maxqueued q) (maxusernodes q) (maxnodehours q) (totalnodes q) (state q).

Definition set_maxusernodes (q : t) (n : Z) : t :=
  mk (jobs q) (name q) (users q) (groups q) (mintime q) (maxtime q)
     (maxrunning q) (maxqueued q) n (maxnodehours q) (totalnodes q) (state q).

Definition set_maxtime (q : t) (d : timedelta) : t :=
  mk (jobs q) (name q) (users q) (groups q) (mintime q) d (maxrunning q)
     (maxqueued q) (maxusernodes q) (maxnodehours q) (totalnodes q) (state q).
End Queue.

(** ** The compiled patterns *)

Definition any : regex := Star (Cls any_char).
Definition ws : regex := Star (Cls is_space).
Definition digits : regex := Plus (Cls is_digit).
Definition words : regex := Plus (Cls is_word).

(** [[a-zA-Z0-9-_.]] *)
Definition host_char : ascii -> bool :=
  in_range "a" "z" ||| in_range "A" "Z" ||| in_range "0" "9" ||| one_of "-_.".

(** [\d+:\d+:\d+] *)
Definition hms : regex := Cat [digits; Lit (str ":"); digits; Lit (str ":"); digits].

(** [.*LABEL\s*:\s*(BODY).*] under [re.DOTALL]. *)
Definition field (label : string) (body : regex) : regex :=
  Cat [any; Lit (str label); ws; Lit (str ":"); ws; Group 1 body; any].

Module JobRe.
Definition jobid_re := {| pat_re := field "JobID" digits; pat_groups := 1 |}.
Definition user_re := {| pat_re := field "User" words; pat_groups := 1 |}.
Definition users_re :=
  {| pat_re := field "user_list"
       (Seq words (Star (Group 2 (Seq (Lit (str ":")) words))));
     pat_groups := 2 |}.
(** The character set of a job name; the pattern asks for a line feed
    right after the name. *)
Definition name_char : ascii -> bool :=
  in_range "a" "z" ||| in_range "A" "Z" ||| in_range "0" "9"
  ||| one_of "<>'+=-_/\|%$#@.:, !?()[]{}"
  ||| (fun c => (code c =? 34) || (code c =? 9) || (code c =? 13))%N.
Definition name_re :=
  {| pat_re := Cat [any; Lit (str "JobName"); ws; Lit (str ":"); ws;
                    Group 1 (Star (Cls name_char)); Cls (fun c => (code c =? 10)%N);
                    any];
     pat_groups := 1 |}.
Definition walltime_re := {| pat_re := field "WallTime" hms; pat_groups := 1 |}.
Definition runtime_re := {| pat_re := field "RunTime" hms; pat_groups := 1 |}.
Definition starttime_re := {| pat_re := field "StartTime" hms; pat_groups := 1 |}.
Definition queuedtime_re := {| pat_re := field "QueuedTime" hms; pat_groups := 1 |}.
Definition remainingtime_re :=
  {| pat_re := field "TimeRemaining" hms; pat_groups := 1 |}.
Definition nodecount_re := {| pat_re := field "Nodes" digits; pat_groups := 1 |}.
Definition proccount_re := {| pat_re := field "Procs" digits; pat_groups := 1 |}.
Definition location_re :=
  {| pat_re := field "Location"
       (Plus (Group 2 (Cat [Group 3 (Plus (Cls host_char));
                            Opt (Group 4 (Cat [Lit (str "["); digits; Lit (str "-");
                                               digits; Lit (str "]")]));
                            Opt (Lit (str ","))])));
     pat_groups := 4 |}.
Definition queue_re :=
  {| pat_re := field "Queue" (Plus (Cls host_char)); pat_groups := 1 |}.
Definition state_re := {| pat_re := field "State" words; pat_groups := 1 |}.
Definition userhold_re :=
  {| pat_re := field "UserHold" (Group 2 (Alt (Lit (str "True")) (Lit (str "False"))));
     pat_groups := 2 |}.
(** The host-name characters, colon, comma and both quote characters. *)
Definition attrs_char : ascii -> bool :=
  host_char ||| one_of ":,'" ||| (fun c => (code c =? 34)%N).
Definition attrs_re :=
  {| pat_re := field "attrs"
       (Cat [Lit (str "{"); Star (Cls attrs_char); Lit (str "}")]);
     pat_groups := 1 |}.
Definition env_kv : regex :=
  Cat [Plus (Cls host_char); Lit (str "="); Plus (Cls host_char)].
Definition envs_re :=
  {| pat_re := field "Envs"
       (Seq env_kv (Star (Group 2 (Seq (Lit (str ":")) env_kv))));
     pat_groups := 2 |}.
Definition dependencies_re :=
  {| pat_re := field "Dependencies"
       (Seq digits (Star (Group 2 (Seq (Lit (str ":")) digits))));
     pat_groups := 2 |}.

(** The pattern compiled inside [from_string] for one location fragment:
    [(?P<name>[a-zA-Z_\-.]+)(?P<n>\d+)?(\[(?P<s>\d+)-(?P<e>\d+)\])?];
    the named groups [name], [n], [s], [e] are groups 1, 2, 4 and 5. *)
Definition prefix_char : ascii -> bool :=
  in_range "a" "z" ||| in_range "A" "Z" ||| one_of "_-.".
Definition fragment_re :=
  {| pat_re := Cat [Group 1 (Plus (Cls prefix_char));
                    Opt (Group 2 digits);
                    Opt (Group 3 (Cat [Lit (str "["); Group 4 digits; Lit (str "-");
                                       Group 5 digits; Lit (str "]")]))];
     pat_groups := 5 |}.
End JobRe.

Module QueueRe.
(** [.*Name:\s*(?P<name>[a-zA-Z0-9-_.]+)\s*?] *)
Definition name_re :=
  {| pat_re := Cat [any; Lit (str "Name:"); ws; Group 1 (Plus (Cls host_char));
                    StarLazy (Cls is_space)];
     pat_groups := 1 |}.
Definition users_char : ascii -> bool := host_char ||| one_of ":".
Definition users_re :=
  {| pat_re := field "Users" (Plus (Cls users_char)); pat_groups := 1 |}.
Definition groups_re :=
  {| pat_re := field "Groups" (Plus (Cls users_char)); pat_groups := 1 |}.
Definition mintime_re := {| pat_re := field "MinTime" hms; pat_groups := 1 |}.
Definition maxtime_re := {| pat_re := field "MaxTime" hms; pat_groups := 1 |}.
Definition maxrunning_re := {| pat_re := field "MaxRunning" digits; pat_groups := 1 |}.
Definition maxqueued_re := {| pat_re := field "MaxQueued" digits; pat_groups := 1 |}.
Definition maxusernodes_re :=
  {| pat_re := field "MaxUserNodes" digits; pat_groups := 1 |}.
Definition maxnodehours_re :=
  {| pat_re := field "MaxNodeHours" digits; pat_groups := 1 |}.
Definition totalnodes_re := {| pat_re := field "TotalNodes" digits; pat_groups := 1 |}.
Definition state_re := {| pat_re := field "State" words; pat_groups := 1 |}.
End QueueRe.

(** ** Helpers shared by the parsers *)

(** [match.group(n)] used as a string. *)
Definition text (m : caps) (n : nat) : result pystr :=
  match group m n with
  | Some w => Ok w
  | None => Raise AttributeError
  end.

(** [hours, minutes, seconds = [int(i) for i in w.split(':')]] *)
Definition parse_hms (w : pystr) : result (Z * Z * Z) :=
  do parts <- mapM py_int (split ":" w);
  match parts with
  | [h; m; s] => Ok (h, m, s)
  | _ => Raise ValueError
  end.

(** A duration field of [Job.from_string]. *)
Definition duration_field (p : pattern) (s : pystr) : result (option timedelta) :=
  match re_match p s with
  | None => Ok None
  | Some m =>
      do g <- text m 1;
      do hms <- parse_hms g;
      let '(h, mi, se) := hms in
      do d <- mk_timedelta h mi se;
      Ok (Some d)
  end.

(** An integer field: [int(match.group(1))] when the pattern matches. *)
Definition int_field (p : pattern) (s : pystr) : result (option Z) :=
  match re_match p s with
  | None => Ok None
  | Some m => do g <- text m 1; do n <- py_int g; Ok (Some n)
  end.

Definition str_eqb (a b : pystr) : bool := bool_decide (a = b).

(** [d[k] = v] on a dict kept in insertion order. *)
Fixpoint dict_set (d : list (pystr * pystr)) (k v : pystr) : list (pystr * pystr) :=
  match d with
  | [] => [(k, v)]
  | (k', v') :: d' => if str_eqb k' k then (k', v) :: d' else (k', v') :: dict_set d' k v
  end.

(** [l[i]] *)
Definition index {A : Type} (l : list A) (i : nat) : result A :=
  match l !! i with
  | Some a => Ok a
  | None => Raise IndexError
  end.

(** A variable read where an [int] is expected: a local holds its value; a
    global or builtin of that name would not be a number. *)
Definition lookup_int (locals : list (string * Z)) (n : string) : result Z :=
  match find (fun kv => String.eqb n (fst kv)) locals with
  | Some kv => Ok (snd kv)
  | None => do _ <- lookup_name [] n; Raise TypeError
  end.

(** ** State: the trace of what the process did to the outside world *)

Inductive event :=
| Exec (cmd : pystr)
| Mkstemp (path : pystr)
| Write (data : pystr)
| Chmod (path : pystr).

(** What the outside world answers: the output (or failure) of a command
    run through [check_output], the path [mkstemp] hands out, and the
    reading of the clock. *)
Record host := {
  run : pystr -> result pystr;
  tmpfile : result pystr;
  clock : datetime
}.

(** A computation over a state [S] that may raise; the state reached is
    kept when it raises. *)
Definition M (S A : Type) : Type := S -> result A * S.

Definition ret {S A : Type} (a : A) : M S A := fun s => (Ok a, s).

Definition bind {S A B : Type} (m : M S A) (f : A -> M S B) : M S B :=
  fun s =>
    match m s with
    | (Ok a, s') => f a s'
    | (Raise e, s') => (Raise e, s')
    end.

Definition lift {S A : Type} (r : result A) : M S A := fun s => (r, s).
Definition get {S : Type} : M S S := fun s => (Ok s, s).
Definition put {S : Type} (s : S) : M S unit := fun _ => (Ok tt, s).

Notation "'let*' x := m 'in' k" := (bind m (fun x => k))
  (at level 10, x name, m at level 100, k at level 200).

Definition emit (e : event) : M (list event) unit :=
  fun tr => (Ok tt, tr ++ [e]).

(** ** The objects built by [get_queues_jobs] *)

Record heap := { h_queues : list Queue.t; h_jobs : list Job.t }.

(** The state of a call of [submit]: the queue it is called on and the
    trace. *)
Record submit_state := { self_queue : Queue.t; trace : list event }.

(** ** The arguments of [Queue.submit] and the fields of [UserPolicy] *)

Inductive dependency :=
| DepJob (j : Job.t)
| DepInt (n : Z).

Module Submit.
(** The arguments of [submit]; [attrs] and [env] are dicts from
    strings to strings. *)
Record args := {
  cmd : pystr;
  nodecount : Z;
  proccount : Z;
  time : option timedelta;
  jobname : option pystr;
  cwd : option pystr;
  stderr : option pystr;
  stdout : option pystr;
  output_prefix : option pystr;
  users : list pystr;
  project : option pystr;
  attrs : list (pystr * pystr);
  dependencies : list dependency;
  geometry : list pystr;
  env : list (pystr * pystr);
  hold : bool;
  input_file : option pystr;
  email : option pystr;
  umask : option pystr;
  no_oversuscribe : bool
}.
End Submit.

Module UserPolicy.
Record t := mk {
  office_day_start : timedelta;
  office_day_stop : timedelta;
  office_max_occupancy : pyfloat;
  max_occupancy : pyfloat;
  office_maxtime : timedelta;
  maxtime : timedelta
}.
End UserPolicy.

Definition nl : pystr := ["010"%char].


(** ** The model of the module

    [user] is the module global [user = getuser()], [py_eval] the builtin
    [eval] on the text of an [attrs] field. *)
Section Cobalt.
Variable user : pystr.
Variable py_eval : pystr -> result pyval.

(** *** [Cobalt.Job] *)

Inductive operand :=
| OJob (j : Job.t)
| OStr (s : pystr)
| OInt (n : Z)
| OOther.

(** [Job.__eq__]: the first [isinstance] test reads the name [Job]. The
    result is [None] when no test applies. *)
Definition Job_eq (self : Job.t) (other : operand) : result (option bool) :=
  do _ <- lookup_name ["self"; "other"]%string "Job";
  match other with
  | OJob o => Ok (Some (Job.jobid self =? Job.jobid o))
  | OStr s => do n <- py_int s; Ok (Some (Job.jobid self =? n))
  | OInt n => Ok (Some (Job.jobid self =? n))
  | OOther => Ok None
  end.

(** The body of the loop over the location fragments of [from_string]. *)
Definition expand_location (l : pystr) : result (list pystr) :=
  match re_match JobRe.fragment_re l with
  | None => Raise AttributeError
  | Some m =>
      match group m 2, group m 5, group m 4 with
      | None, Some e, Some s =>
          do name <- text m 1;
          do a <- py_int s;
          do b <- py_int e;
          Ok (map (fun i => name ++ str_of_int i) (py_range a (b + 1)))
      | _, _, _ => Ok [l]
      end
  end.

Fixpoint expand_locations (ls : list pystr) : result (list pystr) :=
  match ls with
  | [] => Ok []
  | l :: ls' =>
      do hosts <- expand_location l;
      do rest <- expand_locations ls';
      Ok (hosts ++ rest)
  end.

Definition location_field (s : pystr) : result (list pystr) :=
  match re_match JobRe.location_re s with
  | None => Ok []
  | Some m => do g <- text m 1; expand_locations (split "," g)
  end.

Fixpoint envs_of (kvs : list pystr) (d : list (pystr * pystr))
  : result (list (pystr * pystr)) :=
  match kvs with
  | [] => Ok d
  | kv :: kvs' =>
      do k <- index (split "=" kv) 0;
      do v <- index (split "=" kv) 1;
      envs_of kvs' (dict_set d k v)
  end.

Definition envs_field (s : pystr) : result (option (list (pystr * pystr))) :=
  match re_match JobRe.envs_re s with
  | None => Ok None
  | Some m => do g <- text m 1; do d <- envs_of (split ":" g) []; Ok (Some d)
  end.

Definition attrs_field (s : pystr) : result pyval :=
  match re_match JobRe.attrs_re s with
  | None => Ok VNone
  | Some m => do g <- text m 1; py_eval g
  end.

Definition dependencies_field (s : pystr) : result (option (list Z)) :=
  match re_match JobRe.dependencies_re s with
  | None => Ok None
  | Some m =>
      do g <- text m 1;
      do ds <- mapM py_int (filter (fun i => negb (str_eqb i [])) (split ":" g));
      Ok (Some ds)
  end.

(** [Job.from_string]. Each optional field is read into the variable the
    source assigns it to: the match result replaces the initial value of
    [user], [name], [users], [walltime], [runtime], [nodecount],
    [proccount], [state], [user_hold], [envs], [attrs] and
    [dependencies]. [__init__] does not store [dependencies]. *)
Definition Job_from_string (s : pystr) : result Job.t :=
  do jobid <- match re_match JobRe.jobid_re s with
              | None => Raise AttributeError
              | Some m => do g <- text m 1; py_int g
              end;
  do queue <- match re_match JobRe.queue_re s with
              | None => Raise AttributeError
              | Some m => text m 1
              end;
  let user := re_match JobRe.user_re s ≫= fun m => group m 1 in
  let name := re_match JobRe.name_re s ≫= fun m => group m 1 in
  do users <- match re_match JobRe.users_re s with
              | None => Ok None
              | Some m => do g <- text m 1; Ok (Some (split ":" g))
              end;
  do walltime <- duration_field JobRe.walltime_re s;
  do runtime <- duration_field JobRe.runtime_re s;
  do start_time <- duration_field JobRe.starttime_re s;
  do queued_time <- duration_field JobRe.queuedtime_re s;
  do remaining_time <- duration_field JobRe.remainingtime_re s;
  do nodecount <- int_field JobRe.nodecount_re s;
  do proccount <- int_field JobRe.proccount_re s;
  do location <- location_field s;
  let state := re_match JobRe.state_re s ≫= fun m => group m 1 in
  let user_hold :=
    re_match JobRe.userhold_re s ≫= fun m =>
    group m 1 ≫= fun g => Some (negb (str_eqb g (str "False"))) in
  do envs <- envs_field s;
  do attrs <- attrs_field s;
  do dependencies <- dependencies_field s;
  Ok (Job.mk jobid (QueueName queue) user name users walltime runtime
        start_time queued_time remaining_time nodecount proccount location
        state user_hold envs attrs []).

(** *** [Cobalt.Queue] *)

Definition queue_defaults (maxusernodes totalnodes : Z) : gmap string Z :=
  list_to_map [("maxusernodes"%string, maxusernodes); ("totalnodes"%string, totalnodes)].

(** [Cobalt.Queue.defaults] *)
Definition defaults : gmap string (gmap string Z) :=
  list_to_map
    [("R.sc_workshop", queue_defaults 0 0); ("atos", queue_defaults 1 1);
     ("cl", queue_defaults 0 0); ("comanche_B1", queue_defaults 0 0);
     ("comanche_B1_smt2_noturbo", queue_defaults 0 0);
     ("comanche_B1_smt2_turbo", queue_defaults 0 0);
     ("comanche_B1_smt4_noturbo", queue_defaults 0 0);
     ("comanche_B1_smt4_turbo", queue_defaults 0 0);
     ("dgx", queue_defaults 1 1); ("epyc_7601", queue_defaults 2 2);
     ("firestones", queue_defaults 1 1); ("fpga_385a", queue_defaults 1 1);
     ("gomez", queue_defaults 4 4); ("gomez_dual_hca", queue_defaults 1 1);
     ("gpu_mules", queue_defaults 0 0);
     ("gpu_power9_v100_smx2", queue_defaults 1 1);
     ("gpu_rtx8000", queue_defaults 1 1); ("gpu_v100_smx2", queue_defaults 3 3);
     ("iris", queue_defaults 0 0); ("iris_debug", queue_defaults 0 0);
     ("it", queue_defaults 13 13); ("k20x", queue_defaults 1 1);
     ("knl_7210", queue_defaults 10 10); ("knl_7250", queue_defaults 2 2);
     ("mustangs", queue_defaults 2 2); ("nurburg", queue_defaults 0 0);
     ("skylake_8176", queue_defaults 1 1); ("skylake_8180", queue_defaults 12 12);
     ("skylake_8180_skylake12", queue_defaults 1 1);
     ("skylake_p", queue_defaults 0 0); ("thing", queue_defaults 8 8)]%string.

(** [defaults[name][key]], with [0] on [KeyError]. *)
Definition default_of (name : pystr) (key : string) : Z :=
  match defaults !! string_of_list_ascii name ≫= fun d => d !! key with
  | Some v => v
  | None => 0
  end.

(** A colon-separated list field of [Queue.__init__]. *)
Definition list_field (p : pattern) (s : pystr) : result (list pystr) :=
  match re_match p s with
  | None => Ok []
  | Some m => do g <- text m 1; Ok (split ":" g)
  end.

(** An integer field of [Queue.__init__] with its fallback. *)
Definition int_field_or (p : pattern) (s : pystr) (fallback : Z) : result Z :=
  match re_match p s with
  | None => Ok fallback
  | Some m => do g <- text m 1; py_int g
  end.

(** [Queue.__init__] *)
Definition Queue_init (qstat_queue_output : pystr) : result Queue.t :=
  let s := qstat_queue_output in
  do name <- match re_match QueueRe.name_re s with
             | None => Raise ValueError
             | Some m => text m 1
             end;
  do users <- list_field QueueRe.users_re s;
  do groups <- list_field QueueRe.groups_re s;
  do mintime <- match re_match QueueRe.mintime_re s with
                | None => mk_timedelta 0 10 0
                | Some m =>
                    do g <- text m 1;
                    do hms <- parse_hms g;
                    let '(hours, minutes, seconds) := hms in
                    do sedonds <- lookup_int
                                    [("hours", hours); ("minutes", minutes);
                                     ("seconds", seconds)]%string "sedonds";
                    mk_timedelta hours minutes sedonds
                end;
  do maxtime <- match re_match QueueRe.maxtime_re s with
                | None => mk_timedelta 1 0 0
                | Some m =>
                    do g <- text m 1;
                    do hms <- parse_hms g;
                    let '(hours, minutes, seconds) := hms in
                    mk_timedelta hours minutes seconds
                end;
  do maxrunning <- int_field_or QueueRe.maxrunning_re s 0;
  do maxqueued <- int_field_or QueueRe.maxqueued_re s 0;
  do maxusernodes <- int_field_or QueueRe.maxusernodes_re s
                       (default_of name "maxusernodes");
  do maxnodehours <- int_field_or QueueRe.maxnodehours_re s 0;
  do totalnodes <- int_field_or QueueRe.totalnodes_re s
                     (default_of name "totalnodes");
  let state := match re_match QueueRe.state_re s ≫= fun m => group m 1 with
               | None => str "unknown"
               | Some g => g
               end in
  Ok (Queue.mk [] name users groups mintime maxtime maxrunning maxqueued
        maxusernodes maxnodehours totalnodes state).

(** [getoutput(cmd)] *)
Definition getoutput (sys : host) (cmd : pystr) : M (list event) pystr :=
  let* _ := emit (Exec cmd) in lift (run sys cmd).

(** *** Connecting jobs and queues *)

(** [j.user == user] *)
Definition is_mine (j : Job.t) : bool := bool_decide (Job.user j = Some user).

(** The objects behind the references of [q.jobs]. *)
Definition job_objects (js : list Job.t) (refs : list nat) : list Job.t :=
  omap (fun r => js !! r) refs.

(** [len([j for j in q.jobs if j.user == user])] *)
Definition num_used (js : list Job.t) (q : Queue.t) : Z :=
  Z.of_nat (length (List.filter is_mine (job_objects js (Queue.jobs q)))).

(** [q.name == j.queue]; against a [Queue] object the comparison falls
    to [Queue.__eq__], which compares the names. *)
Definition names (qs : list Queue.t) (q : Queue.t) (r : queue_ref) : bool :=
  match r with
  | QueueName n => str_eqb (Queue.name q) n
  | QueueObj i =>
      match qs !! i with
      | Some q' => str_eqb (Queue.name q') (Queue.name q)
      | None => false
      end
  end.

(** [next((q for q in queues if q.name == j.queue), None)] *)
Definition find_queue (qs : list Queue.t) (r : queue_ref) : option (nat * Queue.t) :=
  list_find (fun q => names qs q r = true) qs.

(** One pass of the loop that connects jobs and queues. *)
Definition link_job (h : heap) (ji : nat) : heap :=
  match h_jobs h !! ji with
  | None => h
  | Some j =>
      match find_queue (h_queues h) (Job.queue j) with
      | None => h
      | Some (qi, q) =>
          let q1 := Queue.set_jobs q (Queue.jobs q ++ [ji]) in
          let q2 := if is_mine j
                    then Queue.set_maxusernodes q1 (Queue.maxusernodes q1 - 1)
                    else q1 in
          {| h_queues := <[qi := q2]> (h_queues h);
             h_jobs := <[ji := Job.set_queue j (QueueObj qi)]> (h_jobs h) |}
      end
  end.

Definition link (h : heap) : heap :=
  fold_left link_job (seq 0 (length (h_jobs h))) h.

Definition blank_line : string := String "010" (String "010" EmptyString).

Definition matches (p : pattern) (l : pystr) : bool :=
  bool_decide (is_Some (re_match p l)).

Definition parse_queues (out : pystr) : result (list Queue.t) :=
  mapM Queue_init (List.filter (matches QueueRe.name_re) (split blank_line out)).

Definition parse_jobs (out : pystr) : result (list Job.t) :=
  mapM Job_from_string (List.filter (matches JobRe.jobid_re) (split blank_line out)).

(** [Cobalt.get_queues_jobs] *)
Definition get_queues_jobs (sys : host) : M (list event) heap :=
  let* out := getoutput sys (str "qstat -Q -l") in
  let* queues := lift (parse_queues out) in
  let* out := getoutput sys (str "qstat -f -l") in
  let* jobs := lift (parse_jobs out) in
  ret (link {| h_queues := queues; h_jobs := jobs |}).

(** *** [Cobalt.Queue.submit] *)

(** [submit(cmd)] with every keyword argument at its default. *)
Definition submit_defaults (cmd : pystr) : Submit.args :=
  {| Submit.cmd := cmd; Submit.nodecount := 1; Submit.proccount := 1;
     Submit.time := None; Submit.jobname := None; Submit.cwd := None;
     Submit.stderr := None; Submit.stdout := None;
     Submit.output_prefix := None; Submit.users := [user];
     Submit.project := None; Submit.attrs := []; Submit.dependencies := [];
     Submit.geometry := []; Submit.env := []; Submit.hold := false;
     Submit.input_file := None; Submit.email := None; Submit.umask := None;
     Submit.no_oversuscribe := true |}.

Definition policy_reason (q : Queue.t) : pystr :=
  str "Submition on " ++ Queue.name q ++ str " cancelled due to user policy.".

Definition busy_reason (q : Queue.t) : pystr :=
  str "Submition on " ++ Queue.name q ++ str " cancelled because queue is busy.".

(** The two admission checks: the reason of the refusal, if any. A
    [Queue] always has the attributes [jobs], [maxusernodes] and
    [totalnodes]. *)
Definition admission (js : list Job.t) (self : Queue.t) (a : Submit.args)
  : option pystr :=
  if Queue.maxusernodes self <? num_used js self + Submit.nodecount a
  then Some (policy_reason self)
  else
    let num_queued := Z.of_nat (length (Queue.jobs self)) in
    if Submit.no_oversuscribe a
       && (Queue.totalnodes self <? num_queued + Submit.nodecount a)
    then Some (busy_reason self)
    else None.

Definition directive (opt : string) (value : pystr) : pystr :=
  str "#COBALT --" ++ str opt ++ str " " ++ value ++ nl.

Definition when_set (opt : string) (value : option pystr) : list (result pystr) :=
  match value with
  | Some v => [Ok (directive opt v)]
  | None => []
  end.

Definition key_values (d : list (pystr * pystr)) : pystr :=
  join (str ":") (map (fun kv => fst kv ++ str "=" ++ snd kv) d).

(** The successive arguments of [file.write]. Joining the identifiers of
    a non-empty dependency list raises [TypeError]: they are integers. *)
Definition script (a : Submit.args) : list (result pystr) :=
  [Ok (str "#!/bin/bash" ++ nl ++ nl);
   Ok (directive "user_list" (join (str ":") (Submit.users a)))]
  ++ (if 1 <? Submit.proccount a
      then [Ok (directive "proccount" (str_of_int (Submit.proccount a)))] else [])
  ++ when_set "cwd" (Submit.cwd a)
  ++ when_set "error" (Submit.stderr a)
  ++ when_set "output" (Submit.stdout a)
  ++ when_set "outputprefix" (Submit.output_prefix a)
  ++ when_set "run_project"
       (option_map (fun p => join (str ":") (map (fun c => [c]) p)) (Submit.project a))
  ++ (match Submit.attrs a with
      | [] => []
      | _ => [Ok (directive "attrs" (key_values (Submit.attrs a)))]
      end)
  ++ (match Submit.dependencies a with
      | [] => []
      | _ => [Raise TypeError]
      end)
  ++ (match Submit.geometry a with
      | [] => []
      | _ => [Ok (directive "geometry" (join (str "x") (Submit.geometry a)))]
      end)
  ++ (match Submit.env a with
      | [] => []
      | _ => [Ok (directive "env" (key_values (Submit.env a)))]
      end)
  ++ (if Submit.hold a then [Ok (str "#COBALT --held" ++ nl)] else [])
  ++ when_set "input_file" (Submit.input_file a)
  ++ when_set "notify" (Submit.email a)
  ++ when_set "umask" (Submit.umask a)
  ++ [Ok nl]
  ++ (match Submit.cwd a with
      | Some d => [Ok (str "cd " ++ d ++ nl)]
      | None => []
      end)
  ++ [Ok (Submit.cmd a ++ nl)].

Definition effect (e : event) : M submit_state unit :=
  fun st => (Ok tt, {| self_queue := self_queue st; trace := trace st ++ [e] |}).

Fixpoint write_all (ws : list (result pystr)) : M submit_state unit :=
  match ws with
  | [] => ret tt
  | w :: ws' =>
      let* data := lift w in
      let* _ := effect (Write data) in
      write_all ws'
  end.

Definition opt_val (v : option pystr) : pyval :=
  match v with
  | Some s => VStr s
  | None => VNone
  end.

(** [Queue.submit] *)
Definition Queue_submit (sys : host) (js : list Job.t) (a : Submit.args)
  : M submit_state Job.t :=
  let* st := get in
  let self := self_queue st in
  let* _ := lift (match admission js self a with
                  | Some reason => Raise (StopIteration reason)
                  | None => Ok tt
                  end) in
  let time := match Submit.time a with
              | Some t => t
              | None => Queue.maxtime self
              end in
  let* filename := lift (tmpfile sys) in
  let* _ := effect (Mkstemp filename) in
  let* _ := write_all (script a) in
  let* _ := effect (Chmod filename) in
  let command :=
    str "qsub --queue " ++ Queue.name self ++ str " -n "
    ++ str_of_int (Submit.nodecount a) ++ str " -t " ++ timedelta_str time
    ++ (match Submit.jobname a with
        | Some n => str " --jobname " ++ n
        | None => []
        end)
    ++ str " " ++ filename in
  let* _ := effect (Exec command) in
  let* out := lift (run sys command) in
  let* jobid := lift (py_int out) in
  let* st := get in
  let* _ := put {| self_queue :=
                     Queue.set_maxusernodes (self_queue st)
                       (Queue.maxusernodes (self_queue st) - 1);
                   trace := trace st |} in
  ret (Job.mk jobid (QueueName (Queue.name self)) (Some user)
         (Submit.jobname a) (Some (Submit.users a)) (Some time)
         (Some (Timedelta 0)) None (Some (Timedelta 0)) (Some time)
         (Some (Submit.nodecount a)) (Some (Submit.proccount a)) []
         (Some (str "queued")) (Some (Submit.hold a)) (Some (Submit.env a))
         (VDict (Submit.attrs a))
         [("project", opt_val (Submit.project a));
          ("submit_time", VTime (clock sys));
          ("notify", opt_val (Submit.email a))]%string).

(** *** [UserPolicy] *)

(** [UserPolicy.__init__] *)
Definition UserPolicy_init (office_day_start office_day_stop : timedelta)
    (office_max_occupancy max_occupancy : pyfloat)
    (office_maxtime maxtime : timedelta) : result UserPolicy.t :=
  if float_le_zero max_occupancy || float_gt_one max_occupancy
  then Raise ValueError
  else Ok (UserPolicy.mk office_day_start office_day_stop office_max_occupancy
             max_occupancy office_maxtime maxtime).

(** The test of [get_queues] on the current moment:
    [now.weekday() < 5 or dt < office_day_start or dt > office_day_stop]. *)
Definition time_test (self : UserPolicy.t) (now : datetime) : result bool :=
  do dt <- mk_timedelta (dt_hour now) (dt_minute now) (dt_second now);
  Ok ((dt_weekday now <? 5)
      || td_ltb dt (UserPolicy.office_day_start self)
      || td_ltb (UserPolicy.office_day_stop self) dt).

(** The occupancy fraction and wall-time ceiling [get_queues] goes on
    with. *)
Definition figures (self : UserPolicy.t) (now : datetime)
  : result (pyfloat * timedelta) :=
  do t <- time_test self now;
  Ok (if t : bool
      then (UserPolicy.office_max_occupancy self, UserPolicy.office_maxtime self)
      else (UserPolicy.max_occupancy self, UserPolicy.maxtime self)).

(** [max(1, ceil(q.totalnodes * max_occupancy))] *)
Definition allowed_nodes (q : Queue.t) (f : pyfloat) : result Z :=
  do x <- mul_int_float (Queue.totalnodes q) f;
  do c <- ceil x;
  Ok (Z.max 1 c).

(** The body of the loop over the queues. *)
Definition adjust (js : list Job.t) (f : pyfloat) (maxtime : timedelta)
    (q : Queue.t) : result Queue.t :=
  let used := num_used js q in
  do maxusernodes <- allowed_nodes q f;
  let q1 := Queue.set_maxusernodes q
              (Z.max (if used =? 0 then 1 else 0) (maxusernodes - used)) in
  Ok (Queue.set_maxtime q1 (td_min maxtime (Queue.maxtime q1))).

(** The loop and the final selection; the queues returned are
    references into the heap. *)
Definition apply_policy (f : pyfloat) (maxtime : timedelta) (h : heap)
  : result (heap * list nat) :=
  do qs <- mapM (adjust (h_jobs h) f maxtime) (h_queues h);
  Ok ({| h_queues := qs; h_jobs := h_jobs h |},
      List.filter (fun i => match qs !! i with
                            | Some q => 0 <? Queue.maxusernodes q
                            | None => false
                            end)
                  (seq 0 (length qs))).

(** [UserPolicy.get_queues] *)
Definition UserPolicy_get_queues (self : UserPolicy.t) (sys : host)
  : M (list event) (heap * list nat) :=
  let* h := get_queues_jobs sys in
  let* ft := lift (figures self (clock sys)) in
  lift (apply_policy (fst ft) (snd ft) h).
End Cobalt.

(** ** Sample inputs *)

(** A record made of the given lines. *)
Fixpoint lines (ls : list string) : pystr :=
  match ls with
  | [] => []
  | [l] => str l
  | l :: ls' => str l ++ nl ++ lines ls'
  end.

(** 0.5 and 0.25 as binary64 values. *)
Definition half : pyfloat := S754_finite false 4503599627370496 (-53).
Definition quarter : pyfloat := S754_finite false 4503599627370496 (-54).

Definition hours (n : Z) : timedelta := Timedelta (n * 3600 * 1000000).
Definition minutes (n : Z) : timedelta := Timedelta (n * 60 * 1000000).

(** The policy [nice_user] of [__main__.py]. *)
Definition nice_user : UserPolicy.t :=
  UserPolicy.mk (hours 7) (hours 21) quarter half (minutes 30) (hours 2).

Definition monday_noon : datetime :=
  {| dt_weekday := 0; dt_hour := 12; dt_minute := 0; dt_second := 0 |}.

Definition saturday_noon : datetime :=
  {| dt_weekday := 5; dt_hour := 12; dt_minute := 0; dt_second := 0 |}.

(** The time of day of [now] in microseconds: the value of
    [timedelta(hours=now.hour, minutes=now.minute, seconds=now.second)]. *)
Definition time_of_day (now : datetime) : Z :=
  (3600 * dt_hour now + 60 * dt_minute now + dt_second now) * 1000000.

Definition valid_clock (now : datetime) : Prop :=
  0 <= dt_hour now < 24 /\ 0 <= dt_minute now < 60 /\ 0 <= dt_second now < 60.

(** A job as [from_string] builds it from a record with the given
    identifier, queue name and user. *)
Definition plain_job (jobid : Z) (queue : string) (user : option pystr) : Job.t :=
  Job.mk jobid (QueueName (str queue)) user None None None None None None None
    None None [] None None None VNone [].

(** A queue as [Queue.__init__] builds it, with the given job references and
    capacities. *)
Definition plain_queue (name : string) (jobs : list nat)
    (maxusernodes totalnodes : Z) : Queue.t :=
  Queue.mk jobs (str name) [] [] (minutes 10) (hours 1) 0 0 maxusernodes 0
    totalnodes (str "unknown").

(** The local user and the evaluator of the samples; none of the samples
    has an [attrs] field. *)
Definition me : pystr := str "alice".
Definition no_eval (src : pystr) : result pyval := Raise (OtherError src).

(** A host with one queue of ten nodes and two jobs of [alice] in it. *)
Definition sample_host (now : datetime) : host :=
  {| run := fun cmd =>
       if str_eqb cmd (str "qstat -Q -l")
       then Ok (lines ["Name: knl_7210"; "TotalNodes: 10"])
       else if str_eqb cmd (str "qstat -f -l")
       then Ok (lines ["JobID: 1"; "Queue: knl_7210"; "User: alice"; "";
                       "JobID: 2"; "Queue: knl_7210"; "User: alice"])
       else Ok (str "3");
     tmpfile := Ok (str "/tmp/tmpq1w2e3.sh");
     clock := now |}.

(** A heap with a queue of ten nodes holding two jobs of [alice], and an
    empty queue of no node. *)
Definition sample_heap : heap :=
  {| h_queues := [plain_queue "busy" [0; 1]%nat 10 10; plain_queue "void" [] 0 0];
     h_jobs := [plain_job 1 "busy" (Some me); plain_job 2 "busy" (Some me)] |}.

(** Where a greedy run of the class [p] has to stop: at the end of the input
    or before a character outside the class. *)
Definition stops (p : ascii -> bool) (rest : pystr) : Prop :=
  match rest with
  | [] => True
  | b :: _ => p b = false
  end.

(** ** The outcome of connecting jobs and queues, in closed form *)

(** The queue a job goes to: the position of the first queue that answers
    to the job's queue name. *)
Definition resolve (qs : list Queue.t) (j : Job.t) : option nat :=
  fst <$> find_queue qs (Job.queue j).

Definition goes_to (qs : list Queue.t) (js : list Job.t) (qi ji : nat) : bool :=
  bool_decide (js !! ji ≫= resolve qs = Some qi).

(** Among the first [k] jobs, those that go to the queue [qi], in order. *)
Definition linked (qs : list Queue.t) (js : list Job.t) (qi k : nat) : list nat :=
  List.filter (goes_to qs js qi) (seq 0 k).

(** How many of the jobs behind [refs] belong to the local user. *)
Definition mine_among (user : pystr) (js : list Job.t) (refs : list nat) : Z :=
  Z.of_nat (length (List.filter (is_mine user) (job_objects js refs))).

(** The queue [q] at position [qi], and the job [j] at position [ji], once
    the first [k] jobs have been connected. *)
Definition queue_after (user : pystr) (qs : list Queue.t) (js : list Job.t)
    (k qi : nat) (q : Queue.t) : Queue.t :=
  Queue.set_maxusernodes
    (Queue.set_jobs q (Queue.jobs q ++ linked qs js qi k))
    (Queue.maxusernodes q - mine_among user js (linked qs js qi k)).

Definition job_after (qs : list Queue.t) (k ji : nat) (j : Job.t) : Job.t :=
  if (ji <? k)%nat
  then match resolve qs j with
       | Some qi => Job.set_queue j (QueueObj qi)
       | None => j
       end
  else j.

(** A job as [from_string] leaves it: its queue is still a name. *)
Definition fresh (j : Job.t) : Prop := exists n, Job.queue j = QueueName n.

(** ** The words of a pattern

    What a pattern can consume, read off its syntax. Groups do not change
    the words; a pattern without group leaves the captures as they are. *)

Fixpoint lang (r : regex) (w : pystr) : Prop :=
  match r with
  | Eps => w = []
  | Cls p => exists a, w = [a] /\ p a = true
  | Seq r1 r2 => exists w1 w2, w = w1 ++ w2 /\ lang r1 w1 /\ lang r2 w2
  | Alt r1 r2 => lang r1 w \/ lang r2 w
  | Star r1 => exists ws, w = concat ws /\ Forall (lang r1) ws
  | StarLazy r1 => exists ws, w = concat ws /\ Forall (lang r1) ws
  | Group _ r1 => lang r1 w
  end.

Fixpoint groupfree (r : regex) : bool :=
  match r with
  | Eps | Cls _ => true
  | Seq r1 r2 | Alt r1 r2 => groupfree r1 && groupfree r2
  | Star r1 | StarLazy r1 => groupfree r1
  | Group _ _ => false
  end.

(** A successful run of the matcher on [r]: a word of [r] was taken off the
    front of [s] and the continuation answered on what is left. *)
Definition sound_at (r : regex) (s : pystr) (c : caps) (k : kont) (x : caps) : Prop :=
  exists w s' c',
    s = w ++ s' /\ lang r w /\ length c' = length c
    /\ (groupfree r = true -> c' = c) /\ k s' c' = Some x.

(** ** Runs of the matcher

    What is needed to say which word a pattern captures on a given text. *)

(** [w] occurs in [s]. *)
Fixpoint occurs (w s : pystr) : bool :=
  starts_with w s
  || match s with
     | [] => false
     | _ :: s' => occurs w s'
     end.

(** The matcher on [r] takes [s] down to [t] at its first try: whatever
    follows, if it accepts [t], the match is the one that goes through
    [t]. *)
Definition greedy (r : regex) (s t : pystr) : Prop :=
  forall (c : caps) (k : kont),
    (forall c', length c' = length c -> is_Some (k t c')) ->
    exists c', length c' = length c /\ rmatch r s c k = k t c'.

Definition greedy_star (r : regex) (s t : pystr) : Prop :=
  forall (n : nat) (c : caps) (k : kont),
    (length s <= n)%nat ->
    (forall c', length c' = length c -> is_Some (k t c')) ->
    exists c', length c' = length c /\ star_loop (rmatch r) k n s c = k t c'.

Definition no_match (r : regex) (s : pystr) : Prop :=
  forall (c : caps) (k : kont), rmatch r s c k = None.

(** One item of a [Location] field: a host name, with or without a range
    in brackets. *)
Definition location_item (f : pystr) : Prop :=
  exists name br,
    f = name ++ br /\ name <> [] /\ forallb host_char name = true
    /\ (br = []
        \/ exists ds de,
            br = str "[" ++ ds ++ str "-" ++ de ++ str "]"
            /\ is_digits ds = true /\ is_digits de = true).

(** What cannot follow the last item of a [Location] field. *)
Definition item_char : ascii -> bool := host_char ||| one_of ",[".

(** The item of the pattern of the [Location] field:
    [([a-zA-Z0-9-_.]+)(\[\d+-\d+\])?,?]. *)
Definition location_item_re : regex :=
  Cat [Group 3 (Plus (Cls host_char));
       Opt (Group 4 (Cat [Lit (str "["); digits; Lit (str "-"); digits;
                          Lit (str "]")]));
       Opt (Lit (str ","))].

(** ** More sample inputs and outcomes *)

(** A fragment the pattern of the location loop cannot start on: an empty
    one, or one whose first character is no letter, underscore, hyphen or
    dot. *)
Definition bad_lead (l : pystr) : bool :=
  match l with
  | [] => true
  | a :: _ => negb (JobRe.prefix_char a)
  end.

(** A host that answers the two listings with the given texts. *)
Definition listing_host (queues jobs : pystr) : host :=
  {| run := fun cmd =>
       if str_eqb cmd (str "qstat -Q -l") then Ok queues
       else if str_eqb cmd (str "qstat -f -l") then Ok jobs
       else Ok (str "3");
     tmpfile := Ok (str "/tmp/tmpq1w2e3.sh");
     clock := monday_noon |}.

(** The writes of [submit] stop at the exception [e]; all of them go
    through. *)
Definition stops_at (e : exn) (ws : list (result pystr)) : Prop :=
  exists pre post, ws = map Ok pre ++ Raise e :: post.

Definition all_oks (ws : list (result pystr)) : Prop :=
  exists oks, ws = map Ok oks.

(** [k] calls of [submit] in a row on the same queue with the same
    arguments, each outcome kept. *)
Fixpoint submit_repeatedly (user : pystr) (sys : host) (js : list Job.t)
    (a : Submit.args) (k : nat) (st : submit_state)
  : list (result Job.t) * submit_state :=
  match k with
  | O => ([], st)
  | S k' =>
      let '(r, st1) := Queue_submit user sys js a st in
      let '(rs, st2) := submit_repeatedly user sys js a k' st1 in
      (r :: rs, st2)
  end.

Definition accepted (r : result Job.t) : bool :=
  match r with
  | Ok _ => true
  | Raise _ => false
  end.

(** A positive finite float of value at most one: [0 < m * 2^e <= 1]. *)
Definition in_unit_interval (f : pyfloat) : bool :=
  match f with
  | S754_finite false m e => (e <? 0) && (Zpos m <=? 2 ^ (- e))
  | _ => false
  end.

Definition is_nan (f : pyfloat) : bool :=
  match f with
  | S754_nan => true
  | _ => false
  end.

(** ** Accepted submissions *)

(** The wall time [submit] asks for: [time if time is not None else
    self.maxtime]. *)
Definition requested_time (self : Queue.t) (a : Submit.args) : timedelta :=
  match Submit.time a with
  | Some t => t
  | None => Queue.maxtime self
  end.

(** The command line [submit] runs once the script is in [filename]. *)
Definition qsub_command (self : Queue.t) (a : Submit.args) (filename : pystr)
  : pystr :=
  str "qsub --queue " ++ Queue.name self ++ str " -n "
  ++ str_of_int (Submit.nodecount a) ++ str " -t "
  ++ timedelta_str (requested_time self a)
  ++ (match Submit.jobname a with
      | Some n => str " --jobname " ++ n
      | None => []
      end)
  ++ str " " ++ filename.

(** The job object [submit] returns. *)
Definition submitted_job (user : pystr) (sys : host) (self : Queue.t)
    (a : Submit.args) (jobid : Z) : Job.t :=
  Job.mk jobid (QueueName (Queue.name self)) (Some user)
    (Submit.jobname a) (Some (Submit.users a)) (Some (requested_time self a))
    (Some (Timedelta 0)) None (Some (Timedelta 0)) (Some (requested_time self a))
    (Some (Submit.nodecount a)) (Some (Submit.proccount a)) []
    (Some (str "queued")) (Some (Submit.hold a)) (Some (Submit.env a))
    (VDict (Submit.attrs a))
    [("project", opt_val (Submit.project a));
     ("submit_time", VTime (clock sys));
     ("notify", opt_val (Submit.email a))]%string.

(** [submit(cmd, ...)] with the given wall time and dependencies, and every
    other keyword argument at its default. *)
Definition submit_with (user cmd : pystr) (time : option timedelta)
    (dependencies : list dependency) : Submit.args :=
  {| Submit.cmd := cmd; Submit.nodecount := 1; Submit.proccount := 1;
     Submit.time := time; Submit.jobname := None; Submit.cwd := None;
     Submit.stderr := None; Submit.stdout := None;
     Submit.output_prefix := None; Submit.users := [user];
     Submit.project := None; Submit.attrs := [];
     Submit.dependencies := dependencies;
     Submit.geometry := []; Submit.env := []; Submit.hold := false;
     Submit.input_file := None; Submit.email := None; Submit.umask := None;
     Submit.no_oversuscribe := true |}.

(** No space: what a word of a command line is made of. *)
Definition no_space (c : ascii) : bool := negb (Ascii.eqb c " ").

(** ** [Cobalt.Job.__str__] *)

(** ['{:Ns}'.format(v)]: a [str] is padded with spaces on the right up to
    the width; [None] does not take the format [s]. *)
Definition format_s (width : nat) (v : option pystr) : result pystr :=
  match v with
  | Some s => Ok (s ++ replicate (width - length s) " "%char)
  | None => Raise TypeError
  end.

(** ['{:Nd}'.format(n)] for an [int]: padded on the left. *)
Definition format_d (width : nat) (n : Z) : pystr :=
  replicate (width - length (str_of_int n)) " "%char ++ str_of_int n.

(** [str(v)] for a duration or [None]. *)
Definition str_of_time (v : option timedelta) : pystr :=
  match v with
  | Some t => timedelta_str t
  | None => str "None"
  end.

(** [[a-zA-Z]+(?P<i>\d+)], matched against each host name. *)
Definition host_number_re : pattern :=
  {| pat_re := Cat [Plus (Cls is_alpha); Group 1 digits]; pat_groups := 1 |}.

Section Printing.
(** [repr] on a [str]. *)
Variable py_repr : pystr -> pystr.

(** [repr(self.queue)]: the queue is a name, or a [Queue], whose
    [__repr__] returns its name; a reference always points into [qs]. *)
Definition queue_repr (qs : list Queue.t) (r : queue_ref) : pystr :=
  match r with
  | QueueName n => py_repr n
  | QueueObj i =>
      match qs !! i with
      | Some q => Queue.name q
      | None => []
      end
  end.

(** [Job.__str__]; every job has the attributes [runtime] and
    [queued_time], so the last branch of the test on the state is never
    taken. *)
Definition Job_str (qs : list Queue.t) (self : Job.t) : result pystr :=
  let time :=
    if bool_decide (Job.state self = Some (str "running"))
    then str_of_time (Job.runtime self)
    else str_of_time (Job.queued_time self) in
  do location <-
    (if (1 <? length (Job.location self))%nat
     then
       do ns <- mapM (fun l => match re_match host_number_re l with
                               | None => Raise AttributeError
                               | Some m => text m 1
                               end) (Job.location self);
       Ok (queue_repr qs (Job.queue self)
           ++ str "[" ++ join (str ",") ns ++ str "]")
     else Ok (queue_repr qs (Job.queue self)));
  do name <- format_s 20 (Job.name self);
  do location <- format_s 24 (Some location);
  do user <- format_s 16 (Job.user self);
  do state <- format_s 8 (Job.state self);
  do time <- format_s 10 (Some time);
  Ok (format_d 8 (Job.jobid self) ++ str " " ++ name ++ str " " ++ location
      ++ str " " ++ user ++ str " " ++ state ++ str " " ++ time).
End Printing.

(** [repr] on a string of letters, digits and punctuation other than
    quotes and backslash. *)
Definition plain_repr (s : pystr) : pystr := str "'" ++ s ++ str "'".

(** * Properties *)

(** ** Equality of jobs *)

(** C1 (the code departs from the claim): [Job.__eq__] never gives an
    answer. Its first test reads the name [Job], which is bound in the body
    of the class [Cobalt] and in no scope a method can see, so every
    comparison raises [NameError], whatever the other operand is. *)
Theorem Job_eq_raises_NameError :
  forall (self : Job.t) (other : operand),
    Job_eq self other = Raise (NameError (str "Job")).
Proof.
  intros self other. unfold Job_eq. reflexivity.
Qed.

(** ** Construction of queues *)

Lemma rbind_Ok_inv {A B : Type} (x : result A) (f : A -> result B) (b : B) :
  rbind x f = Ok b -> exists a, x = Ok a /\ f a = Ok b.
Proof.
  destruct x as [a|e]; simpl; intros H; [eauto | discriminate].
Qed.

(** A queue record that carries a [MinTime] field is never turned into a
    [Queue]: the branch that converts the field reads an unbound name. *)
Lemma Queue_init_MinTime_fails (s : pystr) (q : Queue.t) :
  is_Some (re_match QueueRe.mintime_re s) -> Queue_init s <> Ok q.
Proof.
  intros [m Hm] H. unfold Queue_init in H.
  apply rbind_Ok_inv in H as (name & _ & H).
  apply rbind_Ok_inv in H as (users & _ & H).
  apply rbind_Ok_inv in H as (groups & _ & H).
  apply rbind_Ok_inv in H as (mintime & H & _).
  rewrite Hm in H.
  apply rbind_Ok_inv in H as (g & _ & H).
  apply rbind_Ok_inv in H as ([[h mi] se] & _ & H).
  apply rbind_Ok_inv in H as (x & H & _).
  discriminate H.
Qed.

(** C3 (the code departs from the claim): on a record with the field
    [MinTime: 00:10:00], [Queue.__init__] raises [NameError] for the name
    [sedonds] instead of setting [mintime] to ten minutes. *)
Theorem Queue_init_MinTime_NameError :
  Queue_init (lines ["Name: gomez"; "MinTime: 00:10:00"])
  = Raise (NameError (str "sedonds")).
Proof. vm_compute. reflexivity. Qed.

(** C9: a record that holds only [Name: testq] gives a queue named [testq]
    with no users, no groups, a minimum time of ten minutes, a maximum time
    of one hour, zero for [maxrunning], [maxqueued], [maxusernodes] and
    [totalnodes], the state [unknown] and no job. *)
Theorem Queue_init_name_only :
  exists q,
    Queue_init (str "Name: testq") = Ok q
    /\ Queue.name q = str "testq"
    /\ Queue.users q = [] /\ Queue.groups q = []
    /\ mk_timedelta 0 10 0 = Ok (Queue.mintime q)
    /\ mk_timedelta 1 0 0 = Ok (Queue.maxtime q)
    /\ Queue.maxrunning q = 0 /\ Queue.maxqueued q = 0
    /\ Queue.maxusernodes q = 0 /\ Queue.totalnodes q = 0
    /\ Queue.state q = str "unknown"
    /\ Queue.jobs q = []
    /\ defaults !! "testq"%string = None.
Proof.
  eexists. split; [vm_compute; reflexivity |].
  repeat split; vm_compute; reflexivity.
Qed.

(** ** Parsing of jobs *)

(** Whatever the record, an absent [user_list], [State], [Envs] or [attrs]
    field leaves [None] in the job. *)
Lemma Job_from_string_absent_fields py_eval s j :
  Job_from_string py_eval s = Ok j ->
  (re_match JobRe.users_re s = None -> Job.users j = None)
  /\ (re_match JobRe.state_re s = None -> Job.state j = None)
  /\ (re_match JobRe.envs_re s = None -> Job.envs j = None)
  /\ (re_match JobRe.attrs_re s = None -> Job.attrs j = VNone).
Proof.
  unfold Job_from_string. intros H.
  apply rbind_Ok_inv in H as (jobid & _ & H).
  apply rbind_Ok_inv in H as (queue & _ & H).
  apply rbind_Ok_inv in H as (users & Husers & H).
  do 8 (apply rbind_Ok_inv in H as (? & _ & H)).
  apply rbind_Ok_inv in H as (envs & Henvs & H).
  apply rbind_Ok_inv in H as (attrs & Hattrs & H).
  apply rbind_Ok_inv in H as (deps & _ & H).
  injection H as <-. cbn [Job.users Job.state Job.envs Job.attrs].
  split; [| split; [| split]]; intros E.
  - rewrite E in Husers. injection Husers as <-. reflexivity.
  - rewrite E. reflexivity.
  - unfold envs_field in Henvs. rewrite E in Henvs.
    injection Henvs as <-. reflexivity.
  - unfold attrs_field in Hattrs. rewrite E in Hattrs.
    injection Hattrs as <-. reflexivity.
Qed.

(** C8 (the code departs from the claim): from a record with only an
    identifier and a queue name, [from_string] builds a job with that
    identifier and that queue name, but [users], [state], [envs] and
    [attrs] are [None] rather than the empty list, [unknown] and the empty
    mapping: the match result overwrites the initial value of each. The
    job has no [dependencies] attribute. *)
Theorem Job_from_string_defaults :
  forall py_eval : pystr -> result pyval,
    Job_from_string py_eval (lines ["JobID: 1"; "Queue: q"])
    = Ok (Job.mk 1 (QueueName (str "q")) None None None None None None None
            None None None [] None None None VNone []).
Proof. intros py_eval. vm_compute. reflexivity. Qed.

(** ** Submission *)

Lemma admission_over_user user js self a :
  Queue.maxusernodes self < num_used user js self + Submit.nodecount a ->
  admission user js self a = Some (policy_reason self).
Proof.
  intros H. unfold admission.
  destruct (Z.ltb_spec (Queue.maxusernodes self)
              (num_used user js self + Submit.nodecount a)); [reflexivity | lia].
Qed.

Lemma admission_over_total user js self a :
  ~ Queue.maxusernodes self < num_used user js self + Submit.nodecount a ->
  Submit.no_oversuscribe a = true ->
  Queue.totalnodes self < Z.of_nat (length (Queue.jobs self)) + Submit.nodecount a ->
  admission user js self a = Some (busy_reason self).
Proof.
  intros Hu Hg Ht. unfold admission.
  destruct (Z.ltb_spec (Queue.maxusernodes self)
              (num_used user js self + Submit.nodecount a)); [lia |].
  rewrite Hg. simpl.
  destruct (Z.ltb_spec (Queue.totalnodes self)
              (Z.of_nat (length (Queue.jobs self)) + Submit.nodecount a));
    [reflexivity | lia].
Qed.

Lemma submit_refused user sys js a st reason :
  admission user js (self_queue st) a = Some reason ->
  Queue_submit user sys js a st = (Raise (StopIteration reason), st).
Proof.
  intros H. unfold Queue_submit, bind, get, lift. rewrite H. reflexivity.
Qed.

(** Writing the script leaves the queue alone and only extends the trace. *)
Lemma write_all_self ws st :
  exists r tr, write_all ws st
               = (r, {| self_queue := self_queue st; trace := trace st ++ tr |}).
Proof.
  revert st. induction ws as [|w ws IH]; intros st.
  - exists (Ok tt), []. rewrite app_nil_r. destruct st; reflexivity.
  - destruct w as [data|e]; cbn [write_all].
    + unfold bind at 1. unfold lift at 1. unfold bind at 1. unfold effect at 1.
      destruct (IH {| self_queue := self_queue st;
                      trace := trace st ++ [Write data] |}) as (r & tr & E).
      rewrite E. exists r, ([Write data] ++ tr). cbn [self_queue trace].
      rewrite app_assoc. reflexivity.
    + exists (Raise e), []. rewrite app_nil_r. destruct st; reflexivity.
Qed.

(** C6: when the local user's jobs in the queue plus the requested nodes
    exceed [maxusernodes], or, with the oversubscription guard on, the
    jobs in the queue plus the requested nodes exceed [totalnodes], then
    [submit] raises [StopIteration] with a reason naming the queue, and the
    state is the one it started from: nothing was added to the trace, so no
    temporary file was made or written and no command was run. *)
Theorem submit_refused_before_effects :
  forall (user : pystr) (sys : host) (js : list Job.t) (a : Submit.args)
         (st : submit_state),
    let self := self_queue st in
    let over_user :=
      Queue.maxusernodes self < num_used user js self + Submit.nodecount a in
    let over_total :=
      Submit.no_oversuscribe a = true
      /\ Queue.totalnodes self
         < Z.of_nat (length (Queue.jobs self)) + Submit.nodecount a in
    over_user \/ over_total ->
    exists reason,
      Queue_submit user sys js a st = (Raise (StopIteration reason), st)
      /\ (over_user -> reason = policy_reason self)
      /\ (~ over_user -> reason = busy_reason self)
      /\ reason <> [].
Proof.
  intros user sys js a st self over_user over_total H.
  destruct (Z_lt_dec (Queue.maxusernodes self)
              (num_used user js self + Submit.nodecount a)) as [Hu|Hu].
  - exists (policy_reason self). split; [| split; [| split]].
    + apply submit_refused, admission_over_user, Hu.
    + reflexivity.
    + intros Hn. contradiction.
    + discriminate.
  - destruct H as [H|[Hg Ht]]; [contradiction |].
    exists (busy_reason self). split; [| split; [| split]].
    + apply submit_refused, admission_over_total; assumption.
    + intros Hn. contradiction.
    + reflexivity.
    + discriminate.
Qed.

(** C10: a refusal by either admission check returns the state untouched;
    more generally, whatever [submit] raises, the queue is as before; and
    when [submit] returns a job, both checks had passed, the queue differs
    only by [maxusernodes], one less, and the last thing done was to run the
    submission command, whose output reads as the identifier of the job. *)
Theorem submit_refusal_atomic :
  forall (user : pystr) (sys : host) (js : list Job.t) (a : Submit.args)
         (st : submit_state),
    let self := self_queue st in
    let out := Queue_submit user sys js a st in
    (forall reason,
        admission user js self a = Some reason ->
        out = (Raise (StopIteration reason), st))
    /\ (forall e, fst out = Raise e -> self_queue (snd out) = self)
    /\ (forall job,
           fst out = Ok job ->
           admission user js self a = None
           /\ self_queue (snd out)
              = Queue.set_maxusernodes self (Queue.maxusernodes self - 1)
           /\ Queue.jobs (self_queue (snd out)) = Queue.jobs self
           /\ exists command output,
               last (trace (snd out)) = Some (Exec command)
               /\ run sys command = Ok output
               /\ py_int output = Ok (Job.jobid job)).
Proof.
  intros user sys js a st self out.
  split; [intros reason H; apply submit_refused, H |].
  subst out. unfold Queue_submit, bind, get, lift, put, ret, effect.
  fold self. cbn beta iota.
  destruct (admission user js self a) as [reason|] eqn:Ha.
  { split; [intros e _; reflexivity | intros job H; discriminate H]. }
  destruct (tmpfile sys) as [filename|e0].
  2:{ split; [intros e _; reflexivity | intros job H; discriminate H]. }
  cbn [self_queue trace].
  destruct (write_all_self (script a)
              {| self_queue := self; trace := trace st ++ [Mkstemp filename] |})
    as (r & tr & E).
  rewrite E. cbn [self_queue trace].
  destruct r as [[]|e1].
  2:{ split; [intros e _; reflexivity | intros job H; discriminate H]. }
  match goal with |- context [run sys ?c] => set (command := c) end.
  destruct (run sys command) as [output|e2] eqn:Hrun.
  2:{ split; [intros e _; reflexivity | intros job H; discriminate H]. }
  destruct (py_int output) as [jobid|e3] eqn:Hint.
  2:{ split; [intros e _; reflexivity | intros job H; discriminate H]. }
  cbn [self_queue trace fst snd].
  split; [intros e H; discriminate H |].
  intros job H. injection H as <-.
  split; [reflexivity |]. split; [reflexivity |]. split; [reflexivity |].
  exists command, output. split; [| split; assumption].
  apply last_snoc.
Qed.

(** ** The policy filter *)

Lemma mk_timedelta_time_of_day (now : datetime) :
  valid_clock now ->
  mk_timedelta (dt_hour now) (dt_minute now) (dt_second now)
  = Ok (Timedelta (time_of_day now)).
Proof.
  intros (Hh & Hm & Hs). unfold mk_timedelta, time_of_day, us_per_day.
  rewrite Z.div_small by lia. reflexivity.
Qed.

Lemma time_test_spec (self : UserPolicy.t) (now : datetime) :
  valid_clock now ->
  exists b,
    time_test self now = Ok b
    /\ (b = true <->
        dt_weekday now < 5
        \/ time_of_day now < total_us (UserPolicy.office_day_start self)
        \/ total_us (UserPolicy.office_day_stop self) < time_of_day now).
Proof.
  intros Hv. unfold time_test. rewrite (mk_timedelta_time_of_day now Hv).
  eexists. split; [reflexivity |].
  unfold td_ltb. cbn [total_us].
  rewrite !orb_true_iff, !Z.ltb_lt. tauto.
Qed.

(** C4, between the office bounds: at a moment whose time of day is
    neither before [office_day_start] nor after [office_day_stop],
    [get_queues] goes on with [office_max_occupancy] and [office_maxtime]
    when the weekday index is below 5, and with [max_occupancy] and
    [maxtime] on the two other days. *)
Theorem get_queues_figures :
  forall (user : pystr) (py_eval : pystr -> result pyval)
         (self : UserPolicy.t) (sys : host) (tr tr' : list event) (h : heap),
    valid_clock (clock sys) ->
    get_queues_jobs user py_eval sys tr = (Ok h, tr') ->
    let now := clock sys in
    total_us (UserPolicy.office_day_start self) <= time_of_day now ->
    time_of_day now <= total_us (UserPolicy.office_day_stop self) ->
    (dt_weekday now < 5 ->
     UserPolicy_get_queues user py_eval self sys tr
     = (apply_policy user (UserPolicy.office_max_occupancy self)
          (UserPolicy.office_maxtime self) h, tr'))
    /\ (5 <= dt_weekday now ->
        UserPolicy_get_queues user py_eval self sys tr
        = (apply_policy user (UserPolicy.max_occupancy self)
             (UserPolicy.maxtime self) h, tr')).
Proof.
  intros user py_eval self sys tr tr' h Hv Hq now Hstart Hstop.
  destruct (time_test_spec self now Hv) as (b & Hb & Hiff).
  unfold UserPolicy_get_queues, bind, lift. rewrite Hq.
  unfold figures. fold now. rewrite Hb. cbn [rbind fst snd].
  split; intros Ht.
  - assert (b = true) as -> by (apply Hiff; left; exact Ht). reflexivity.
  - destruct b; [| reflexivity].
    exfalso. destruct (proj1 Hiff eq_refl) as [H|[H|H]]; lia.
Qed.

(** C4 as the specification words it fails: on a Monday at noon the weekday
    index is below 5, and the policy of [__main__.py] goes on with the
    office figures, a quarter of the nodes and thirty minutes, not with
    [max_occupancy] and [maxtime]: of the ten nodes of the queue, less the
    two jobs of the user, one is left, where [max_occupancy] would leave
    three. *)
Lemma get_queues_monday_noon_office_figures :
  dt_weekday monday_noon < 5
  /\ figures nice_user monday_noon
     = Ok (UserPolicy.office_max_occupancy nice_user,
           UserPolicy.office_maxtime nice_user)
  /\ figures nice_user monday_noon
     <> Ok (UserPolicy.max_occupancy nice_user, UserPolicy.maxtime nice_user)
  /\ (exists h kept tr,
         UserPolicy_get_queues me no_eval nice_user (sample_host monday_noon) []
         = (Ok (h, kept), tr)
         /\ map Queue.maxusernodes (h_queues h) = [1]
         /\ map Queue.maxtime (h_queues h) = [minutes 30])
  /\ (exists h0 tr h kept,
         get_queues_jobs me no_eval (sample_host monday_noon) [] = (Ok h0, tr)
         /\ apply_policy me (UserPolicy.max_occupancy nice_user)
              (UserPolicy.maxtime nice_user) h0 = Ok (h, kept)
         /\ map Queue.maxusernodes (h_queues h) = [3]
         /\ map Queue.maxtime (h_queues h) = [hours 1]).
Proof.
  split; [reflexivity |]. split; [reflexivity |].
  split; [vm_compute; intros H; discriminate H |].
  split.
  - eexists _, _, _. split; [vm_compute; reflexivity |].
    split; reflexivity.
  - eexists _, _, _, _. split; [vm_compute; reflexivity |].
    split; [vm_compute; reflexivity |]. split; reflexivity.
Qed.

Lemma mapM_Ok {A B : Type} (g : A -> result B) (l : list A) :
  (forall a, In a l -> exists b, g a = Ok b) ->
  exists l',
    mapM g l = Ok l'
    /\ length l' = length l
    /\ forall i a, l !! i = Some a -> exists b, l' !! i = Some b /\ g a = Ok b.
Proof.
  induction l as [|a l IH]; intros H.
  - exists []. split; [reflexivity |]. split; [reflexivity |].
    intros i a Hi. destruct i; discriminate Hi.
  - destruct (H a (or_introl eq_refl)) as (b & Hb).
    destruct IH as (l' & Hl' & Hlen & Hnth).
    { intros a' Ha'. apply H. right. exact Ha'. }
    exists (b :: l'). cbn [mapM]. rewrite Hb, Hl'. split; [reflexivity |].
    split; [cbn; f_equal; exact Hlen |].
    intros [|i] a' Hi; cbn in Hi |- *.
    + injection Hi as <-. eauto.
    + apply Hnth, Hi.
Qed.

Lemma total_us_td_min (a b : timedelta) :
  total_us (td_min a b) = Z.min (total_us a) (total_us b).
Proof.
  unfold td_min, td_ltb.
  destruct (Z.ltb_spec (total_us b) (total_us a)); lia.
Qed.

(** C5: for every queue of the heap, with [c] the ceiling of [totalnodes]
    times the fraction [f] and [used] the number of the local user's jobs in
    the queue, the loop of [get_queues] sets [maxusernodes] to the maximum
    of [max(1, c) - used] and a floor that is 1 when [used] is 0 and 0
    otherwise, sets [maxtime] to the lesser of [T] and the queue's own, and
    changes nothing else; the queues returned are exactly those whose new
    [maxusernodes] is positive. The loop returns as soon as each product
    has a ceiling. With ten nodes, two jobs of the user and [f] one half
    the result is 3 and the queue is returned; with no node and no job it
    is 1 and the queue is returned. *)
Theorem apply_policy_spec :
  (forall (user : pystr) (f : pyfloat) (T : timedelta) (h : heap),
      (forall q, In q (h_queues h) -> exists n, allowed_nodes q f = Ok n) ->
      exists h' kept,
        apply_policy user f T h = Ok (h', kept)
        /\ h_jobs h' = h_jobs h
        /\ length (h_queues h') = length (h_queues h)
        /\ List.NoDup kept
        /\ (forall i, In i kept -> is_Some (h_queues h !! i))
        /\ forall i q,
            h_queues h !! i = Some q ->
            exists q' c,
              h_queues h' !! i = Some q'
              /\ (do x <- mul_int_float (Queue.totalnodes q) f; ceil x) = Ok c
              /\ (let allowed := Z.max 1 c in
                  let used := num_used user (h_jobs h) q in
                  Queue.maxusernodes q'
                  = Z.max (if used =? 0 then 1 else 0) (allowed - used))
              /\ total_us (Queue.maxtime q')
                 = Z.min (total_us T) (total_us (Queue.maxtime q))
              /\ Queue.set_maxtime
                   (Queue.set_maxusernodes q (Queue.maxusernodes q'))
                   (Queue.maxtime q') = q'
              /\ (In i kept <-> 0 < Queue.maxusernodes q'))
  /\ (exists h' kept,
         apply_policy me half (hours 2) sample_heap = Ok (h', kept)
         /\ map Queue.totalnodes (h_queues sample_heap) = [10; 0]
         /\ map (num_used me (h_jobs sample_heap)) (h_queues sample_heap) = [2; 0]
         /\ map Queue.maxusernodes (h_queues h') = [3; 1]
         /\ kept = [0; 1]%nat).
Proof.
  split.
  - intros user f T h Hok. unfold apply_policy.
    destruct (mapM_Ok (adjust user (h_jobs h) f T) (h_queues h))
      as (qs & Hqs & Hlen & Hnth).
    { intros q Hq. destruct (Hok q Hq) as (n & Hn).
      unfold adjust. rewrite Hn. cbn [rbind]. eauto. }
    rewrite Hqs. cbn [rbind]. eexists _, _. split; [reflexivity |].
    cbn [h_queues h_jobs].
    split; [reflexivity |]. split; [exact Hlen |].
    split; [apply List.NoDup_filter, List.seq_NoDup |].
    split.
    { intros i Hi. apply filter_In in Hi as [Hi _].
      apply in_seq in Hi. apply lookup_lt_is_Some. lia. }
    intros i q Hi.
    destruct (Hnth i q Hi) as (q' & Hq' & Hadj).
    unfold adjust, allowed_nodes in Hadj.
    destruct (mul_int_float (Queue.totalnodes q) f) as [x|] eqn:Hx;
      [| discriminate Hadj].
    cbn [rbind] in Hadj.
    destruct (ceil x) as [c|] eqn:Hc; [| discriminate Hadj].
    cbn [rbind] in Hadj. injection Hadj as <-.
    eexists _, c. split; [exact Hq' |].
    split; [cbn [rbind]; exact Hc |].
    split; [reflexivity |].
    split; [cbn; apply total_us_td_min |].
    split; [reflexivity |].
    rewrite filter_In, in_seq, Hq'. cbn [Queue.maxusernodes Queue.set_maxtime
      Queue.set_maxusernodes].
    rewrite Z.ltb_lt.
    apply lookup_lt_Some in Hq'. split; [tauto | intros H; split; [lia | exact H]].
  - eexists _, _. split; [vm_compute; reflexivity |].
    repeat split; reflexivity.
Qed.

(** ** Location ranges

    The equations of the matcher, and how a greedy run of a character
    class behaves when what follows it matches. *)

Lemma rmatch_Cls_cons p a s c k :
  rmatch (Cls p) (a :: s) c k = if p a then k s c else None.
Proof. reflexivity. Qed.

Lemma rmatch_Seq r1 r2 s c k :
  rmatch (Seq r1 r2) s c k = rmatch r1 s c (fun s' c' => rmatch r2 s' c' k).
Proof. reflexivity. Qed.

Lemma rmatch_Group n r s c k :
  rmatch (Group n r) s c k
  = rmatch r s c (fun s' c' => k s' (<[n := Some (consumed s s')]> c')).
Proof. reflexivity. Qed.

Lemma rmatch_Star r s c k :
  rmatch (Star r) s c k = star_loop (rmatch r) k (length s) s c.
Proof. reflexivity. Qed.

Lemma rmatch_Opt_left r s c k x :
  rmatch r s c k = Some x -> rmatch (Opt r) s c k = Some x.
Proof. intros H. unfold Opt. cbn [rmatch]. rewrite H. reflexivity. Qed.

Lemma rmatch_Opt_skip r s c k :
  rmatch r s c k = None -> rmatch (Opt r) s c k = k s c.
Proof. intros H. unfold Opt. cbn [rmatch]. rewrite H. reflexivity. Qed.

Lemma star_loop_S step k n s c :
  star_loop step k (S n) s c
  = match step s c (fun s' c' =>
                      if shorter s' s then star_loop step k n s' c' else None) with
    | Some r => Some r
    | None => k s c
    end.
Proof. reflexivity. Qed.

Lemma shorter_tail (a : ascii) (s : pystr) : shorter s (a :: s) = true.
Proof. apply Nat.ltb_lt. cbn. lia. Qed.

Lemma star_cls_greedy (p : ascii -> bool) (k : kont) (w : pystr) :
  forall (n : nat) (rest : pystr) (c x : caps),
    (length w <= n)%nat -> forallb p w = true -> stops p rest ->
    k rest c = Some x ->
    star_loop (rmatch (Cls p)) k n (w ++ rest) c = Some x.
Proof.
  induction w as [|a w IH]; intros n rest c x Hn Hw Hstop Hk.
  - cbn [app]. destruct n as [|n]; [exact Hk |].
    rewrite star_loop_S. destruct rest as [|b rest].
    + cbn [rmatch]. exact Hk.
    + rewrite rmatch_Cls_cons. cbn in Hstop. rewrite Hstop. exact Hk.
  - destruct n as [|n]; [cbn in Hn; lia |].
    cbn in Hw. apply andb_true_iff in Hw as [Ha Hw].
    cbn [app]. rewrite star_loop_S, rmatch_Cls_cons, Ha, shorter_tail.
    rewrite (IH n rest c x); [reflexivity | cbn in Hn; lia | assumption ..].
Qed.

Lemma plus_cls_greedy (p : ascii -> bool) (k : kont) (w rest : pystr) (c x : caps) :
  w <> [] -> forallb p w = true -> stops p rest ->
  k rest c = Some x ->
  rmatch (Plus (Cls p)) (w ++ rest) c k = Some x.
Proof.
  intros Hne Hw Hstop Hk. destruct w as [|a w]; [contradiction |].
  cbn in Hw. apply andb_true_iff in Hw as [Ha Hw].
  unfold Plus. cbn [app]. rewrite rmatch_Seq, rmatch_Cls_cons, Ha, rmatch_Star.
  apply star_cls_greedy; [rewrite length_app; lia | assumption ..].
Qed.

Lemma consumed_app (w rest : pystr) : consumed (w ++ rest) rest = w.
Proof.
  unfold consumed. rewrite length_app.
  replace (length w + length rest - length rest)%nat with (length w) by lia.
  apply take_app_length.
Qed.

Lemma rmatch_Lit (w s : pystr) (c : caps) (k : kont) :
  rmatch (Lit w) (w ++ s) c k = k s c.
Proof.
  induction w as [|a w IH]; [reflexivity |].
  cbn [Lit app]. rewrite rmatch_Seq, rmatch_Cls_cons, Ascii.eqb_refl. exact IH.
Qed.

Lemma rmatch_Lit_end (w : pystr) (c : caps) (k : kont) :
  rmatch (Lit w) w c k = k [] c.
Proof.
  rewrite <- (rmatch_Lit w [] c k). rewrite app_nil_r. reflexivity.
Qed.

Lemma fragment_range (prefix ds de : pystr) :
  prefix <> [] -> forallb JobRe.prefix_char prefix = true ->
  is_digits ds = true -> is_digits de = true ->
  exists m,
    re_match JobRe.fragment_re (prefix ++ str "[" ++ ds ++ str "-" ++ de ++ str "]")
    = Some m
    /\ group m 1 = Some prefix /\ group m 2 = None
    /\ group m 4 = Some ds /\ group m 5 = Some de.
Proof.
  intros Hp Hpc Hds Hde.
  unfold is_digits in Hds, Hde.
  apply andb_true_iff in Hds as [Hds0 Hds], Hde as [Hde0 Hde].
  apply negb_true_iff, bool_decide_eq_false in Hds0, Hde0.
  unfold re_match, JobRe.fragment_re. cbn [pat_re pat_groups Cat].
  eexists. split.
  - rewrite rmatch_Group, rmatch_Seq, rmatch_Group.
    eapply plus_cls_greedy; [assumption | assumption | reflexivity |].
    cbv beta. rewrite consumed_app, rmatch_Seq.
    rewrite rmatch_Opt_skip by reflexivity.
    apply rmatch_Opt_left.
    rewrite rmatch_Group, rmatch_Seq, (rmatch_Lit (str "[")), rmatch_Seq, rmatch_Group.
    eapply plus_cls_greedy; [assumption | assumption | reflexivity |].
    cbv beta. rewrite consumed_app, rmatch_Seq, (rmatch_Lit (str "-")), rmatch_Seq, rmatch_Group.
    eapply plus_cls_greedy; [assumption | assumption | reflexivity |].
    cbv beta. rewrite consumed_app.
    rewrite (rmatch_Lit_end (str "]")).
    reflexivity.
  - cbn. auto.
Qed.

Lemma digit_facts (c : ascii) :
  is_digit c = true ->
  int_space c = false /\ Ascii.eqb c "-" = false /\ Ascii.eqb c "+" = false
  /\ Ascii.eqb "_" c = false.
Proof.
  destruct c as [[] [] [] [] [] [] [] []]; vm_compute; intros H;
    try discriminate H; auto.
Qed.

Lemma skip_spaces_digit (a : ascii) (w : pystr) :
  is_digit a = true -> skip_spaces (a :: w) = a :: w.
Proof.
  intros H. cbn [skip_spaces]. destruct (digit_facts a H) as (-> & _). reflexivity.
Qed.

Lemma forallb_rev {A : Type} (p : A -> bool) (l : list A) :
  forallb p l = true -> forallb p (rev l) = true.
Proof.
  rewrite !forallb_forall. intros H x Hx. apply H, in_rev, Hx.
Qed.

Lemma trim_digits (w : pystr) :
  forallb is_digit w = true -> trim w = w.
Proof.
  intros H. unfold trim. destruct w as [|a w]; [reflexivity |].
  pose proof H as H'. cbn in H'. apply andb_true_iff in H' as [Ha _].
  rewrite (skip_spaces_digit a w Ha).
  pose proof (forallb_rev _ _ H) as Hr.
  destruct (rev (a :: w)) as [|b r] eqn:E.
  - apply (f_equal (@length ascii)) in E. rewrite length_rev in E. discriminate E.
  - cbn in Hr. apply andb_true_iff in Hr as [Hb _].
    rewrite (skip_spaces_digit b r Hb), <- E. apply rev_involutive.
Qed.

Lemma split_go_digits (s acc : pystr) :
  forallb is_digit s = true -> split_go (str "_") 0 acc s = [rev acc ++ s].
Proof.
  change (str "_") with ["_"%char].
  revert acc. induction s as [|a s IH]; intros acc H.
  - cbn. rewrite app_nil_r. reflexivity.
  - cbn in H. apply andb_true_iff in H as [Ha Hs].
    destruct (digit_facts a Ha) as (_ & _ & _ & Hu).
    cbn [split_go starts_with]. rewrite Hu. cbn [andb].
    rewrite (IH (a :: acc) Hs). cbn [rev]. rewrite <- app_assoc. reflexivity.
Qed.

(** [int] on a run of digits: its value, unless the run is longer than the
    interpreter allows. *)
Lemma py_int_digits (w : pystr) :
  is_digits w = true ->
  py_int w = if short w then Ok (digits_val w) else Raise ValueError.
Proof.
  intros H. pose proof H as H0. unfold is_digits in H0.
  apply andb_true_iff in H0 as [Hne Hd].
  unfold py_int. rewrite (trim_digits w Hd).
  destruct w as [|a w]; [discriminate Hne |].
  pose proof Hd as Hd'. cbn in Hd'. apply andb_true_iff in Hd' as [Ha _].
  destruct (digit_facts a Ha) as (_ & -> & -> & _).
  unfold split. rewrite (split_go_digits (a :: w) [] Hd).
  cbn [rev app forallb]. rewrite H. cbn [andb concat]. rewrite app_nil_r.
  reflexivity.
Qed.

Lemma py_int_short (w : pystr) :
  is_digits w = true -> short w = true -> py_int w = Ok (digits_val w).
Proof. intros H Hs. rewrite (py_int_digits w H), Hs. reflexivity. Qed.

Lemma length_py_range (a b : Z) : length (py_range a b) = Z.to_nat (b - a).
Proof. unfold py_range. rewrite length_map, length_seq. reflexivity. Qed.

Lemma lookup_py_range (a b : Z) (k : nat) :
  (k < Z.to_nat (b - a))%nat -> py_range a b !! k = Some (a + Z.of_nat k).
Proof.
  intros H. unfold py_range. rewrite list_lookup_fmap.
  rewrite lookup_seq_lt by exact H. reflexivity.
Qed.

(** The body of the loop on a fragment [prefix[start-end]] whose prefix is a
    non-empty run of letters, underscores, hyphens and dots, and whose
    bounds are runs of digits that [int] takes. *)
Lemma expand_location_fragment (prefix ds de : pystr) :
  prefix <> [] ->
  forallb JobRe.prefix_char prefix = true ->
  is_digits ds = true ->
  is_digits de = true ->
  expand_location (prefix ++ str "[" ++ ds ++ str "-" ++ de ++ str "]")
  = if short ds && short de
    then Ok (map (fun i => prefix ++ str_of_int i)
               (py_range (digits_val ds) (digits_val de + 1)))
    else Raise ValueError.
Proof.
  intros Hp Hpc Hds Hde.
  destruct (fragment_range prefix ds de Hp Hpc Hds Hde)
    as (m & Hm & H1 & H2 & H4 & H5).
  unfold expand_location. rewrite Hm, H2, H5, H4.
  unfold text. rewrite H1. cbn [rbind].
  rewrite (py_int_digits ds Hds), (py_int_digits de Hde).
  destruct (short ds), (short de); reflexivity.
Qed.

(** ** Connecting jobs and queues *)

Lemma linked_S qs js qi k :
  linked qs js qi (S k)
  = linked qs js qi k ++ (if goes_to qs js qi k then [k] else []).
Proof.
  unfold linked. rewrite seq_S, List.filter_app. cbn [List.filter plus].
  reflexivity.
Qed.

Lemma mine_among_app user js l1 l2 :
  mine_among user js (l1 ++ l2) = mine_among user js l1 + mine_among user js l2.
Proof.
  unfold mine_among, job_objects.
  rewrite omap_app, List.filter_app, length_app. lia.
Qed.

Lemma mine_among_one user js k j :
  js !! k = Some j ->
  mine_among user js [k] = if is_mine user j then 1 else 0.
Proof.
  intros H. unfold mine_among, job_objects. cbn. rewrite H.
  cbn. destruct (is_mine user j); reflexivity.
Qed.

Lemma list_find_imap_same {A : Type} (P : A -> Prop) `{!forall x, Decision (P x)}
    (f : nat -> A -> A) (l : list A) :
  (forall i x, P (f i x) <-> P x) ->
  list_find P (imap f l) = (fun ix => (fst ix, f (fst ix) (snd ix))) <$> list_find P l.
Proof.
  revert f. induction l as [|x l IH]; intros f Hf; [reflexivity |].
  cbn [imap list_find].
  destruct (decide (P x)) as [Hx|Hx].
  - rewrite decide_True by (apply Hf, Hx). reflexivity.
  - rewrite decide_False by (rewrite Hf; exact Hx).
    rewrite IH by (intros i y; apply Hf).
    destruct (list_find P l) as [[i y]|]; reflexivity.
Qed.

Lemma find_queue_after user qs js k n :
  find_queue (imap (queue_after user qs js k) qs) (QueueName n)
  = (fun ix => (fst ix, queue_after user qs js k (fst ix) (snd ix)))
      <$> find_queue qs (QueueName n).
Proof.
  unfold find_queue. cbn [names].
  apply (list_find_imap_same (fun q => str_eqb (Queue.name q) n = true)).
  intros i x. reflexivity.
Qed.

Lemma queue_after_0 user qs js qi q : queue_after user qs js 0 qi q = q.
Proof.
  unfold queue_after, linked, mine_among. cbn.
  rewrite app_nil_r, Z.sub_0_r. destruct q; reflexivity.
Qed.

(** The loop of [get_queues_jobs] after its first [k] passes. *)
Lemma link_prefix user qs js k :
  Forall fresh js -> (k <= length js)%nat ->
  fold_left (link_job user) (seq 0 k) {| h_queues := qs; h_jobs := js |}
  = {| h_queues := imap (queue_after user qs js k) qs;
       h_jobs := imap (job_after qs k) js |}.
Proof.
  intros Hfresh. induction k as [|k IH]; intros Hk.
  - cbn [seq fold_left]. f_equal.
    + apply list_eq. intros i. rewrite list_lookup_imap.
      destruct (qs !! i); cbn; [rewrite queue_after_0|]; reflexivity.
    + apply list_eq. intros i. rewrite list_lookup_imap.
      destruct (js !! i); reflexivity.
  - rewrite seq_S, fold_left_app, IH by lia. cbn [plus fold_left].
    destruct (lookup_lt_is_Some_2 js k) as [j Hj]; [lia |].
    unfold link_job. cbn [h_jobs h_queues].
    rewrite list_lookup_imap, Hj. cbn [fmap option_fmap option_map].
    assert (Hsame : job_after qs k k j = j)
      by (unfold job_after; rewrite Nat.ltb_irrefl; reflexivity).
    rewrite !Hsame.
    destruct (Forall_lookup_1 _ _ _ _ Hfresh Hj) as [n Hn].
    rewrite Hn, find_queue_after.
    assert (Hres : resolve qs j = fst <$> find_queue qs (QueueName n))
      by (unfold resolve; rewrite Hn; reflexivity).
    destruct (find_queue qs (QueueName n)) as [[qi q]|] eqn:Hfind;
      cbn [fmap option_fmap option_map fst snd] in *.
    + f_equal.
      * apply list_eq. intros i. rewrite list_lookup_imap.
        destruct (decide (i = qi)) as [->|Hne].
        -- apply list_find_Some in Hfind as (Hq & _).
           rewrite list_lookup_insert_eq by (rewrite length_imap; eapply lookup_lt_Some, Hq).
           rewrite Hq. cbn. f_equal. unfold queue_after.
           assert (Hgo : goes_to qs js qi k = true).
           { unfold goes_to. rewrite Hj. cbn [mbind option_bind].
             rewrite Hres. apply bool_decide_eq_true_2. reflexivity. }
           rewrite linked_S, Hgo.
           rewrite mine_among_app, (mine_among_one user js k j Hj).
           cbn [Queue.jobs Queue.set_jobs Queue.set_maxusernodes Queue.maxusernodes
                Queue.name Queue.users Queue.groups Queue.mintime Queue.maxtime
                Queue.maxrunning Queue.maxqueued Queue.maxnodehours Queue.totalnodes
                Queue.state].
           rewrite <- app_assoc.
           destruct (is_mine user j);
             unfold Queue.set_maxusernodes, Queue.set_jobs; cbn; f_equal; lia.
        -- rewrite list_lookup_insert_ne by congruence.
           rewrite list_lookup_imap. destruct (qs !! i) as [qb|]; [| reflexivity].
           cbn. f_equal. unfold queue_after.
           assert (Hgo : goes_to qs js i k = false).
           { unfold goes_to. rewrite Hj. cbn [mbind option_bind].
             rewrite Hres. apply bool_decide_eq_false_2. congruence. }
           rewrite linked_S, Hgo, app_nil_r. reflexivity.
      * apply list_eq. intros i. rewrite list_lookup_imap.
        destruct (decide (i = k)) as [->|Hne].
        -- rewrite list_lookup_insert_eq by (rewrite length_imap; lia).
           rewrite Hj. cbn. unfold job_after.
           replace (k <? S k)%nat with true by (symmetry; apply Nat.ltb_lt; lia).
           rewrite Hres. reflexivity.
        -- rewrite list_lookup_insert_ne by congruence.
           rewrite list_lookup_imap. destruct (js !! i) as [jb|]; [| reflexivity].
           cbn. f_equal. unfold job_after.
           destruct (Nat.ltb_spec i k), (Nat.ltb_spec i (S k)); try reflexivity; lia.
    + f_equal.
      * apply list_eq. intros i. rewrite !list_lookup_imap.
        destruct (qs !! i) as [qb|]; [| reflexivity].
        cbn. f_equal. unfold queue_after.
        assert (Hgo : goes_to qs js i k = false).
        { unfold goes_to. rewrite Hj. cbn [mbind option_bind].
          rewrite Hres. apply bool_decide_eq_false_2. congruence. }
        rewrite linked_S, Hgo, app_nil_r. reflexivity.
      * apply list_eq. intros i. rewrite !list_lookup_imap.
        destruct (js !! i) as [jb|] eqn:Hi; [| reflexivity].
        cbn. f_equal. unfold job_after.
        destruct (Nat.ltb_spec i k), (Nat.ltb_spec i (S k)); try reflexivity; try lia.
        assert (i = k) by lia. subst i. rewrite Hj in Hi. injection Hi as <-.
        rewrite Hres. reflexivity.
Qed.

Lemma mapM_Forall {A B : Type} (g : A -> result B) (P : B -> Prop) (l : list A) :
  (forall a b, g a = Ok b -> P b) ->
  forall l', mapM g l = Ok l' -> Forall P l'.
Proof.
  intros Hg. induction l as [|a l IH]; intros l' H; cbn [mapM] in H.
  - injection H as <-. constructor.
  - apply rbind_Ok_inv in H as (b & Hb & H).
    apply rbind_Ok_inv in H as (bs & Hbs & H). injection H as <-.
    constructor; [eapply Hg, Hb | apply IH, Hbs].
Qed.

Lemma Job_from_string_fresh py_eval s j :
  Job_from_string py_eval s = Ok j -> fresh j.
Proof.
  unfold Job_from_string. intros H.
  repeat (apply rbind_Ok_inv in H as (? & _ & H)).
  injection H as <-. eexists. reflexivity.
Qed.

Lemma Queue_init_no_jobs s q : Queue_init s = Ok q -> Queue.jobs q = [].
Proof.
  unfold Queue_init. intros H.
  repeat (apply rbind_Ok_inv in H as (? & _ & H)).
  injection H as <-. reflexivity.
Qed.

Lemma find_queue_first qs n qi q :
  find_queue qs (QueueName n) = Some (qi, q) ->
  qs !! qi = Some q /\ Queue.name q = n
  /\ forall i qb, (i < qi)%nat -> qs !! i = Some qb -> Queue.name qb <> n.
Proof.
  unfold find_queue. intros H. apply list_find_Some in H as (Hq & Hn & Hfirst).
  cbn [names] in Hn, Hfirst. unfold str_eqb in Hn, Hfirst.
  apply bool_decide_eq_true in Hn.
  split; [exact Hq |]. split; [exact Hn |].
  intros i qb Hi Hqb Heq. apply (Hfirst i qb Hqb Hi).
  apply bool_decide_eq_true. exact Heq.
Qed.

Lemma find_queue_named qs n q0 :
  In q0 qs -> Queue.name q0 = n -> is_Some (find_queue qs (QueueName n)).
Proof.
  intros Hin Hn. unfold find_queue.
  apply (list_find_elem_of _ _ q0); [apply list_elem_of_In, Hin |].
  cbn [names]. apply bool_decide_eq_true. exact Hn.
Qed.

Lemma find_queue_unnamed qs n :
  (forall q0, In q0 qs -> Queue.name q0 <> n) -> find_queue qs (QueueName n) = None.
Proof.
  intros H. unfold find_queue. apply list_find_None, Forall_forall.
  intros q Hq. cbn [names]. intros Hn. apply bool_decide_eq_true in Hn.
  apply list_elem_of_In in Hq. exact (H q Hq Hn).
Qed.

Lemma in_linked qs js qi k ji :
  In ji (linked qs js qi k)
  <-> (ji < k)%nat /\ exists j, js !! ji = Some j /\ resolve qs j = Some qi.
Proof.
  unfold linked, goes_to. rewrite filter_In, in_seq, bool_decide_eq_true.
  split.
  - intros [Hlt H]. split; [lia |].
    destruct (js !! ji) as [j|]; [| discriminate H]. eauto.
  - intros [Hlt (j & Hj & Hr)]. split; [lia |]. rewrite Hj. exact Hr.
Qed.

(** The jobs that go to the first queue named [n] are those that name
    [n]. *)
Lemma linked_names qs js n qi q k :
  Forall fresh js ->
  find_queue qs (QueueName n) = Some (qi, q) ->
  linked qs js qi k
  = List.filter (fun i => match js !! i with
                          | Some jb => match Job.queue jb with
                                       | QueueName n' => bool_decide (n' = n)
                                       | QueueObj _ => false
                                       end
                          | None => false
                          end) (seq 0 k).
Proof.
  intros Hfresh Hfind. unfold linked. apply List.filter_ext_in. intros i _.
  unfold goes_to. destruct (js !! i) as [jb|] eqn:Ei; [| reflexivity].
  cbn. destruct (Forall_lookup_1 _ _ _ _ Hfresh Ei) as [n' Hn'].
  unfold resolve. rewrite Hn'.
  destruct (decide (n' = n)) as [->|Hne].
  - rewrite Hfind. cbn. rewrite !bool_decide_eq_true_2; reflexivity.
  - rewrite (bool_decide_eq_false_2 (n' = n)) by exact Hne.
    apply bool_decide_eq_false_2. intros E.
    destruct (find_queue qs (QueueName n')) as [[qi' q']|] eqn:Ef; [| discriminate E].
    cbn in E. injection E as ->.
    destruct (find_queue_first qs n' qi q' Ef) as (Hq' & Hname' & _).
    destruct (find_queue_first qs n qi q Hfind) as (Hq & Hname & _).
    rewrite Hq in Hq'. injection Hq' as <-. apply Hne. congruence.
Qed.

(** The jobs of the local user among [refs], counted on the references. *)
Lemma mine_among_count user js refs :
  mine_among user js refs
  = Z.of_nat (length (List.filter
                        (fun i => match js !! i with
                                  | Some jb => bool_decide (Job.user jb = Some user)
                                  | None => false
                                  end) refs)).
Proof.
  unfold mine_among, job_objects. f_equal.
  induction refs as [|i refs IH]; [reflexivity |].
  simpl. destruct (js !! i) as [jb|] eqn:Ei; simpl; [| exact IH].
  unfold is_mine at 1. destruct (bool_decide (Job.user jb = Some user)); simpl.
  - f_equal. exact IH.
  - exact IH.
Qed.

(** C7: when both commands answer and their output parses into the queues
    [qs] and the jobs [js], [get_queues_jobs] returns after running the two
    commands, with as many queues and jobs as parsed. Every parsed job
    still names its queue; if no parsed queue has that name the job is
    left as it is; otherwise, with [q] the first parsed queue of that name,
    the job's [queue] is now the object [q] and its other attributes are
    as parsed, the job is in [q.jobs], which lists in order the jobs whose
    queue name is the name of [q], and [q.maxusernodes] has gone down by
    one for each of those jobs whose user is the local user, and by
    nothing else; the rest of [q] is as parsed. *)
Theorem get_queues_jobs_links :
  forall (user : pystr) (py_eval : pystr -> result pyval) (sys : host)
         (tr : list event) (out1 out2 : pystr)
         (qs : list Queue.t) (js : list Job.t),
    run sys (str "qstat -Q -l") = Ok out1 ->
    parse_queues out1 = Ok qs ->
    run sys (str "qstat -f -l") = Ok out2 ->
    parse_jobs py_eval out2 = Ok js ->
    let names_queue (n : pystr) (i : nat) : bool :=
      match js !! i with
      | Some jb => match Job.queue jb with
                   | QueueName n' => bool_decide (n' = n)
                   | QueueObj _ => false
                   end
      | None => false
      end in
    let of_user (i : nat) : bool :=
      match js !! i with
      | Some jb => bool_decide (Job.user jb = Some user)
      | None => false
      end in
    exists h,
      get_queues_jobs user py_eval sys tr
      = (Ok h, tr ++ [Exec (str "qstat -Q -l"); Exec (str "qstat -f -l")])
      /\ length (h_queues h) = length qs
      /\ length (h_jobs h) = length js
      /\ forall ji j,
          js !! ji = Some j ->
          exists n,
            Job.queue j = QueueName n
            /\ ((forall q0, In q0 qs -> Queue.name q0 <> n) ->
                h_jobs h !! ji = Some j)
            /\ forall q0,
                In q0 qs -> Queue.name q0 = n ->
                exists qi q j' q',
                  qs !! qi = Some q
                  /\ Queue.name q = n
                  /\ (forall i qb, (i < qi)%nat -> qs !! i = Some qb ->
                                   Queue.name qb <> n)
                  /\ h_jobs h !! ji = Some j'
                  /\ Job.queue j' = QueueObj qi
                  /\ j' = Job.mk (Job.jobid j) (QueueObj qi) (Job.user j)
                            (Job.name j) (Job.users j) (Job.walltime j)
                            (Job.runtime j) (Job.start_time j)
                            (Job.queued_time j) (Job.remaining_time j)
                            (Job.nodecount j) (Job.proccount j) (Job.location j)
                            (Job.state j) (Job.user_hold j) (Job.envs j)
                            (Job.attrs j) (Job.kwargs j)
                  /\ h_queues h !! qi = Some q'
                  /\ Queue.jobs q'
                     = List.filter (names_queue n) (seq 0 (length js))
                  /\ In ji (Queue.jobs q')
                  /\ Queue.maxusernodes q'
                     = Queue.maxusernodes q
                       - Z.of_nat (length (List.filter of_user (Queue.jobs q')))
                  /\ q' = Queue.mk (Queue.jobs q') (Queue.name q) (Queue.users q)
                            (Queue.groups q) (Queue.mintime q) (Queue.maxtime q)
                            (Queue.maxrunning q) (Queue.maxqueued q)
                            (Queue.maxusernodes q') (Queue.maxnodehours q)
                            (Queue.totalnodes q) (Queue.state q).
Proof.
  intros user py_eval sys tr out1 out2 qs js Hrun1 Hqs Hrun2 Hjs names_queue of_user.
  assert (Hfresh : Forall fresh js).
  { eapply mapM_Forall, Hjs. intros a b. apply Job_from_string_fresh. }
  assert (Hempty : Forall (fun q => Queue.jobs q = []) qs).
  { eapply mapM_Forall, Hqs. intros a b. apply Queue_init_no_jobs. }
  eexists. split; [| split; [| split]].
  - unfold get_queues_jobs, getoutput, bind, emit, lift, ret.
    rewrite Hrun1, Hqs, Hrun2, Hjs, <- app_assoc. cbn [app].
    unfold link. cbn [h_jobs]. rewrite link_prefix by (auto; lia). reflexivity.
  - cbn [h_queues]. apply length_imap.
  - cbn [h_jobs]. apply length_imap.
  - cbn [h_queues h_jobs]. intros ji j Hj.
    destruct (Forall_lookup_1 _ _ _ _ Hfresh Hj) as [n Hn].
    assert (Hlt : (ji < length js)%nat) by (eapply lookup_lt_Some, Hj).
    assert (Hafter : imap (job_after qs (length js)) js !! ji
                     = Some match resolve qs j with
                            | Some qi => Job.set_queue j (QueueObj qi)
                            | None => j
                            end).
    { rewrite list_lookup_imap, Hj. cbn. unfold job_after.
      replace (ji <? length js)%nat with true
        by (symmetry; apply Nat.ltb_lt; exact Hlt).
      reflexivity. }
    exists n. split; [exact Hn |]. split.
    + intros Hnone. rewrite Hafter. unfold resolve.
      rewrite Hn, (find_queue_unnamed qs n Hnone). reflexivity.
    + intros q0 Hin Hname.
      destruct (find_queue_named qs n q0 Hin Hname) as [[qi q] Hfind].
      assert (Hres : resolve qs j = Some qi)
        by (unfold resolve; rewrite Hn, Hfind; reflexivity).
      destruct (find_queue_first qs n qi q Hfind) as (Hq & Hqn & Hfirst).
      pose proof (Forall_lookup_1 _ _ _ _ Hempty Hq) as Hnil.
      assert (Hlinked : In ji (linked qs js qi (length js)))
        by (apply in_linked; split; [exact Hlt | eauto]).
      eexists qi, q, _, _.
      split; [exact Hq |]. split; [exact Hqn |]. split; [exact Hfirst |].
      split; [rewrite Hafter, Hres; reflexivity |].
      split; [reflexivity |]. split; [reflexivity |].
      split; [rewrite list_lookup_imap, Hq; reflexivity |].
      unfold queue_after. cbn [Queue.jobs Queue.set_maxusernodes Queue.set_jobs
                                 Queue.maxusernodes].
      rewrite Hnil. cbn [app].
      rewrite (mine_among_count user js).
      rewrite (linked_names qs js n qi q (length js) Hfresh Hfind) in Hlinked |- *.
      split; [reflexivity |].
      split; [exact Hlinked |].
      split; reflexivity.
Qed.

(** ** The theorems at the sample inputs *)

(** Noon is between the office bounds of the policy of [__main__.py]: on
    a Saturday [get_queues] goes on with [max_occupancy] and [maxtime], on
    a Monday with the office figures; the clock is a valid one and the two
    commands answer. *)
Lemma get_queues_figures_saturday_noon :
  valid_clock (clock (sample_host saturday_noon))
  /\ (exists h tr',
         get_queues_jobs me no_eval (sample_host saturday_noon) [] = (Ok h, tr')
         /\ UserPolicy_get_queues me no_eval nice_user (sample_host saturday_noon) []
            = (apply_policy me half (hours 2) h, tr'))
  /\ (exists h tr',
         get_queues_jobs me no_eval (sample_host monday_noon) [] = (Ok h, tr')
         /\ UserPolicy_get_queues me no_eval nice_user (sample_host monday_noon) []
            = (apply_policy me quarter (minutes 30) h, tr')).
Proof.
  assert (Hv : valid_clock (clock (sample_host saturday_noon)))
    by (unfold valid_clock; cbn; lia).
  assert (Hv' : valid_clock (clock (sample_host monday_noon)))
    by (unfold valid_clock; cbn; lia).
  eassert (Hq : get_queues_jobs me no_eval (sample_host saturday_noon) []
                = (Ok _, _)) by (vm_compute; reflexivity).
  eassert (Hq' : get_queues_jobs me no_eval (sample_host monday_noon) []
                 = (Ok _, _)) by (vm_compute; reflexivity).
  split; [exact Hv |]. split.
  - eexists _, _. split; [exact Hq |].
    apply (proj2 (get_queues_figures me no_eval nice_user
                    (sample_host saturday_noon) [] _ _ Hv Hq
                    ltac:(vm_compute; discriminate) ltac:(vm_compute; discriminate))).
    vm_compute. discriminate.
  - eexists _, _. split; [exact Hq' |].
    apply (proj1 (get_queues_figures me no_eval nice_user
                    (sample_host monday_noon) [] _ _ Hv' Hq'
                    ltac:(vm_compute; discriminate) ltac:(vm_compute; discriminate))).
    reflexivity.
Defined.

(** The loop on the sample heap: both ceilings exist, and the loop returns. *)
Lemma apply_policy_sample_heap :
  (forall q, In q (h_queues sample_heap) -> exists n, allowed_nodes q half = Ok n)
  /\ exists h' kept,
      apply_policy me half (hours 2) sample_heap = Ok (h', kept)
      /\ h_jobs h' = h_jobs sample_heap
      /\ length (h_queues h') = length (h_queues sample_heap).
Proof.
  assert (H : forall q, In q (h_queues sample_heap) ->
                        exists n, allowed_nodes q half = Ok n).
  { intros q [<-|[<-|[]]]; eexists; vm_compute; reflexivity. }
  split; [exact H |].
  destruct (proj1 apply_policy_spec me half (hours 2) sample_heap H)
    as (h' & kept & E & Hj & Hl & _).
  exists h', kept. split; [exact E |]. split; [exact Hj | exact Hl].
Defined.

(** A queue that allows the user two nodes and holds two jobs of the user
    refuses a request for one more node. *)
Lemma submit_refused_sample :
  let st := {| self_queue := plain_queue "busy" [0; 1]%nat 2 10; trace := [] |} in
  let a := submit_defaults me (str "hostname") in
  Queue.maxusernodes (self_queue st)
  < num_used me (h_jobs sample_heap) (self_queue st) + Submit.nodecount a
  /\ exists reason,
      Queue_submit me (sample_host monday_noon) (h_jobs sample_heap) a st
      = (Raise (StopIteration reason), st)
      /\ reason = policy_reason (self_queue st).
Proof.
  intros st a.
  assert (H : Queue.maxusernodes (self_queue st)
              < num_used me (h_jobs sample_heap) (self_queue st)
                + Submit.nodecount a) by (vm_compute; reflexivity).
  split; [exact H |].
  destruct (submit_refused_before_effects me (sample_host monday_noon)
              (h_jobs sample_heap) a st (or_introl H))
    as (reason & E & Hr & _).
  exists reason. split; [exact E | exact (Hr H)].
Defined.

(** A queue with room accepts the request; [maxusernodes] goes from 4 to 3. *)
Lemma submit_accepted_sample :
  let st := {| self_queue := plain_queue "free" [] 4 10; trace := [] |} in
  let out := Queue_submit me (sample_host monday_noon) []
               (submit_defaults me (str "hostname")) st in
  exists job,
    fst out = Ok job
    /\ Job.jobid job = 3
    /\ Queue.maxusernodes (self_queue (snd out)) = 3
    /\ Queue.jobs (self_queue (snd out)) = [].
Proof.
  intros st out.
  eassert (E : fst out = Ok _) by (vm_compute; reflexivity).
  destruct (submit_refusal_atomic me (sample_host monday_noon) []
              (submit_defaults me (str "hostname")) st) as (_ & _ & H).
  destruct (H _ E) as (_ & Hs & Hj & _).
  eexists. split; [exact E |]. split; [reflexivity |].
  fold out in Hs. rewrite Hs. split; reflexivity.
Defined.

(** Two queues and three jobs: the jobs of [alice] and [bob] on
    [knl_7210] get the second queue as their [queue] and are its [jobs],
    the queue loses one node for the job of [alice] and none for the one
    of [bob]; the job on a queue that is not listed keeps the name. *)
Lemma get_queues_jobs_sample :
  let queues := lines ["Name: debug"; "MaxUserNodes: 4"; "";
                       "Name: knl_7210"; "TotalNodes: 10"; "MaxUserNodes: 8"] in
  let jobs := lines ["JobID: 1"; "Queue: knl_7210"; "User: alice"; "";
                     "JobID: 2"; "Queue: knl_7210"; "User: bob"; "";
                     "JobID: 3"; "Queue: gone"; "User: alice"] in
  exists qs js h,
    parse_queues queues = Ok qs
    /\ parse_jobs no_eval jobs = Ok js
    /\ map Queue.maxusernodes qs = [4; 8]
    /\ get_queues_jobs me no_eval (listing_host queues jobs) []
       = (Ok h, [] ++ [Exec (str "qstat -Q -l"); Exec (str "qstat -f -l")])
    /\ map Job.queue (h_jobs h)
       = [QueueObj 1; QueueObj 1; QueueName (str "gone")]
    /\ map Job.user (h_jobs h) = [Some (str "alice"); Some (str "bob"); Some (str "alice")]
    /\ map Queue.jobs (h_queues h) = [[]; [0; 1]%nat]
    /\ map Queue.maxusernodes (h_queues h) = [4; 7].
Proof.
  intros queues jobs.
  eassert (Hq : parse_queues queues = Ok _) by (vm_compute; reflexivity).
  eassert (Hj : parse_jobs no_eval jobs = Ok _) by (vm_compute; reflexivity).
  destruct (get_queues_jobs_links me no_eval (listing_host queues jobs) []
              queues jobs _ _ eq_refl Hq eq_refl Hj) as (h & Hh & _).
  eexists _, _, h.
  split; [exact Hq |]. split; [exact Hj |]. split; [reflexivity |].
  split; [exact Hh |].
  vm_compute in Hh. injection Hh as <-.
  repeat split; reflexivity.
Defined.

(** ** The matcher against the words of a pattern

    Whenever the matcher succeeds on a pattern it has taken a word of the
    pattern off the front of the input; the parsers below rely on it to
    know what a captured group holds. *)

Lemma star_loop_sound (r : regex) (k : kont) :
  (forall s c k x, rmatch r s c k = Some x -> sound_at r s c k x) ->
  forall n s c x,
    star_loop (rmatch r) k n s c = Some x -> sound_at (Star r) s c k x.
Proof.
  intros IH. induction n as [|n IHn]; intros s c x H.
  - exists [], s, c. repeat split; auto. exists []. split; [reflexivity | constructor].
  - rewrite star_loop_S in H.
    destruct (rmatch r s c _) as [y|] eqn:E.
    + injection H as ->. apply IH in E as (w1 & s1 & c1 & -> & Hw1 & Hl1 & Hg1 & Hk).
      destruct (shorter s1 (w1 ++ s1)); [| discriminate Hk].
      apply IHn in Hk as (w2 & s2 & c2 & -> & (ws & -> & Hws) & Hl2 & Hg2 & Hk).
      exists (w1 ++ concat ws), s2, c2. split; [apply app_assoc |].
      split; [exists (w1 :: ws); split; [reflexivity | constructor; assumption] |].
      split; [congruence |]. split; [| exact Hk].
      intros Hg. cbn in Hg, Hg2. rewrite Hg2, Hg1 by exact Hg. reflexivity.
    + exists [], s, c. repeat split; auto.
      exists []. split; [reflexivity | constructor].
Qed.

Lemma lazy_loop_S step k n s c :
  lazy_loop step k (S n) s c
  = match k s c with
    | Some r => Some r
    | None =>
        step s c (fun s' c' =>
                    if shorter s' s then lazy_loop step k n s' c' else None)
    end.
Proof. reflexivity. Qed.

Lemma lazy_loop_sound (r : regex) (k : kont) :
  (forall s c k x, rmatch r s c k = Some x -> sound_at r s c k x) ->
  forall n s c x,
    lazy_loop (rmatch r) k n s c = Some x -> sound_at (StarLazy r) s c k x.
Proof.
  intros IH. induction n as [|n IHn]; intros s c x H.
  - exists [], s, c. repeat split; auto. exists []. split; [reflexivity | constructor].
  - rewrite lazy_loop_S in H.
    destruct (k s c) as [y|] eqn:Ek.
    + injection H as ->. exists [], s, c. repeat split; auto.
      exists []. split; [reflexivity | constructor].
    + apply IH in H as (w1 & s1 & c1 & -> & Hw1 & Hl1 & Hg1 & Hk).
      destruct (shorter s1 (w1 ++ s1)); [| discriminate Hk].
      apply IHn in Hk as (w2 & s2 & c2 & -> & (ws & -> & Hws) & Hl2 & Hg2 & Hk).
      exists (w1 ++ concat ws), s2, c2. split; [apply app_assoc |].
      split; [exists (w1 :: ws); split; [reflexivity | constructor; assumption] |].
      split; [congruence |]. split; [| exact Hk].
      intros Hg. cbn in Hg, Hg2. rewrite Hg2, Hg1 by exact Hg. reflexivity.
Qed.

Lemma rmatch_sound (r : regex) :
  forall s c k x, rmatch r s c k = Some x -> sound_at r s c k x.
Proof.
  induction r as [|p|r1 IH1 r2 IH2|r1 IH1 r2 IH2|r1 IH1|r1 IH1|n r1 IH1];
    intros s c k x H.
  - exists [], s, c. repeat split; auto.
  - destruct s as [|a s]; [discriminate H |]. rewrite rmatch_Cls_cons in H.
    destruct (p a) eqn:Hp; [| discriminate H].
    exists [a], s, c. split; [reflexivity |].
    split; [exists a; split; [reflexivity | exact Hp] |]. auto.
  - rewrite rmatch_Seq in H.
    apply IH1 in H as (w1 & s1 & c1 & -> & Hw1 & Hl1 & Hg1 & H).
    apply IH2 in H as (w2 & s2 & c2 & -> & Hw2 & Hl2 & Hg2 & H).
    exists (w1 ++ w2), s2, c2. split; [apply app_assoc |].
    split; [exists w1, w2; auto |]. split; [congruence |]. split; [| exact H].
    cbn. intros Hg. apply andb_true_iff in Hg as [Ha Hb].
    rewrite Hg2, Hg1 by assumption. reflexivity.
  - cbn [rmatch] in H. destruct (rmatch r1 s c k) as [y|] eqn:E.
    + injection H as ->. apply IH1 in E as (w & s' & c' & -> & Hw & Hl & Hg & Hk).
      exists w, s', c'. split; [reflexivity |]. split; [left; exact Hw |].
      split; [exact Hl |]. split; [| exact Hk].
      cbn. intros Hgf. apply andb_true_iff in Hgf as [Ha Hb]. auto.
    + apply IH2 in H as (w & s' & c' & -> & Hw & Hl & Hg & Hk).
      exists w, s', c'. split; [reflexivity |]. split; [right; exact Hw |].
      split; [exact Hl |]. split; [| exact Hk].
      cbn. intros Hgf. apply andb_true_iff in Hgf as [Ha Hb]. auto.
  - rewrite rmatch_Star in H. eapply star_loop_sound; eassumption.
  - cbn [rmatch] in H. eapply lazy_loop_sound; eassumption.
  - rewrite rmatch_Group in H.
    apply IH1 in H as (w & s' & c' & -> & Hw & Hl & Hg & Hk).
    rewrite consumed_app in Hk.
    exists w, s', (<[n := Some w]> c'). split; [reflexivity |].
    split; [exact Hw |]. split; [rewrite length_insert; exact Hl |].
    split; [intros Hgf; discriminate Hgf | exact Hk].
Qed.

Lemma groupfree_Lit (w : pystr) : groupfree (Lit w) = true.
Proof. induction w as [|a w IH]; [reflexivity | exact IH]. Qed.

Lemma lang_Lit (w0 w : pystr) : lang (Lit w0) w -> w = w0.
Proof.
  revert w. induction w0 as [|a w0 IH]; intros w H; cbn in H; [exact H |].
  destruct H as (w1 & w2 & -> & (b & -> & Hb) & H2).
  apply Ascii.eqb_eq in Hb. subst b. rewrite (IH w2 H2). reflexivity.
Qed.

Lemma lang_Star_Cls (p : ascii -> bool) (w : pystr) :
  lang (Star (Cls p)) w -> forallb p w = true.
Proof.
  intros (ws & -> & Hws). induction Hws as [|v ws (a & -> & Ha) _ IH];
    [reflexivity |].
  cbn. rewrite Ha. exact IH.
Qed.

Lemma lang_Plus_Cls (p : ascii -> bool) (w : pystr) :
  lang (Plus (Cls p)) w -> w <> [] /\ forallb p w = true.
Proof.
  intros (w1 & w2 & -> & (a & -> & Ha) & H2).
  split; [discriminate |]. cbn. rewrite Ha. apply lang_Star_Cls, H2.
Qed.

Lemma lang_digits (w : pystr) : lang digits w -> is_digits w = true.
Proof.
  intros H. apply lang_Plus_Cls in H as [Hne Hd]. unfold is_digits.
  rewrite Hd, andb_true_r. apply negb_true_iff, bool_decide_eq_false. exact Hne.
Qed.

(** What a match of [.*LABEL\s*:\s*(BODY).*] tells: group 1 is set, to a
    word of the body. *)
Lemma field_match_len (label : string) (body : regex) (n : nat) (s : pystr) (m : caps) :
  re_match {| pat_re := field label body; pat_groups := S n |} s = Some m ->
  exists w, group m 1 = Some w /\ lang body w /\ (length w <= length s)%nat.
Proof.
  unfold re_match, field. cbn [pat_re pat_groups Cat]. intros H.
  rewrite rmatch_Group, rmatch_Seq in H.
  apply rmatch_sound in H as (w1 & s1 & c1 & -> & _ & _ & Hg & H).
  rewrite (Hg eq_refl), rmatch_Seq in H. clear Hg c1.
  apply rmatch_sound in H as (w2 & s2 & c2 & -> & _ & _ & Hg & H).
  rewrite (Hg (groupfree_Lit _)), rmatch_Seq in H. clear Hg c2.
  apply rmatch_sound in H as (w3 & s3 & c3 & -> & _ & _ & Hg & H).
  rewrite (Hg eq_refl), rmatch_Seq in H. clear Hg c3.
  apply rmatch_sound in H as (w4 & s4 & c4 & -> & _ & _ & Hg & H).
  rewrite (Hg (groupfree_Lit _)), rmatch_Seq in H. clear Hg c4.
  apply rmatch_sound in H as (w5 & s5 & c5 & -> & _ & _ & Hg & H).
  rewrite (Hg eq_refl), rmatch_Seq, rmatch_Group in H. clear Hg c5.
  apply rmatch_sound in H as (w & s6 & c6 & -> & Hw & Hl & _ & H).
  rewrite consumed_app in H.
  apply rmatch_sound in H as (w7 & s7 & c7 & -> & _ & _ & Hg & H).
  rewrite (Hg eq_refl) in H. clear Hg c7.
  injection H as <-. exists w. split; [| split; [exact Hw |]].
  - rewrite length_replicate in Hl.
    destruct c6 as [|g0 [|g1 c6]]; [discriminate Hl ..|]. reflexivity.
  - rewrite !length_app. lia.
Qed.

Lemma field_match (label : string) (body : regex) (n : nat) (s : pystr) (m : caps) :
  re_match {| pat_re := field label body; pat_groups := S n |} s = Some m ->
  exists w, group m 1 = Some w /\ lang body w.
Proof.
  intros H. apply field_match_len in H as (w & Hg & Hw & _). eauto.
Qed.

Lemma text_field_match (label : string) (body : regex) (n : nat) (s : pystr) (m : caps) :
  re_match {| pat_re := field label body; pat_groups := S n |} s = Some m ->
  exists w, text m 1 = Ok w /\ group m 1 = Some w /\ lang body w.
Proof.
  intros H. apply field_match in H as (w & Hg & Hw). exists w.
  unfold text. rewrite Hg. auto.
Qed.

Lemma queue_name_match (s : pystr) (m : caps) :
  re_match QueueRe.name_re s = Some m ->
  exists w, text m 1 = Ok w /\ w <> [] /\ forallb host_char w = true.
Proof.
  unfold re_match, QueueRe.name_re. cbn [pat_re pat_groups Cat]. intros H.
  rewrite rmatch_Group, rmatch_Seq in H.
  apply rmatch_sound in H as (w1 & s1 & c1 & -> & _ & _ & Hg & H).
  rewrite (Hg eq_refl), rmatch_Seq in H. clear Hg c1.
  apply rmatch_sound in H as (w2 & s2 & c2 & -> & _ & _ & Hg & H).
  rewrite (Hg (groupfree_Lit _)), rmatch_Seq in H. clear Hg c2.
  apply rmatch_sound in H as (w3 & s3 & c3 & -> & _ & _ & Hg & H).
  rewrite (Hg eq_refl), rmatch_Seq, rmatch_Group in H. clear Hg c3.
  apply rmatch_sound in H as (w & s6 & c6 & -> & Hw & Hl & _ & H).
  rewrite consumed_app in H.
  apply rmatch_sound in H as (w7 & s7 & c7 & -> & _ & _ & Hg & H).
  rewrite (Hg eq_refl) in H. clear Hg c7.
  injection H as <-. exists w. apply lang_Plus_Cls in Hw as [Hne Hw].
  split; [| split; assumption].
  rewrite length_replicate in Hl.
  destruct c6 as [|g0 [|g1 c6]]; [discriminate Hl ..|]. reflexivity.
Qed.

(** ** Fields made of digits

    [int] refuses a run of more than [max_str_digits] digits; a field is no
    longer than the text it is read from, so that this happens only on a
    text longer than that. *)

Lemma short_sub (u w : pystr) :
  (length u <= length w)%nat -> short w = true -> short u = true.
Proof.
  unfold short. intros H Hw. apply Nat.leb_le in Hw. apply Nat.leb_le. lia.
Qed.

Lemma long_sub (u w : pystr) :
  (length u <= length w)%nat -> short u = false -> short w = false.
Proof.
  intros H Hu. destruct (short w) eqn:E; [| reflexivity].
  rewrite (short_sub u w H E) in Hu. discriminate Hu.
Qed.

Lemma digit_val_range (c : ascii) : is_digit c = true -> 0 <= digit_val c <= 9.
Proof.
  destruct c as [[] [] [] [] [] [] [] []]; vm_compute; intros H;
    try discriminate H; split; discriminate.
Qed.

Lemma digits_fold_nonneg (w : pystr) (acc : Z) :
  0 <= acc -> forallb is_digit w = true ->
  0 <= fold_left (fun acc c => 10 * acc + digit_val c) w acc.
Proof.
  revert acc. induction w as [|a w IH]; intros acc Hacc H; [exact Hacc |].
  cbn in H. apply andb_true_iff in H as [Ha Hw].
  cbn [fold_left]. apply IH; [| exact Hw].
  pose proof (digit_val_range a Ha). lia.
Qed.

Lemma digits_val_nonneg (w : pystr) : is_digits w = true -> 0 <= digits_val w.
Proof.
  intros H. apply andb_true_iff in H as [_ H].
  apply digits_fold_nonneg; [lia | exact H].
Qed.

Lemma split_go_run (c : ascii) (d acc rest : pystr) :
  is_digit c = false -> forallb is_digit d = true ->
  split_go [c] 0 acc (d ++ c :: rest) = (rev acc ++ d) :: split_go [c] 0 [] rest.
Proof.
  intros Hc. revert acc. induction d as [|a d IH]; intros acc H.
  - cbn [app split_go starts_with]. rewrite Ascii.eqb_refl. cbn [andb length Nat.sub].
    rewrite app_nil_r. reflexivity.
  - cbn [forallb] in H. apply andb_true_iff in H as [Ha Hd].
    cbn [app split_go starts_with].
    destruct (Ascii.eqb_spec c a) as [E|Hne];
      [subst a; rewrite Hc in Ha; discriminate Ha |].
    cbn [andb]. rewrite (IH (a :: acc) Hd). cbn [rev].
    rewrite <- app_assoc. reflexivity.
Qed.

Lemma split_go_last (c : ascii) (d acc : pystr) :
  is_digit c = false -> forallb is_digit d = true ->
  split_go [c] 0 acc d = [rev acc ++ d].
Proof.
  intros Hc. revert acc. induction d as [|a d IH]; intros acc H.
  - cbn. rewrite app_nil_r. reflexivity.
  - cbn [forallb] in H. apply andb_true_iff in H as [Ha Hd].
    cbn [split_go starts_with].
    destruct (Ascii.eqb_spec c a) as [E|Hne];
      [subst a; rewrite Hc in Ha; discriminate Ha |].
    cbn [andb]. rewrite (IH (a :: acc) Hd). cbn [rev].
    rewrite <- app_assoc. reflexivity.
Qed.

Lemma lang_hms (w : pystr) :
  lang hms w ->
  exists d1 d2 d3,
    w = d1 ++ str ":" ++ d2 ++ str ":" ++ d3
    /\ is_digits d1 = true /\ is_digits d2 = true /\ is_digits d3 = true.
Proof.
  unfold hms. cbn [Cat]. intros (d1 & r1 & -> & H1 & c1 & r2 & -> & Hc1
                                   & d2 & r3 & -> & H2 & c2 & d3 & -> & Hc2 & H3).
  apply lang_Lit in Hc1, Hc2. subst c1 c2.
  exists d1, d2, d3. split; [reflexivity |].
  split; [| split]; apply lang_digits; assumption.
Qed.

Lemma parse_hms_digits (d1 d2 d3 : pystr) :
  is_digits d1 = true -> is_digits d2 = true -> is_digits d3 = true ->
  parse_hms (d1 ++ str ":" ++ d2 ++ str ":" ++ d3)
  = if short d1 && short d2 && short d3
    then Ok (digits_val d1, digits_val d2, digits_val d3)
    else Raise ValueError.
Proof.
  intros H1 H2 H3. unfold parse_hms, split.
  change (str ":") with [":"%char]. cbn [app].
  pose proof H1 as H1'. pose proof H2 as H2'. pose proof H3 as H3'.
  apply andb_true_iff in H1' as [_ F1], H2' as [_ F2], H3' as [_ F3].
  rewrite (split_go_run ":" d1 [] _ eq_refl F1).
  rewrite (split_go_run ":" d2 [] _ eq_refl F2).
  rewrite (split_go_last ":" d3 [] eq_refl F3).
  cbn [rev app mapM].
  rewrite (py_int_digits d1 H1), (py_int_digits d2 H2), (py_int_digits d3 H3).
  destruct (short d1), (short d2), (short d3); reflexivity.
Qed.

(** A captured [H:M:S] text read from [s]: three numbers that are not
    negative, or the refusal of [int], on a text too long to be short. *)
Lemma parse_hms_cases (w s : pystr) :
  lang hms w -> (length w <= length s)%nat ->
  (exists h m se, parse_hms w = Ok (h, m, se) /\ 0 <= h /\ 0 <= m /\ 0 <= se)
  \/ (parse_hms w = Raise ValueError /\ short s = false).
Proof.
  intros Hw Hlen. apply lang_hms in Hw as (d1 & d2 & d3 & -> & Hd1 & Hd2 & Hd3).
  rewrite (parse_hms_digits d1 d2 d3 Hd1 Hd2 Hd3).
  rewrite !length_app in Hlen.
  destruct (short d1) eqn:E1; [| right; split; [reflexivity |];
                                 apply (long_sub d1); [lia | exact E1]].
  destruct (short d2) eqn:E2; [| right; split; [reflexivity |];
                                 apply (long_sub d2); [lia | exact E2]].
  destruct (short d3) eqn:E3; [| right; split; [reflexivity |];
                                 apply (long_sub d3); [lia | exact E3]].
  left. exists (digits_val d1), (digits_val d2), (digits_val d3).
  split; [reflexivity |]. auto using digits_val_nonneg.
Qed.

(** [int] on a captured run of digits read from [s]. *)
Lemma py_int_field_cases (w s : pystr) :
  lang digits w -> (length w <= length s)%nat ->
  (py_int w = Ok (digits_val w) /\ 0 <= digits_val w)
  \/ (py_int w = Raise ValueError /\ short s = false).
Proof.
  intros Hw Hlen. apply lang_digits in Hw. rewrite (py_int_digits w Hw).
  destruct (short w) eqn:E.
  - left. split; [reflexivity | apply digits_val_nonneg, Hw].
  - right. split; [reflexivity | exact (long_sub w s Hlen E)].
Qed.

(** ** The outcomes of [Queue.__init__] *)

Lemma list_field_ok (label : string) (body : regex) (n : nat) (s : pystr) :
  exists l, list_field {| pat_re := field label body; pat_groups := S n |} s = Ok l.
Proof.
  unfold list_field.
  destruct (re_match _ s) as [m|] eqn:E; [| eauto].
  apply text_field_match in E as (w & -> & _). cbn. eauto.
Qed.

Lemma int_field_or_cases (label : string) (n : nat) (s : pystr) (fallback : Z) :
  (exists v,
      int_field_or {| pat_re := field label digits; pat_groups := S n |} s fallback
      = Ok v
      /\ (0 <= fallback -> 0 <= v))
  \/ (int_field_or {| pat_re := field label digits; pat_groups := S n |} s fallback
      = Raise ValueError
      /\ short s = false).
Proof.
  unfold int_field_or.
  destruct (re_match _ s) as [m|] eqn:E; [| eauto].
  apply field_match_len in E as (w & Hg & Hw & Hlen).
  unfold text. rewrite Hg. cbn [rbind].
  destruct (py_int_field_cases w s Hw Hlen) as [[-> Hv]|[-> Hl]]; eauto.
Qed.

Lemma int_field_or_nonneg (label : string) (n : nat) (s : pystr) (fallback v : Z) :
  int_field_or {| pat_re := field label digits; pat_groups := S n |} s fallback
  = Ok v ->
  0 <= fallback -> 0 <= v.
Proof.
  intros H Hf.
  destruct (int_field_or_cases label n s fallback) as [(v' & E & Hv)|[E _]];
    rewrite E in H; [| discriminate H].
  injection H as <-. exact (Hv Hf).
Qed.

Lemma queue_defaults_values (a b : Z) (key : string) (v : Z) :
  queue_defaults a b !! key = Some v -> v = a \/ v = b.
Proof.
  unfold queue_defaults. intros H. apply elem_of_list_to_map_2 in H.
  apply list_elem_of_In in H. destruct H as [H|[H|[]]]; injection H; auto.
Qed.

Lemma default_of_nonneg (name : pystr) (key : string) : 0 <= default_of name key.
Proof.
  unfold default_of.
  destruct (defaults !! string_of_list_ascii name) as [d|] eqn:E; cbn; [| lia].
  destruct (d !! key) as [v|] eqn:Ev; [| lia].
  unfold defaults in E. apply elem_of_list_to_map_2, list_elem_of_In in E.
  cbn [In] in E.
  repeat (destruct E as [E|E];
          [injection E as _ <-; apply queue_defaults_values in Ev; lia |]).
  destruct E.
Qed.

(** One more integer field of [Queue.__init__]: go on with its value, or
    stop on the refusal of [int]. *)
Ltac int_field_step label s fallback :=
  let v := fresh "v" in
  let Hl := fresh "Hlong" in
  destruct (int_field_or_cases label 0 s fallback) as [(v & -> & _)|[-> Hl]];
  cbn [rbind]; [| solve [auto 8]].

Lemma Queue_init_cases :
  forall s : pystr,
    (re_match QueueRe.name_re s = None -> Queue_init s = Raise ValueError)
    /\ (is_Some (re_match QueueRe.name_re s) ->
        is_Some (re_match QueueRe.mintime_re s) ->
        Queue_init s = Raise (NameError (str "sedonds"))
        \/ (Queue_init s = Raise ValueError /\ short s = false))
    /\ (is_Some (re_match QueueRe.name_re s) ->
        re_match QueueRe.mintime_re s = None ->
        re_match QueueRe.maxtime_re s = None ->
        (exists q, Queue_init s = Ok q)
        \/ (Queue_init s = Raise ValueError /\ short s = false))
    /\ (is_Some (re_match QueueRe.name_re s) ->
        re_match QueueRe.mintime_re s = None ->
        (exists q, Queue_init s = Ok q)
        \/ Queue_init s = Raise OverflowError
        \/ (Queue_init s = Raise ValueError /\ short s = false)).
Proof.
  intros s. unfold Queue_init.
  destruct (re_match QueueRe.name_re s) as [m|] eqn:En.
  2:{ split; [reflexivity |]. repeat split; intros [? H]; discriminate H. }
  split; [intros H; discriminate H |].
  apply queue_name_match in En as (name & -> & _ & _). cbn [rbind].
  destruct (list_field_ok "Users" (Plus (Cls QueueRe.users_char)) 0 s) as (us & Hus).
  destruct (list_field_ok "Groups" (Plus (Cls QueueRe.users_char)) 0 s) as (gs & Hgs).
  fold QueueRe.users_re in Hus. fold QueueRe.groups_re in Hgs.
  rewrite Hus, Hgs. cbn [rbind].
  unfold QueueRe.maxrunning_re, QueueRe.maxqueued_re, QueueRe.maxusernodes_re,
    QueueRe.maxnodehours_re, QueueRe.totalnodes_re.
  destruct (re_match QueueRe.mintime_re s) as [mm|] eqn:Em.
  - split.
    + intros _ _. apply field_match_len in Em as (w & Hg & Hw & Hlen).
      unfold text. rewrite Hg. cbn [rbind].
      destruct (parse_hms_cases w s Hw Hlen)
        as [(h & mi & se & -> & _)|[-> Hl]]; cbn [rbind]; auto.
    + split; intros _ H; discriminate H.
  - split; [intros _ [? H]; discriminate H |].
    change (mk_timedelta 0 10 0) with (Ok (minutes 10)). cbn [rbind].
    destruct (re_match QueueRe.maxtime_re s) as [mx|] eqn:Ex.
    + split; [intros _ _ H; discriminate H |]. intros _ _.
      apply field_match_len in Ex as (w & Hg & Hw & Hlen).
      unfold text. rewrite Hg. cbn [rbind].
      destruct (parse_hms_cases w s Hw Hlen)
        as [(h & mi & se & -> & _)|[-> Hl]]; cbn [rbind]; [| auto].
      unfold mk_timedelta.
      destruct (_ && _); cbn [rbind]; [| right; left; reflexivity].
      int_field_step "MaxRunning" s 0.
      int_field_step "MaxQueued" s 0.
      int_field_step "MaxUserNodes" s (default_of name "maxusernodes").
      int_field_step "MaxNodeHours" s 0.
      int_field_step "TotalNodes" s (default_of name "totalnodes").
      left. eauto.
    + change (mk_timedelta 1 0 0) with (Ok (hours 1)). cbn [rbind].
      split; intros _ _.
      * int_field_step "MaxRunning" s 0.
        int_field_step "MaxQueued" s 0.
        int_field_step "MaxUserNodes" s (default_of name "maxusernodes").
        int_field_step "MaxNodeHours" s 0.
        int_field_step "TotalNodes" s (default_of name "totalnodes").
        left. eauto.
      * int_field_step "MaxRunning" s 0.
        int_field_step "MaxQueued" s 0.
        int_field_step "MaxUserNodes" s (default_of name "maxusernodes").
        int_field_step "MaxNodeHours" s 0.
        int_field_step "TotalNodes" s (default_of name "totalnodes").
        left. eauto.
Qed.

(** X1: the outcomes of [Queue.__init__] on any text. Without a [Name]
    field it raises [ValueError]. With a [Name] and a [MinTime] field it
    raises [NameError] on [sedonds], whatever else the record holds, unless
    [int] has refused the field before. With a [Name], no [MinTime] and no
    [MaxTime] it returns a queue, unless [int] refuses a field. With a
    [Name] and no [MinTime] the only failures are the [OverflowError] of
    [timedelta] on the [MaxTime] field and the refusal of [int]. [int]
    refuses a field ([ValueError]) only on a text of more than
    [max_str_digits] characters. *)
Theorem Queue_init_outcomes :
  forall s : pystr,
    (re_match QueueRe.name_re s = None -> Queue_init s = Raise ValueError)
    /\ (is_Some (re_match QueueRe.name_re s) ->
        is_Some (re_match QueueRe.mintime_re s) ->
        Queue_init s = Raise (NameError (str "sedonds"))
        \/ (Queue_init s = Raise ValueError /\ short s = false))
    /\ (is_Some (re_match QueueRe.name_re s) ->
        re_match QueueRe.mintime_re s = None ->
        re_match QueueRe.maxtime_re s = None ->
        (exists q, Queue_init s = Ok q)
        \/ (Queue_init s = Raise ValueError /\ short s = false))
    /\ (is_Some (re_match QueueRe.name_re s) ->
        re_match QueueRe.mintime_re s = None ->
        (exists q, Queue_init s = Ok q)
        \/ Queue_init s = Raise OverflowError
        \/ (Queue_init s = Raise ValueError /\ short s = false)).
Proof. exact Queue_init_cases. Qed.

(** A record with a far too long [MaxTime] and no [MinTime]: the
    constructor raises [OverflowError]. *)
Lemma Queue_init_outcomes_long_MaxTime :
  let s := lines ["Name: q"; "MaxTime: 99999999999:00:00"] in
  is_Some (re_match QueueRe.name_re s)
  /\ re_match QueueRe.mintime_re s = None
  /\ Queue_init s = Raise OverflowError.
Proof.
  intros s.
  assert (Hn : is_Some (re_match QueueRe.name_re s))
    by (eexists; vm_compute; reflexivity).
  assert (Hm : re_match QueueRe.mintime_re s = None) by (vm_compute; reflexivity).
  split; [exact Hn |]. split; [exact Hm |].
  destruct (Queue_init_outcomes s) as (_ & _ & _ & H).
  destruct (H Hn Hm) as [[q Hq]|[Hq|[_ Hq]]]; [| exact Hq |];
    vm_compute in Hq; discriminate Hq.
Defined.

(** X2: what every queue built by [Queue.__init__] satisfies. It holds no
    job; its name is a non-empty run of host-name characters; its [mintime]
    is the default of ten minutes and the record had no [MinTime] field
    (one with that field is never built); its [maxtime] and its five
    counters are not negative; its state is not the empty string. *)
Theorem Queue_init_invariants :
  forall (s : pystr) (q : Queue.t),
    Queue_init s = Ok q ->
    Queue.jobs q = []
    /\ Queue.name q <> [] /\ forallb host_char (Queue.name q) = true
    /\ Queue.mintime q = minutes 10
    /\ re_match QueueRe.mintime_re s = None
    /\ 0 <= total_us (Queue.maxtime q)
    /\ 0 <= Queue.maxrunning q /\ 0 <= Queue.maxqueued q
    /\ 0 <= Queue.maxusernodes q /\ 0 <= Queue.maxnodehours q
    /\ 0 <= Queue.totalnodes q
    /\ Queue.state q <> [].
Proof.
  intros s q H. unfold Queue_init in H.
  destruct (re_match QueueRe.name_re s) as [m|] eqn:En; [| discriminate H].
  apply queue_name_match in En as (name & Hn & Hne & Hhost).
  rewrite Hn in H. cbn [rbind] in H.
  apply rbind_Ok_inv in H as (us & _ & H).
  apply rbind_Ok_inv in H as (gs & _ & H).
  apply rbind_Ok_inv in H as (mintime & Hmin & H).
  apply rbind_Ok_inv in H as (maxtime & Hmax & H).
  apply rbind_Ok_inv in H as (v1 & H1 & H).
  apply rbind_Ok_inv in H as (v2 & H2 & H).
  apply rbind_Ok_inv in H as (v3 & H3 & H).
  apply rbind_Ok_inv in H as (v4 & H4 & H).
  apply rbind_Ok_inv in H as (v5 & H5 & H).
  apply (int_field_or_nonneg "MaxRunning" 0) in H1; [| lia].
  apply (int_field_or_nonneg "MaxQueued" 0) in H2; [| lia].
  apply (int_field_or_nonneg "MaxUserNodes" 0) in H3;
    [| apply default_of_nonneg].
  apply (int_field_or_nonneg "MaxNodeHours" 0) in H4; [| lia].
  apply (int_field_or_nonneg "TotalNodes" 0) in H5;
    [| apply default_of_nonneg].
  injection H as <-.
  cbn [Queue.jobs Queue.name Queue.mintime Queue.maxtime Queue.maxrunning
       Queue.maxqueued Queue.maxusernodes Queue.maxnodehours Queue.totalnodes
       Queue.state].
  assert (Hm : re_match QueueRe.mintime_re s = None /\ mintime = minutes 10).
  { destruct (re_match QueueRe.mintime_re s) as [mm|] eqn:Em.
    - exfalso. apply rbind_Ok_inv in Hmin as (g & _ & Hmin).
      apply rbind_Ok_inv in Hmin as ([[h mi] se] & _ & Hmin).
      apply rbind_Ok_inv in Hmin as (x & Hx & _). discriminate Hx.
    - injection Hmin as <-. auto. }
  destruct Hm as [Hm ->].
  assert (Hx : 0 <= total_us maxtime).
  { destruct (re_match QueueRe.maxtime_re s) as [mx|] eqn:Ex.
    - apply field_match_len in Ex as (w & Hg & Hl & Hlen).
      unfold text in Hmax. rewrite Hg in Hmax. cbn [rbind] in Hmax.
      destruct (parse_hms_cases w s Hl Hlen)
        as [(h & mi & se & E & Hh & Hmi & Hse)|[E _]];
        rewrite E in Hmax; [| discriminate Hmax].
      cbn [rbind] in Hmax. unfold mk_timedelta in Hmax.
      destruct (_ && _); [| discriminate Hmax]. injection Hmax as <-.
      cbn [total_us]. lia.
    - injection Hmax as <-. cbn. lia. }
  assert (Hs : match re_match QueueRe.state_re s ≫= (fun m => group m 1) with
               | Some g => g
               | None => str "unknown"
               end <> []).
  { destruct (re_match QueueRe.state_re s) as [ms|] eqn:Es; [| discriminate].
    apply field_match in Es as (w & Hg & Hw). cbn [mbind option_bind].
    rewrite Hg. apply lang_Plus_Cls in Hw as [Hw _]. exact Hw. }
  repeat split; auto.
Qed.

Lemma Queue_init_invariants_sample :
  let s := lines ["Name: knl_7210"; "MaxTime: 02:30:00"; "TotalNodes: 10"] in
  exists q,
    Queue_init s = Ok q
    /\ Queue.jobs q = []
    /\ Queue.mintime q = minutes 10
    /\ 0 <= total_us (Queue.maxtime q).
Proof.
  intros s.
  eassert (H : Queue_init s = Ok _) by (vm_compute; reflexivity).
  eexists. split; [exact H |].
  destruct (Queue_init_invariants s _ H) as (Hj & _ & _ & Hm & _ & Hx & _).
  split; [exact Hj |]. split; [exact Hm | exact Hx].
Defined.


(** ** The outcomes of [Job.from_string] *)

(** A duration field read from [s]: absent, a duration that is not
    negative, the [OverflowError] of [timedelta], or the refusal of [int]. *)
Lemma duration_field_cases (label : string) (n : nat) (s : pystr) :
  (exists d,
      duration_field {| pat_re := field label hms; pat_groups := S n |} s = Ok d
      /\ forall t, d = Some t -> 0 <= total_us t)
  \/ duration_field {| pat_re := field label hms; pat_groups := S n |} s
     = Raise OverflowError
  \/ (duration_field {| pat_re := field label hms; pat_groups := S n |} s
      = Raise ValueError
      /\ short s = false).
Proof.
  unfold duration_field.
  destruct (re_match _ s) as [m|] eqn:E.
  2:{ left. exists None. split; [reflexivity |]. intros t Ht. discriminate Ht. }
  apply field_match_len in E as (w & Hg & Hl & Hlen).
  unfold text. rewrite Hg. cbn [rbind].
  destruct (parse_hms_cases w s Hl Hlen)
    as [(h & mi & se & -> & Hh & Hmi & Hse)|[-> Hlong]]; cbn [rbind]; [| auto].
  unfold mk_timedelta. destruct (_ && _); cbn [rbind]; [| auto].
  left. eexists. split; [reflexivity |].
  intros t Ht. injection Ht as <-. cbn [total_us]. lia.
Qed.

Lemma duration_field_nonneg (label : string) (n : nat) (s : pystr) (d : timedelta) :
  duration_field {| pat_re := field label hms; pat_groups := S n |} s = Ok (Some d) ->
  0 <= total_us d.
Proof.
  intros H.
  destruct (duration_field_cases label n s) as [(d' & E & Hd)|[E|[E _]]];
    rewrite E in H; try discriminate H.
  injection H as ->. apply Hd. reflexivity.
Qed.

(** An integer field read from [s]. *)
Lemma int_field_cases (label : string) (n : nat) (s : pystr) :
  (exists v,
      int_field {| pat_re := field label digits; pat_groups := S n |} s = Ok v
      /\ forall x, v = Some x -> 0 <= x)
  \/ (int_field {| pat_re := field label digits; pat_groups := S n |} s
      = Raise ValueError
      /\ short s = false).
Proof.
  unfold int_field.
  destruct (re_match _ s) as [m|] eqn:E.
  2:{ left. exists None. split; [reflexivity |]. intros t Ht. discriminate Ht. }
  apply field_match_len in E as (w & Hg & Hw & Hlen).
  unfold text. rewrite Hg. cbn [rbind].
  destruct (py_int_field_cases w s Hw Hlen) as [[-> Hv]|[-> Hl]]; cbn [rbind];
    [| auto].
  left. eexists. split; [reflexivity |]. intros x Hx. injection Hx as <-. exact Hv.
Qed.

Lemma int_field_nonneg (label : string) (n : nat) (s : pystr) (v : Z) :
  int_field {| pat_re := field label digits; pat_groups := S n |} s = Ok (Some v) ->
  0 <= v.
Proof.
  intros H.
  destruct (int_field_cases label n s) as [(v' & E & Hv)|[E _]];
    rewrite E in H; [| discriminate H].
  injection H as ->. apply Hv. reflexivity.
Qed.

(** The first two lines of [from_string]: the identifier and the queue. *)
Lemma jobid_cases (s : pystr) :
  let read := match re_match JobRe.jobid_re s with
              | None => Raise AttributeError
              | Some m => do g <- text m 1; py_int g
              end in
  (exists v, read = Ok v /\ 0 <= v /\ is_Some (re_match JobRe.jobid_re s))
  \/ (read = Raise AttributeError /\ re_match JobRe.jobid_re s = None)
  \/ (read = Raise ValueError /\ short s = false).
Proof.
  cbv zeta. destruct (re_match JobRe.jobid_re s) as [m|] eqn:E; [| auto].
  apply field_match_len in E as (w & Hg & Hw & Hlen).
  unfold text. rewrite Hg. cbn [rbind].
  destruct (py_int_field_cases w s Hw Hlen) as [[-> Hv]|[-> Hl]]; eauto 6.
Qed.

Lemma queue_name_cases (s : pystr) :
  let read := match re_match JobRe.queue_re s with
              | None => Raise AttributeError
              | Some m => text m 1
              end in
  (exists n, read = Ok n /\ n <> [] /\ forallb host_char n = true
             /\ is_Some (re_match JobRe.queue_re s))
  \/ (read = Raise AttributeError /\ re_match JobRe.queue_re s = None).
Proof.
  cbv zeta. destruct (re_match JobRe.queue_re s) as [m|] eqn:E; [| auto].
  apply text_field_match in E as (w & -> & _ & Hw).
  apply lang_Plus_Cls in Hw as [Hne Hh]. left. eauto 6.
Qed.

Lemma Job_from_string_required_cases :
  forall (py_eval : pystr -> result pyval) (s : pystr),
    (re_match JobRe.jobid_re s = None ->
     Job_from_string py_eval s = Raise AttributeError)
    /\ (re_match JobRe.queue_re s = None ->
        Job_from_string py_eval s = Raise AttributeError
        \/ (Job_from_string py_eval s = Raise ValueError /\ short s = false)).
Proof.
  intros py_eval s. unfold Job_from_string. split; intros H.
  - rewrite H. reflexivity.
  - pose proof (jobid_cases s) as Hid. cbv zeta in Hid.
    destruct Hid as [(v & -> & _)|[[-> _]|[-> Hl]]]; cbn [rbind]; auto.
    rewrite H. auto.
Qed.

(** X3: [Job.from_string] needs both a [JobID] and a [Queue] field. On a
    text without a [JobID] field it raises [AttributeError] (the method
    [group] is called on the [None] that [match] returned). On a text
    without a [Queue] field it raises [AttributeError] too, unless [int]
    has refused the identifier before ([ValueError], only on a text of
    more than [max_str_digits] characters). Whatever the other fields
    are, no job is built. *)
Theorem Job_from_string_required :
  forall (py_eval : pystr -> result pyval) (s : pystr),
    (re_match JobRe.jobid_re s = None ->
     Job_from_string py_eval s = Raise AttributeError)
    /\ (re_match JobRe.queue_re s = None ->
        Job_from_string py_eval s = Raise AttributeError
        \/ (Job_from_string py_eval s = Raise ValueError /\ short s = false)).
Proof. exact Job_from_string_required_cases. Qed.

(** A record with an identifier and no queue. *)
Lemma Job_from_string_required_no_queue :
  let s := lines ["JobID: 7"; "User: alice"] in
  re_match JobRe.queue_re s = None
  /\ Job_from_string no_eval s = Raise AttributeError.
Proof.
  intros s.
  assert (H : re_match JobRe.queue_re s = None) by (vm_compute; reflexivity).
  split; [exact H |].
  destruct (proj2 (Job_from_string_required no_eval s) H) as [E|[_ E]];
    [exact E | vm_compute in E; discriminate E].
Defined.

(** X4: what every job built by [Job.from_string] satisfies, whatever
    [eval] does on the [attrs] field. Its identifier is not negative; its
    queue is still a name, a non-empty run of host-name characters; its
    node and process counts, where present, are not negative; none of its
    five durations is negative; its user, where present, is a non-empty
    word; and it carries no extra attribute: [dependencies] is read from
    the record and then dropped by [__init__]. *)
Theorem Job_from_string_invariants :
  forall (py_eval : pystr -> result pyval) (s : pystr) (j : Job.t),
    Job_from_string py_eval s = Ok j ->
    0 <= Job.jobid j
    /\ (exists n, Job.queue j = QueueName n /\ n <> []
                  /\ forallb host_char n = true)
    /\ (forall v, Job.nodecount j = Some v -> 0 <= v)
    /\ (forall v, Job.proccount j = Some v -> 0 <= v)
    /\ (forall d, In (Some d) [Job.walltime j; Job.runtime j; Job.start_time j;
                               Job.queued_time j; Job.remaining_time j] ->
                  0 <= total_us d)
    /\ (forall u, Job.user j = Some u -> u <> [] /\ forallb is_word u = true)
    /\ Job.kwargs j = [].
Proof.
  intros py_eval s j H. unfold Job_from_string in H.
  apply rbind_Ok_inv in H as (jobid & Hid & H).
  apply rbind_Ok_inv in H as (queue & Hq & H).
  apply rbind_Ok_inv in H as (users & _ & H).
  apply rbind_Ok_inv in H as (walltime & Hw & H).
  apply rbind_Ok_inv in H as (runtime & Hr & H).
  apply rbind_Ok_inv in H as (start_time & Hs & H).
  apply rbind_Ok_inv in H as (queued_time & Hqt & H).
  apply rbind_Ok_inv in H as (remaining_time & Hrt & H).
  apply rbind_Ok_inv in H as (nodecount & Hn & H).
  apply rbind_Ok_inv in H as (proccount & Hp & H).
  do 4 (apply rbind_Ok_inv in H as (? & _ & H)).
  injection H as <-.
  cbn [Job.jobid Job.queue Job.nodecount Job.proccount Job.walltime Job.runtime
       Job.start_time Job.queued_time Job.remaining_time Job.user Job.kwargs].
  split.
  { pose proof (jobid_cases s) as Hc. cbv zeta in Hc.
    destruct Hc as [(v & E & Hv & _)|[[E _]|[E _]]]; rewrite E in Hid;
      try discriminate Hid.
    injection Hid as <-. exact Hv. }
  split.
  { pose proof (queue_name_cases s) as Hc. cbv zeta in Hc.
    destruct Hc as [(n & E & Hne & Hh & _)|[E _]]; rewrite E in Hq;
      [| discriminate Hq].
    injection Hq as <-. eauto. }
  split; [intros v ->; eapply (int_field_nonneg "Nodes" 0 s), Hn |].
  split; [intros v ->; eapply (int_field_nonneg "Procs" 0 s), Hp |].
  split.
  { intros d [E|[E|[E|[E|[E|[]]]]]]; subst.
    - eapply (duration_field_nonneg "WallTime" 0 s), Hw.
    - eapply (duration_field_nonneg "RunTime" 0 s), Hr.
    - eapply (duration_field_nonneg "StartTime" 0 s), Hs.
    - eapply (duration_field_nonneg "QueuedTime" 0 s), Hqt.
    - eapply (duration_field_nonneg "TimeRemaining" 0 s), Hrt. }
  split; [| reflexivity].
  intros u Hu.
  destruct (re_match JobRe.user_re s) as [m|] eqn:E; [| discriminate Hu].
  apply field_match in E as (w & Hg & Hl). cbn [mbind option_bind] in Hu.
  rewrite Hg in Hu. injection Hu as <-. apply lang_Plus_Cls, Hl.
Qed.

Lemma Job_from_string_invariants_sample :
  let s := lines ["JobID: 12"; "Queue: knl_7210"; "User: alice";
                  "WallTime: 01:30:00"; "Nodes: 4"; "Dependencies: 3:4"] in
  exists j,
    Job_from_string no_eval s = Ok j
    /\ 0 <= Job.jobid j
    /\ Job.kwargs j = [].
Proof.
  intros s.
  eassert (H : Job_from_string no_eval s = Ok _) by (vm_compute; reflexivity).
  eexists. split; [exact H |].
  destruct (Job_from_string_invariants no_eval s _ H) as (Hi & _ & _ & _ & _ & _ & Hk).
  split; [exact Hi | exact Hk].
Defined.

(** ** The [Location] field

    The pattern of the field is followed along the path the matcher takes on
    a list of items, which gives the word it captures; the loop over the
    fragments is then read case by case. *)

Lemma rmatch_Opt r s c k :
  rmatch (Opt r) s c k
  = match rmatch r s c k with
    | Some x => Some x
    | None => k s c
    end.
Proof. reflexivity. Qed.

Lemma greedy_Lit (w t : pystr) : greedy (Lit w) (w ++ t) t.
Proof. intros c k _. exists c. split; [reflexivity | apply rmatch_Lit]. Qed.

Lemma greedy_plus_cls (p : ascii -> bool) (w t : pystr) :
  w <> [] -> forallb p w = true -> stops p t -> greedy (Plus (Cls p)) (w ++ t) t.
Proof.
  intros Hne Hw Hst c k Hk. destruct (Hk c eq_refl) as [x Hx].
  exists c. split; [reflexivity |]. rewrite Hx.
  apply plus_cls_greedy; assumption.
Qed.

Lemma greedy_Seq (r1 r2 : regex) (s m t : pystr) :
  greedy r1 s m -> greedy r2 m t -> greedy (Seq r1 r2) s t.
Proof.
  intros H1 H2 c k Hk. rewrite rmatch_Seq.
  destruct (H1 c (fun s' c' => rmatch r2 s' c' k)) as (c1 & L1 & E1).
  { intros c' Hc'. destruct (H2 c' k) as (c2 & L2 & E2).
    - intros c'' Hc''. apply Hk. congruence.
    - rewrite E2. apply Hk. congruence. }
  destruct (H2 c1 k) as (c2 & L2 & E2).
  { intros c'' Hc''. apply Hk. congruence. }
  exists c2. split; [congruence |]. rewrite E1. exact E2.
Qed.

Lemma greedy_Group (n : nat) (r : regex) (s t : pystr) :
  greedy r s t -> greedy (Group n r) s t.
Proof.
  intros H c k Hk. rewrite rmatch_Group.
  destruct (H c (fun s' c' => k s' (<[n := Some (consumed s s')]> c')))
    as (c1 & L1 & E1).
  { intros c' Hc'. cbv beta. apply Hk. rewrite <- Hc'. apply length_insert. }
  exists (<[n := Some (consumed s t)]> c1).
  split; [rewrite <- L1; apply length_insert | exact E1].
Qed.

Lemma greedy_Opt_left (r : regex) (s t : pystr) :
  greedy r s t -> greedy (Opt r) s t.
Proof.
  intros H c k Hk. destruct (H c k Hk) as (c1 & L1 & E1).
  exists c1. split; [exact L1 |]. rewrite rmatch_Opt, E1.
  destruct (Hk c1 L1) as [x ->]. reflexivity.
Qed.

Lemma greedy_Opt_skip (r : regex) (s : pystr) :
  no_match r s -> greedy (Opt r) s s.
Proof.
  intros H c k _. exists c. split; [reflexivity |].
  rewrite rmatch_Opt, H. reflexivity.
Qed.

Lemma greedy_star_nil (r : regex) (t : pystr) :
  no_match r t -> greedy_star r t t.
Proof.
  intros H n c k _ _. exists c. split; [reflexivity |].
  destruct n as [|n]; [reflexivity |]. rewrite star_loop_S, H. reflexivity.
Qed.

Lemma greedy_star_cons (r : regex) (s m t : pystr) :
  greedy r s m -> (length m < length s)%nat -> greedy_star r m t ->
  greedy_star r s t.
Proof.
  intros H1 Hlt H2 n c k Hn Hk.
  destruct n as [|n]; [lia |]. rewrite star_loop_S.
  assert (Hsh : shorter m s = true) by (apply Nat.ltb_lt; exact Hlt).
  destruct (H1 c (fun s' c' =>
                    if shorter s' s then star_loop (rmatch r) k n s' c' else None))
    as (c1 & L1 & E1).
  { intros c' Hc'. rewrite Hsh. destruct (H2 n c' k) as (c2 & L2 & E2).
    - lia.
    - intros c'' Hc''. apply Hk. congruence.
    - rewrite E2. apply Hk. congruence. }
  rewrite E1, Hsh.
  destruct (H2 n c1 k) as (c2 & L2 & E2).
  { lia. }
  { intros c'' Hc''. apply Hk. congruence. }
  exists c2. split; [congruence |]. rewrite E2.
  destruct (Hk c2 ltac:(congruence)) as [x ->]. reflexivity.
Qed.

Lemma greedy_of_star (r : regex) (s t : pystr) :
  greedy_star r s t -> greedy (Star r) s t.
Proof. intros H c k Hk. rewrite rmatch_Star. apply H; [lia | exact Hk]. Qed.

Lemma no_match_Lit (w s : pystr) : starts_with w s = false -> no_match (Lit w) s.
Proof.
  revert s. induction w as [|a w IH]; intros s H c k; [discriminate H |].
  cbn [Lit]. rewrite rmatch_Seq. destruct s as [|b s]; [reflexivity |].
  rewrite rmatch_Cls_cons. cbn [starts_with] in H.
  destruct (Ascii.eqb a b); [| reflexivity].
  cbn [andb] in H. apply IH, H.
Qed.

Lemma no_match_Cls (p : ascii -> bool) (s : pystr) : stops p s -> no_match (Cls p) s.
Proof.
  intros H c k. destruct s as [|a s]; [reflexivity |].
  rewrite rmatch_Cls_cons. cbn in H. rewrite H. reflexivity.
Qed.

Lemma no_match_Seq (r1 r2 : regex) (s : pystr) :
  no_match r1 s -> no_match (Seq r1 r2) s.
Proof. intros H c k. rewrite rmatch_Seq. apply H. Qed.

Lemma no_match_Group (n : nat) (r : regex) (s : pystr) :
  no_match r s -> no_match (Group n r) s.
Proof. intros H c k. rewrite rmatch_Group. apply H. Qed.

Lemma starts_with_head (b a : ascii) (w t : pystr) :
  Ascii.eqb b a = false -> starts_with (b :: w) (a :: t) = false.
Proof. intros H. cbn [starts_with]. rewrite H. reflexivity. Qed.

Lemma stops_weaken (p q : ascii -> bool) (s : pystr) :
  (forall a, q a = false -> p a = false) -> stops q s -> stops p s.
Proof. intros H Hs. destruct s as [|a s]; [exact I | apply H, Hs]. Qed.

Lemma item_char_false (a : ascii) :
  item_char a = false ->
  host_char a = false /\ Ascii.eqb "," a = false /\ Ascii.eqb "[" a = false.
Proof.
  destruct a as [[] [] [] [] [] [] [] []]; vm_compute; intros H;
    try discriminate H; auto.
Qed.

(** A greedy run of the item of the [Location] pattern over one item and
    the comma, if any, that follows it. *)
Lemma item_greedy (f sep t : pystr) :
  location_item f ->
  (sep = [] /\ stops item_char t) \/ sep = str "," ->
  greedy (Group 2 location_item_re) (f ++ sep ++ t) t.
Proof.
  intros (name & br & -> & Hne & Hname & Hbr) Hsep.
  assert (Hst : stops host_char (sep ++ t)).
  { destruct Hsep as [[-> Hs]| ->]; [| reflexivity].
    eapply stops_weaken, Hs. intros a Ha. apply item_char_false, Ha. }
  assert (Hcomma : greedy (Opt (Lit (str ","))) (sep ++ t) t).
  { destruct Hsep as [[-> Hs]| ->].
    - apply greedy_Opt_skip, no_match_Lit. destruct t as [|a t]; [reflexivity |].
      cbn in Hs. apply item_char_false in Hs as (_ & Hs & _).
      apply (starts_with_head "," a [] t Hs).
    - apply greedy_Opt_left, greedy_Lit. }
  apply greedy_Group. unfold location_item_re. cbn [Cat].
  rewrite <- app_assoc.
  destruct Hbr as [-> | (ds & de & -> & Hds & Hde)].
  - cbn [app]. eapply greedy_Seq.
    + apply greedy_Group, greedy_plus_cls; eassumption.
    + eapply greedy_Seq; [| exact Hcomma].
      apply greedy_Opt_skip, no_match_Group, no_match_Seq, no_match_Lit.
      destruct Hsep as [[-> Hs]| ->]; [| reflexivity].
      destruct t as [|a t]; [reflexivity |].
      cbn in Hs. apply item_char_false in Hs as (_ & _ & Hs).
      apply (starts_with_head "[" a [] t Hs).
  - unfold is_digits in Hds, Hde.
    apply andb_true_iff in Hds as [Hds0 Hds], Hde as [Hde0 Hde].
    apply negb_true_iff, bool_decide_eq_false in Hds0, Hde0.
    eapply greedy_Seq.
    + apply greedy_Group, greedy_plus_cls; [exact Hne | exact Hname | reflexivity].
    + eapply greedy_Seq; [| exact Hcomma].
      apply greedy_Opt_left, greedy_Group.
      rewrite <- !app_assoc.
      eapply greedy_Seq; [apply greedy_Lit |].
      eapply greedy_Seq;
        [apply greedy_plus_cls; [exact Hds0 | exact Hds | reflexivity] |].
      eapply greedy_Seq; [apply greedy_Lit |].
      eapply greedy_Seq;
        [apply greedy_plus_cls; [exact Hde0 | exact Hde | reflexivity] |].
      apply greedy_Lit.
Qed.

Lemma join_cons (sep f g : pystr) (fs : list pystr) :
  join sep (f :: g :: fs) = f ++ sep ++ join sep (g :: fs).
Proof. reflexivity. Qed.

Lemma location_item_length (f : pystr) : location_item f -> (0 < length f)%nat.
Proof.
  intros (name & br & -> & Hne & _). rewrite length_app.
  destruct name; [contradiction | cbn; lia].
Qed.

Lemma no_match_item (t : pystr) :
  stops host_char t -> no_match (Group 2 location_item_re) t.
Proof.
  intros H. apply no_match_Group. unfold location_item_re. cbn [Cat].
  apply no_match_Seq, no_match_Group. unfold Plus.
  apply no_match_Seq, no_match_Cls, H.
Qed.

Lemma stops_item_host (t : pystr) : stops item_char t -> stops host_char t.
Proof.
  apply stops_weaken. intros a Ha. apply item_char_false, Ha.
Qed.

(** The repetition of the [Location] pattern over a list of items
    separated by commas, with or without a comma after the last one. *)
Lemma items_star (fs : list pystr) (trail rest : pystr) :
  Forall location_item fs ->
  (trail = [] /\ stops item_char rest)
  \/ (trail = str "," /\ fs <> [] /\ stops host_char rest) ->
  greedy_star (Group 2 location_item_re) (join (str ",") fs ++ trail ++ rest) rest.
Proof.
  intros Hfs Htr.
  assert (Hrest : stops host_char rest).
  { destruct Htr as [[_ H]|(_ & _ & H)]; [apply stops_item_host |]; exact H. }
  induction Hfs as [|f fs Hf Hfs IH].
  - destruct Htr as [[-> _]|(_ & Hne & _)]; [| contradiction].
    cbn [join app]. apply greedy_star_nil, no_match_item, Hrest.
  - pose proof (location_item_length f Hf) as Hlen.
    destruct fs as [|g fs].
    + cbn [join]. eapply greedy_star_cons.
      * apply item_greedy; [exact Hf |].
        destruct Htr as [[-> H]|(-> & _ & _)]; auto.
      * rewrite !length_app. lia.
      * apply greedy_star_nil, no_match_item, Hrest.
    + rewrite join_cons, <- !app_assoc. eapply greedy_star_cons.
      * apply item_greedy; [exact Hf | right; reflexivity].
      * rewrite !length_app. lia.
      * apply IH. destruct Htr as [H|(H & _ & H')]; [left; exact H |].
        right. split; [exact H |]. split; [discriminate | exact H'].
Qed.

Lemma items_plus (f : pystr) (fs : list pystr) (trail rest : pystr) :
  Forall location_item (f :: fs) ->
  (trail = [] /\ stops item_char rest) \/ (trail = str "," /\ stops host_char rest) ->
  greedy (Plus (Group 2 location_item_re))
    (join (str ",") (f :: fs) ++ trail ++ rest) rest.
Proof.
  intros Hall Htr. apply Forall_cons in Hall as [Hf Hfs].
  assert (Hrest : stops host_char rest).
  { destruct Htr as [[_ H]|[_ H]]; [apply stops_item_host |]; exact H. }
  unfold Plus. destruct fs as [|g fs].
  - cbn [join]. eapply greedy_Seq.
    + apply item_greedy; [exact Hf |]. destruct Htr as [[-> H]|[-> _]]; auto.
    + apply greedy_of_star, greedy_star_nil, no_match_item, Hrest.
  - rewrite join_cons, <- !app_assoc. eapply greedy_Seq.
    + apply item_greedy; [exact Hf | right; reflexivity].
    + apply greedy_of_star, items_star; [exact Hfs |].
      destruct Htr as [H|[H H']]; [left; exact H |].
      right. split; [exact H |]. split; [discriminate | exact H'].
Qed.

(** The leading [.*] of a pattern stops at the last place from which the
    rest of the pattern matches. *)
Lemma star_any_none (k : kont) (c : caps) (s : pystr) :
  forall n,
    (forall v u, s = v ++ u -> k u c = None) ->
    star_loop (rmatch (Cls any_char)) k n s c = None.
Proof.
  induction s as [|a s IH]; intros n H.
  - destruct n as [|n]; [apply (H [] []); reflexivity |].
    rewrite star_loop_S. cbn [rmatch]. apply (H [] []). reflexivity.
  - destruct n as [|n]; [apply (H [] (a :: s)); reflexivity |].
    rewrite star_loop_S, rmatch_Cls_cons. cbn [any_char]. rewrite shorter_tail.
    rewrite IH; [apply (H [] (a :: s)); reflexivity |].
    intros v u E. apply (H (a :: v) u). rewrite E. reflexivity.
Qed.

Lemma star_any_last (k : kont) (c x : caps) (t : pystr) :
  (forall v u, t = v ++ u -> v <> [] -> k u c = None) ->
  k t c = Some x ->
  forall pre n,
    (length (pre ++ t) <= n)%nat ->
    star_loop (rmatch (Cls any_char)) k n (pre ++ t) c = Some x.
Proof.
  intros Hlater Hk. induction pre as [|a pre IH]; intros n Hn.
  - cbn [app] in *. destruct n as [|n]; [exact Hk |].
    rewrite star_loop_S. destruct t as [|b t]; [cbn [rmatch]; exact Hk |].
    rewrite rmatch_Cls_cons. cbn [any_char]. rewrite shorter_tail.
    rewrite star_any_none; [exact Hk |].
    intros v u E. apply (Hlater (b :: v) u); [rewrite E; reflexivity | discriminate].
  - cbn [app] in *. destruct n as [|n]; [cbn in Hn; lia |].
    rewrite star_loop_S, rmatch_Cls_cons. cbn [any_char]. rewrite shorter_tail.
    rewrite IH; [reflexivity | cbn in Hn; lia].
Qed.

(** What the pattern [.*LABEL\s*:\s*(BODY).*] captures on a text where the
    label is followed by a field the body runs over greedily, and does
    not occur later. *)
Lemma field_capture (label : string) (body : regex) (n : nat)
    (pre sp1 sp2 w rest : pystr) :
  greedy body (w ++ rest) rest ->
  forallb is_space sp1 = true -> forallb is_space sp2 = true ->
  stops is_space (w ++ rest) ->
  (forall v u,
      str label ++ sp1 ++ str ":" ++ sp2 ++ w ++ rest = v ++ u -> v <> [] ->
      starts_with (str label) u = false) ->
  exists m,
    re_match {| pat_re := field label body; pat_groups := S n |}
      (pre ++ str label ++ sp1 ++ str ":" ++ sp2 ++ w ++ rest) = Some m
    /\ group m 1 = Some w.
Proof.
  intros Hbody Hsp1 Hsp2 Hstop Hlater.
  set (t := str label ++ sp1 ++ str ":" ++ sp2 ++ w ++ rest).
  set (s := pre ++ t).
  unfold re_match, field. cbn [pat_re pat_groups Cat].
  set (c0 := replicate (S (S n)) None : caps).
  set (k0 := fun (s' : pystr) (c' : caps) => Some (<[0%nat := Some (consumed s s')]> c')).
  rewrite rmatch_Group. fold k0. rewrite rmatch_Seq.
  unfold any at 1. rewrite rmatch_Star.
  assert (Hend : forall (c : caps) (x : caps),
             k0 [] c = Some x ->
             star_loop (rmatch (Cls any_char)) k0 (length rest) rest c = Some x).
  { intros c x Hx. rewrite <- (app_nil_r rest) at 2.
    apply star_cls_greedy; [lia | apply forallb_forall; reflexivity | exact I | exact Hx]. }
  assert (Htail : forall c1 : caps,
             length c1 = length c0 ->
             exists c2 : caps,
               length c2 = length c0
               /\ rmatch (Seq (Group 1 body) any) (w ++ rest) c1 k0
                  = Some (<[0%nat := Some (consumed s [])]> (<[1%nat := Some w]> c2))).
  { intros c1 L1. rewrite rmatch_Seq, rmatch_Group.
    destruct (Hbody c1 (fun s' c' =>
                rmatch any s' (<[1%nat := Some (consumed (w ++ rest) s')]> c') k0))
      as (c2 & L2 & E2).
    - intros c' Hc'. cbv beta. unfold any. rewrite rmatch_Star.
      eexists. apply Hend. reflexivity.
    - exists c2. split; [congruence |]. rewrite E2, consumed_app.
      unfold any. rewrite rmatch_Star. apply Hend. reflexivity. }
  destruct (Htail c0 eq_refl) as (c2 & L2 & E2).
  exists (<[0%nat := Some (consumed s [])]> (<[1%nat := Some w]> c2)).
  split.
  - apply star_any_last.
    + intros v u E Hv. rewrite rmatch_Seq.
      apply no_match_Lit, (Hlater v u E Hv).
    + subst t. rewrite rmatch_Seq, (rmatch_Lit (str label)), rmatch_Seq.
      unfold ws at 1. rewrite rmatch_Star.
      apply star_cls_greedy; [rewrite length_app; lia | exact Hsp1 | reflexivity |].
      rewrite rmatch_Seq, (rmatch_Lit (str ":")), rmatch_Seq.
      unfold ws at 1. rewrite rmatch_Star.
      apply star_cls_greedy; [rewrite length_app; lia | exact Hsp2 | exact Hstop |].
      exact E2.
    + subst s. lia.
  - unfold group. subst c0. rewrite length_replicate in L2.
    destruct c2 as [|g0 [|g1 c2]]; [discriminate L2 ..|]. reflexivity.
Qed.

(** ** Splitting at a separator *)

Lemma split_go_piece (c : ascii) (d acc rest : pystr) :
  forallb (fun a => negb (Ascii.eqb c a)) d = true ->
  split_go [c] 0 acc (d ++ c :: rest) = (rev acc ++ d) :: split_go [c] 0 [] rest.
Proof.
  revert acc. induction d as [|a d IH]; intros acc H.
  - cbn [app split_go starts_with]. rewrite Ascii.eqb_refl. cbn [andb length Nat.sub].
    rewrite app_nil_r. reflexivity.
  - cbn [forallb] in H. apply andb_true_iff in H as [Ha Hd].
    apply negb_true_iff in Ha.
    cbn [app split_go starts_with]. rewrite Ha. cbn [andb].
    rewrite (IH (a :: acc) Hd). cbn [rev]. rewrite <- app_assoc. reflexivity.
Qed.

Lemma split_go_end (c : ascii) (d acc : pystr) :
  forallb (fun a => negb (Ascii.eqb c a)) d = true ->
  split_go [c] 0 acc d = [rev acc ++ d].
Proof.
  revert acc. induction d as [|a d IH]; intros acc H.
  - cbn. rewrite app_nil_r. reflexivity.
  - cbn [forallb] in H. apply andb_true_iff in H as [Ha Hd].
    apply negb_true_iff in Ha.
    cbn [split_go starts_with]. rewrite Ha. cbn [andb].
    rewrite (IH (a :: acc) Hd). cbn [rev]. rewrite <- app_assoc. reflexivity.
Qed.

(** Pieces free of the separator, joined by it, split back into the
    pieces. *)
Lemma split_go_join (c : ascii) (f : pystr) (fs : list pystr) :
  Forall (fun u => forallb (fun a => negb (Ascii.eqb c a)) u = true) (f :: fs) ->
  split_go [c] 0 [] (join [c] (f :: fs)) = f :: fs.
Proof.
  revert f. induction fs as [|g fs IH]; intros f H.
  - cbn [join]. apply (split_go_end c f [] (Forall_inv H)).
  - rewrite join_cons. cbn [app].
    rewrite (split_go_piece c f [] _ (Forall_inv H)). cbn [rev app].
    f_equal. apply IH, (Forall_inv_tail H).
Qed.

Lemma split_go_join_trailing (c : ascii) (f : pystr) (fs : list pystr) :
  Forall (fun u => forallb (fun a => negb (Ascii.eqb c a)) u = true) (f :: fs) ->
  split_go [c] 0 [] (join [c] (f :: fs) ++ [c]) = (f :: fs) ++ [[]].
Proof.
  revert f. induction fs as [|g fs IH]; intros f H.
  - cbn [join]. rewrite (split_go_piece c f [] [] (Forall_inv H)). reflexivity.
  - rewrite join_cons, <- !app_assoc. cbn [app].
    rewrite (split_go_piece c f [] _ (Forall_inv H)). cbn [rev app].
    f_equal. apply IH, (Forall_inv_tail H).
Qed.

(** No piece of a split is longer than the text. *)
Lemma split_go_length (sep : pystr) (s : pystr) :
  forall (skip : nat) (acc l : pystr),
    In l (split_go sep skip acc s) -> (length l <= length acc + length s)%nat.
Proof.
  induction s as [|a s IH]; intros skip acc l H.
  - cbn in H. destruct H as [<-|[]]. rewrite length_rev. lia.
  - cbn [split_go] in H. cbn [length]. destruct skip as [|n].
    + destruct (starts_with sep (a :: s)).
      * destruct H as [<-|H]; [rewrite length_rev; lia |].
        apply IH in H. cbn [length] in H. lia.
      * apply IH in H. cbn [length] in H. lia.
    + apply IH in H. lia.
Qed.

Lemma split_length (sep : string) (s l : pystr) :
  In l (split sep s) -> (length l <= length s)%nat.
Proof. intros H. apply split_go_length in H. exact H. Qed.

Lemma host_char_no_comma (a : ascii) :
  host_char a = true -> Ascii.eqb "," a = false /\ is_space a = false.
Proof.
  destruct a as [[] [] [] [] [] [] [] []]; vm_compute; intros H;
    try discriminate H; split; reflexivity.
Qed.

Lemma digit_no_comma (a : ascii) : is_digit a = true -> Ascii.eqb "," a = false.
Proof.
  destruct a as [[] [] [] [] [] [] [] []]; vm_compute; intros H;
    try discriminate H; reflexivity.
Qed.

Lemma forallb_no_sep (p : ascii -> bool) (c : ascii) (w : pystr) :
  (forall a, p a = true -> Ascii.eqb c a = false) ->
  forallb p w = true -> forallb (fun a => negb (Ascii.eqb c a)) w = true.
Proof.
  intros Hp H. induction w as [|a w IH]; [reflexivity |].
  cbn [forallb] in H |- *. apply andb_true_iff in H as [Ha Hw].
  rewrite (Hp a Ha), (IH Hw). reflexivity.
Qed.

Lemma location_item_no_comma (f : pystr) :
  location_item f -> forallb (fun a => negb (Ascii.eqb "," a)) f = true.
Proof.
  intros (name & br & -> & _ & Hname & Hbr).
  rewrite forallb_app.
  rewrite (forallb_no_sep host_char "," name (fun a H => proj1 (host_char_no_comma a H)) Hname).
  destruct Hbr as [->|(ds & de & -> & Hds & Hde)]; [reflexivity |].
  unfold is_digits in Hds, Hde.
  apply andb_true_iff in Hds as [_ Hds]. apply andb_true_iff in Hde as [_ Hde].
  rewrite !forallb_app.
  rewrite (forallb_no_sep is_digit "," ds digit_no_comma Hds).
  rewrite (forallb_no_sep is_digit "," de digit_no_comma Hde).
  reflexivity.
Qed.

Lemma location_item_stops_space (f t : pystr) :
  location_item f -> stops is_space (f ++ t).
Proof.
  intros (name & br & -> & Hne & Hname & _).
  destruct name as [|a name]; [contradiction |].
  cbn in Hname |- *. apply andb_true_iff in Hname as [Ha _].
  apply (host_char_no_comma a Ha).
Qed.

(** ** Where a label occurs *)

Lemma occurs_suffix (w v u : pystr) :
  occurs w (v ++ u) = false -> starts_with w u = false.
Proof.
  induction v as [|a v IH]; cbn [app]; intros H.
  - destruct u as [|b u]; cbn [occurs] in H.
    + rewrite orb_false_r in H. exact H.
    + apply orb_false_iff in H as [H _]. exact H.
  - cbn [occurs] in H. apply orb_false_iff in H as [_ H]. apply IH, H.
Qed.

Lemma occurs_skip (b : ascii) (w y x : pystr) :
  forallb (fun a => negb (Ascii.eqb b a)) y = true ->
  occurs (b :: w) (y ++ x) = occurs (b :: w) x.
Proof.
  induction y as [|a y IH]; [reflexivity |].
  cbn [forallb app]. intros H. apply andb_true_iff in H as [Ha Hy].
  apply negb_true_iff in Ha. cbn [occurs].
  rewrite (starts_with_head b a w _ Ha), (IH Hy). reflexivity.
Qed.

Lemma space_no_letter (a : ascii) : is_space a = true -> Ascii.eqb "L" a = false.
Proof.
  destruct a as [[] [] [] [] [] [] [] []]; vm_compute; intros H;
    try discriminate H; reflexivity.
Qed.

(** The label [Location] does not start again inside itself, the white
    space or the colon. *)
Lemma Location_later (sp1 sp2 x v u : pystr) :
  forallb is_space sp1 = true -> forallb is_space sp2 = true ->
  occurs (str "Location") x = false ->
  str "Location" ++ sp1 ++ str ":" ++ sp2 ++ x = v ++ u -> v <> [] ->
  starts_with (str "Location") u = false.
Proof.
  intros H1 H2 Hx E Hv.
  destruct v as [|a v]; [contradiction |]. clear Hv.
  assert (Ho : occurs ("L"%char :: str "ocation")
                 (str "ocation" ++ (sp1 ++ (str ":" ++ (sp2 ++ x)))) = false).
  { rewrite occurs_skip by reflexivity.
    rewrite occurs_skip
      by (apply (forallb_no_sep is_space); [apply space_no_letter | exact H1]).
    rewrite occurs_skip by reflexivity.
    rewrite occurs_skip
      by (apply (forallb_no_sep is_space); [apply space_no_letter | exact H2]).
    exact Hx. }
  apply (occurs_suffix _ v u).
  replace (v ++ u) with (str "ocation" ++ (sp1 ++ (str ":" ++ (sp2 ++ x))));
    [exact Ho |].
  injection E as _ E. exact E.
Qed.

(** ** What the pattern of the [Location] field captures *)

Lemma location_capture (pre sp1 sp2 f : pystr) (fs : list pystr) (trail rest : pystr) :
  Forall location_item (f :: fs) ->
  (trail = [] /\ stops item_char rest) \/ (trail = str "," /\ stops host_char rest) ->
  forallb is_space sp1 = true -> forallb is_space sp2 = true ->
  occurs (str "Location") (join (str ",") (f :: fs) ++ trail ++ rest) = false ->
  exists m,
    re_match JobRe.location_re
      (pre ++ str "Location" ++ sp1 ++ str ":" ++ sp2
       ++ join (str ",") (f :: fs) ++ trail ++ rest) = Some m
    /\ group m 1 = Some (join (str ",") (f :: fs) ++ trail).
Proof.
  intros Hall Htr H1 H2 Hocc.
  pose proof (field_capture "Location" (Plus (Group 2 location_item_re)) 3
                pre sp1 sp2 (join (str ",") (f :: fs) ++ trail) rest) as H.
  rewrite <- !app_assoc in H. apply H; clear H.
  - apply items_plus; assumption.
  - exact H1.
  - exact H2.
  - destruct fs as [|g fs].
    + cbn [join]. apply location_item_stops_space, (Forall_inv Hall).
    + rewrite join_cons, <- !app_assoc.
      apply location_item_stops_space, (Forall_inv Hall).
  - intros v u. apply Location_later; assumption.
Qed.

Lemma expand_locations_app (l1 l2 : list pystr) :
  expand_locations (l1 ++ l2)
  = do a <- expand_locations l1; do b <- expand_locations l2; Ok (a ++ b).
Proof.
  induction l1 as [|l l1 IH]; cbn [app expand_locations rbind].
  - destruct (expand_locations l2); reflexivity.
  - rewrite IH. destruct (expand_location l) as [h|e]; [| reflexivity].
    cbn [rbind]. destruct (expand_locations l1) as [a|e]; [| reflexivity].
    cbn [rbind]. destruct (expand_locations l2) as [b|e]; [| reflexivity].
    cbn [rbind]. rewrite app_assoc. reflexivity.
Qed.

Lemma Job_from_string_location py_eval s j :
  Job_from_string py_eval s = Ok j -> location_field s = Ok (Job.location j).
Proof.
  unfold Job_from_string. intros H.
  do 10 (apply rbind_Ok_inv in H as (? & _ & H)).
  apply rbind_Ok_inv in H as (loc & Hloc & H).
  do 3 (apply rbind_Ok_inv in H as (? & _ & H)).
  injection H as <-. exact Hloc.
Qed.

(** ** The loop over the fragments of the [Location] field *)

Lemma star_loop_total step (k : kont) n s c :
  (forall s c, is_Some (k s c)) -> is_Some (star_loop step k n s c).
Proof.
  intros Hk. destruct n as [|n]; [apply Hk |].
  rewrite star_loop_S. destruct (step s c _); [eauto | apply Hk].
Qed.

Lemma rmatch_Opt_total r s c (k : kont) :
  (forall s c, is_Some (k s c)) -> is_Some (rmatch (Opt r) s c k).
Proof.
  intros Hk. unfold Opt. cbn [rmatch].
  destruct (rmatch r s c k); [eauto | apply Hk].
Qed.

Lemma fragment_match_exists (l : pystr) :
  bad_lead l = false -> is_Some (re_match JobRe.fragment_re l).
Proof.
  intros H. destruct l as [|a l]; [discriminate H |].
  cbn in H. apply negb_false_iff in H.
  unfold re_match, JobRe.fragment_re. cbn [pat_re pat_groups Cat].
  rewrite rmatch_Group, rmatch_Seq, rmatch_Group. unfold Plus at 1.
  rewrite rmatch_Seq, rmatch_Cls_cons, H, rmatch_Star.
  apply star_loop_total. intros s c. rewrite rmatch_Seq.
  apply rmatch_Opt_total. intros s1 c1. apply rmatch_Opt_total.
  intros s2 c2. eauto.
Qed.

Lemma fragment_match_none (l : pystr) :
  bad_lead l = true -> re_match JobRe.fragment_re l = None.
Proof.
  intros H. destruct l as [|a l]; [reflexivity |].
  cbn in H. apply negb_true_iff in H.
  unfold re_match, JobRe.fragment_re. cbn [pat_re pat_groups Cat].
  rewrite rmatch_Group, rmatch_Seq, rmatch_Group. unfold Plus at 1.
  rewrite rmatch_Seq, rmatch_Cls_cons, H. reflexivity.
Qed.

(** What a match of the fragment pattern holds: a name of prefix characters,
    and either no bounds, or two bounds made of digits after a bracket, no
    longer than the fragment. *)
Lemma fragment_match_cases (l : pystr) (m : caps) :
  re_match JobRe.fragment_re l = Some m ->
  exists name,
    group m 1 = Some name /\ name <> [] /\ forallb JobRe.prefix_char name = true
    /\ ((group m 4 = None /\ group m 5 = None)
        \/ (exists s e, group m 4 = Some s /\ group m 5 = Some e
                         /\ is_digits s = true /\ is_digits e = true
                         /\ In "["%char l
                         /\ (length s <= length l)%nat
                         /\ (length e <= length l)%nat)).
Proof.
  unfold re_match, JobRe.fragment_re. cbn [pat_re pat_groups Cat replicate].
  intros H. rewrite rmatch_Group, rmatch_Seq, rmatch_Group in H.
  apply rmatch_sound in H as (name & s1 & c1 & -> & Hname & _ & Hg & H).
  rewrite (Hg eq_refl), consumed_app, rmatch_Seq in H. clear Hg c1.
  apply lang_Plus_Cls in Hname as [Hne Hname].
  exists name.
  assert (H2 : exists s2 c2 w s2',
             s1 = w ++ s2
             /\ (c2 = [None; Some name; None; None; None; None]
                 \/ exists d, c2 = [None; Some name; Some d; None; None; None])
             /\ rmatch (Opt (Group 3 (Seq (Lit (str "["))
                          (Seq (Group 4 digits) (Seq (Lit (str "-"))
                             (Seq (Group 5 digits) (Lit (str "]"))))))))
                  s2 c2
                  (fun s' c' => Some (<[0%nat := Some (consumed (name ++ s1) s')]> c'))
                = Some m /\ s2' = s2).
  { rewrite rmatch_Opt in H.
    match type of H with
    | match ?t with _ => _ end = _ => destruct t as [y|] eqn:E
    end.
    - injection H as ->. rewrite rmatch_Group in E.
      apply rmatch_sound in E as (d & s2 & c2 & -> & _ & _ & Hg & E).
      rewrite (Hg eq_refl) in E.
      exists s2, [None; Some name; Some (consumed (d ++ s2) s2); None; None; None],
        d, s2.
      split; [reflexivity |]. split; [right; eauto |]. split; [exact E | reflexivity].
    - exists s1, [None; Some name; None; None; None; None], [], s1.
      split; [reflexivity |]. split; [left; reflexivity |].
      split; [exact H | reflexivity]. }
  destruct H2 as (s2 & c2 & w & _ & -> & Hc2 & H2 & _). clear H.
  rewrite rmatch_Opt in H2.
  match type of H2 with
  | match ?t with _ => _ end = _ => destruct t as [y|] eqn:E
  end.
  - injection H2 as ->. rewrite rmatch_Group, rmatch_Seq in E.
    apply rmatch_sound in E as (b & s3 & c3 & -> & Hb & _ & Hg & E).
    rewrite (Hg (groupfree_Lit _)), rmatch_Seq, rmatch_Group in E. clear Hg c3.
    apply lang_Lit in Hb. subst b.
    apply rmatch_sound in E as (ds & s4 & c4 & -> & Hds & _ & Hg & E).
    rewrite (Hg eq_refl), consumed_app, rmatch_Seq in E. clear Hg c4.
    apply rmatch_sound in E as (b & s5 & c5 & -> & _ & _ & Hg & E).
    rewrite (Hg (groupfree_Lit _)), rmatch_Seq, rmatch_Group in E. clear Hg c5.
    apply rmatch_sound in E as (de & s6 & c6 & -> & Hde & _ & Hg & E).
    rewrite (Hg eq_refl), consumed_app in E. clear Hg c6.
    apply rmatch_sound in E as (b' & s7 & c7 & -> & _ & _ & Hg & E).
    rewrite (Hg (groupfree_Lit _)) in E. clear Hg c7.
    injection E as <-. apply lang_digits in Hds, Hde.
    assert (Hin : In "["%char (name ++ w ++ str "[" ++ ds ++ b ++ de ++ b' ++ s7)).
    { apply in_or_app. right. apply in_or_app. right. left. reflexivity. }
    destruct Hc2 as [->|[d ->]]; (split; [reflexivity |]);
      (split; [exact Hne |]); (split; [exact Hname |]);
      right; exists ds, de; repeat split; try assumption;
      repeat (rewrite length_app; cbn [length]); lia.
  - injection H2 as <-.
    destruct Hc2 as [->|[d ->]]; (split; [reflexivity |]);
      (split; [exact Hne |]); (split; [exact Hname |]); left; split; reflexivity.
Qed.


Lemma expand_location_cases (l : pystr) :
  (bad_lead l = true /\ expand_location l = Raise AttributeError)
  \/ (bad_lead l = false
      /\ (expand_location l = Ok [l]
          \/ (In "["%char l
              /\ exists name s e,
                  name <> [] /\ forallb JobRe.prefix_char name = true
                  /\ is_digits s = true /\ is_digits e = true
                  /\ (length s <= length l)%nat /\ (length e <= length l)%nat
                  /\ expand_location l
                     = if short s && short e
                       then Ok (map (fun i => name ++ str_of_int i)
                                  (py_range (digits_val s) (digits_val e + 1)))
                       else Raise ValueError))).
Proof.
  destruct (bad_lead l) eqn:Hb.
  - left. split; [reflexivity |]. unfold expand_location.
    rewrite (fragment_match_none l Hb). reflexivity.
  - right. split; [reflexivity |].
    destruct (fragment_match_exists l Hb) as [m Hm].
    destruct (fragment_match_cases l m Hm)
      as (name & H1 & Hne & Hname
          & [[H4 H5]|(s & e & H4 & H5 & Hs & He & Hin & Ls & Le)]).
    + left. unfold expand_location. rewrite Hm, H5.
      destruct (group m 2); reflexivity.
    + unfold expand_location. rewrite Hm, H5, H4.
      destruct (group m 2); [left; reflexivity |].
      right. split; [exact Hin |]. exists name, s, e.
      repeat (split; [assumption |]).
      unfold text. rewrite H1. cbn [rbind].
      rewrite (py_int_digits s Hs), (py_int_digits e He).
      destruct (short s), (short e); reflexivity.
Qed.

(** The loop over fragments no longer than [g]. *)
Lemma expand_locations_cases (g : pystr) (ls : list pystr) :
  (forall l, In l ls -> (length l <= length g)%nat) ->
  (existsb bad_lead ls = true ->
   expand_locations ls = Raise AttributeError
   \/ (expand_locations ls = Raise ValueError /\ short g = false))
  /\ (existsb bad_lead ls = false ->
      (exists hosts,
          expand_locations ls = Ok hosts
          /\ ((forall l, In l ls -> ~ In "["%char l) -> hosts = ls))
      \/ (expand_locations ls = Raise ValueError /\ short g = false)).
Proof.
  induction ls as [|l ls IH]; intros Hlen.
  - split; [intros H; discriminate H |]. intros _. left. exists [].
    split; reflexivity.
  - destruct IH as [IH1 IH2]; [intros l' Hl'; apply Hlen; right; exact Hl' |].
    pose proof (Hlen l (or_introl eq_refl)) as Hl.
    cbn [existsb expand_locations].
    destruct (expand_location_cases l) as [[Hb H]|[Hb H]]; rewrite Hb; cbn [orb].
    + rewrite H. split; [left; reflexivity | intros E; discriminate E].
    + assert (Hcases :
          expand_location l = Ok [l]
          \/ (In "["%char l /\ exists hs, expand_location l = Ok hs)
          \/ (expand_location l = Raise ValueError /\ short g = false)).
      { destruct H as [H|(Hin & name & s & e & _ & _ & _ & _ & Ls & Le & H)];
          [left; exact H |]. right.
        destruct (short s) eqn:Es; [destruct (short e) eqn:Ee |]; cbn [andb] in H.
        - left. split; [exact Hin |]. eexists. exact H.
        - right. split; [exact H |]. apply (long_sub e g); [lia | exact Ee].
        - right. split; [exact H |]. apply (long_sub s g); [lia | exact Es]. }
      clear H. split.
      * intros E. destruct Hcases as [->|[(_ & hs & ->)|[-> Hg]]]; cbn [rbind];
          [| | right; split; [reflexivity | exact Hg]];
          (destruct (IH1 E) as [->|[-> Hg]];
           [left; reflexivity | right; split; [reflexivity | exact Hg]]).
      * intros E. destruct Hcases as [->|[(Hin & hs & ->)|[-> Hg]]]; cbn [rbind];
          [| | right; split; [reflexivity | exact Hg]];
          (destruct (IH2 E) as [(hosts & -> & Hsame)|[-> Hg]];
           [| right; split; [reflexivity | exact Hg]]); cbn [rbind]; left.
        -- eexists. split; [reflexivity |]. intros Hno. cbn [app]. f_equal.
           apply Hsame. intros l' Hl'. apply Hno. right. exact Hl'.
        -- eexists. split; [reflexivity |]. intros Hno. exfalso.
           apply (Hno l); [left; reflexivity | exact Hin].
Qed.

Lemma prefix_host_char (a : ascii) :
  JobRe.prefix_char a = true -> host_char a = true.
Proof.
  destruct a as [[] [] [] [] [] [] [] []]; vm_compute; intros H;
    try discriminate H; reflexivity.
Qed.

Lemma forallb_impl (p q : ascii -> bool) (w : pystr) :
  (forall a, p a = true -> q a = true) -> forallb p w = true -> forallb q w = true.
Proof.
  intros Hpq. induction w as [|a w IH]; [reflexivity |].
  cbn [forallb]. intros H. apply andb_true_iff in H as [Ha Hw].
  rewrite (Hpq a Ha), (IH Hw). reflexivity.
Qed.

Lemma range_location_item (prefix ds de : pystr) :
  prefix <> [] -> forallb JobRe.prefix_char prefix = true ->
  is_digits ds = true -> is_digits de = true ->
  location_item (prefix ++ str "[" ++ ds ++ str "-" ++ de ++ str "]").
Proof.
  intros Hne Hp Hds Hde. exists prefix, (str "[" ++ ds ++ str "-" ++ de ++ str "]").
  split; [reflexivity |]. split; [exact Hne |].
  split; [exact (forallb_impl _ _ prefix prefix_host_char Hp) |].
  right. exists ds, de. auto.
Qed.

(** The [Location] field of a text that holds a list of items after the
    label, and the label nowhere later. *)
Lemma location_field_items (pre sp1 sp2 : pystr) (fs : list pystr) (rest : pystr) :
  fs <> [] -> Forall location_item fs ->
  forallb is_space sp1 = true -> forallb is_space sp2 = true ->
  stops item_char rest ->
  occurs (str "Location") (join (str ",") fs ++ rest) = false ->
  location_field
    (pre ++ str "Location" ++ sp1 ++ str ":" ++ sp2 ++ join (str ",") fs ++ rest)
  = expand_locations fs.
Proof.
  intros Hne Hall H1 H2 Hrest Hocc.
  destruct fs as [|f fs]; [contradiction |].
  destruct (location_capture pre sp1 sp2 f fs [] rest Hall (or_introl (conj eq_refl Hrest))
              H1 H2 Hocc) as (m & Hm & Hg).
  cbn [app] in Hm. rewrite app_nil_r in Hg.
  unfold location_field. rewrite Hm. unfold text. rewrite Hg. cbn [rbind].
  unfold split. change (str ",") with [","%char].
  rewrite split_go_join; [reflexivity |].
  eapply Forall_impl; [exact Hall |]. intros u Hu. apply location_item_no_comma, Hu.
Qed.

Lemma location_field_trailing_comma (pre sp1 sp2 : pystr) (fs : list pystr)
    (rest : pystr) :
  fs <> [] -> Forall location_item fs ->
  forallb is_space sp1 = true -> forallb is_space sp2 = true ->
  stops host_char rest ->
  occurs (str "Location") (join (str ",") fs ++ str "," ++ rest) = false ->
  location_field
    (pre ++ str "Location" ++ sp1 ++ str ":" ++ sp2
     ++ join (str ",") fs ++ str "," ++ rest)
  = do _ <- expand_locations fs; Raise AttributeError.
Proof.
  intros Hne Hall H1 H2 Hrest Hocc.
  destruct fs as [|f fs]; [contradiction |].
  destruct (location_capture pre sp1 sp2 f fs (str ",") rest Hall
              (or_intror (conj eq_refl Hrest)) H1 H2 Hocc) as (m & Hm & Hg).
  unfold location_field. rewrite Hm. unfold text. rewrite Hg. cbn [rbind].
  unfold split. change (str ",") with [","%char].
  rewrite split_go_join_trailing.
  2:{ eapply Forall_impl; [exact Hall |]. intros u Hu.
      apply location_item_no_comma, Hu. }
  rewrite expand_locations_app.
  destruct (expand_locations (f :: fs)); reflexivity.
Qed.

(** C2, as the code has it: a fragment [prefix[start-end]] of the
    [Location] field of a record, whose prefix is a non-empty run of
    letters, underscores, hyphens and dots, and whose bounds are runs of at
    most 4300 digits, is expanded by [Job.from_string] into one host name
    per integer from [start] to [end] inclusive, in ascending order, each
    the prefix followed by the integer: [end - start + 1] names when
    [start <= end] and none otherwise. The names take the place of the
    fragment among the names the other items of the field give, and are
    the location of the job that [from_string] returns. *)
Theorem location_range_expanded :
  forall (py_eval : pystr -> result pyval)
         (pre sp1 sp2 prefix ds de rest : pystr) (before after : list pystr),
    prefix <> [] ->
    forallb JobRe.prefix_char prefix = true ->
    is_digits ds = true ->
    is_digits de = true ->
    (length ds <= max_str_digits)%nat ->
    (length de <= max_str_digits)%nat ->
    Forall location_item before ->
    Forall location_item after ->
    forallb is_space sp1 = true ->
    forallb is_space sp2 = true ->
    stops item_char rest ->
    let fragment := prefix ++ str "[" ++ ds ++ str "-" ++ de ++ str "]" in
    let items := join (str ",") (before ++ fragment :: after) in
    occurs (str "Location") (items ++ rest) = false ->
    let s := pre ++ str "Location" ++ sp1 ++ str ":" ++ sp2 ++ items ++ rest in
    let first := digits_val ds in
    let last := digits_val de in
    let hosts := map (fun i => prefix ++ str_of_int i) (py_range first (last + 1)) in
    expand_location fragment = Ok hosts
    /\ location_field s
       = (do hb <- expand_locations before;
          do ha <- expand_locations after;
          Ok (hb ++ hosts ++ ha))
    /\ (forall j,
           Job_from_string py_eval s = Ok j ->
           exists hb ha,
             expand_locations before = Ok hb /\ expand_locations after = Ok ha
             /\ Job.location j = hb ++ hosts ++ ha)
    /\ py_int ds = Ok first /\ py_int de = Ok last
    /\ (first <= last -> Z.of_nat (length hosts) = last - first + 1)
    /\ (last < first -> hosts = [])
    /\ forall k, (k < length hosts)%nat ->
                 hosts !! k = Some (prefix ++ str_of_int (first + Z.of_nat k)).
Proof.
  intros py_eval pre sp1 sp2 prefix ds de rest before after
    Hp Hpc Hds Hde Lds Lde Hbefore Hafter H1 H2 Hrest fragment items Hocc s
    first last hosts.
  assert (Sds : short ds = true) by (apply Nat.leb_le; exact Lds).
  assert (Sde : short de = true) by (apply Nat.leb_le; exact Lde).
  assert (Hfrag : expand_location fragment = Ok hosts).
  { subst fragment. rewrite (expand_location_fragment prefix ds de Hp Hpc Hds Hde).
    rewrite Sds, Sde. reflexivity. }
  assert (Hfield : location_field s
                   = (do hb <- expand_locations before;
                      do ha <- expand_locations after;
                      Ok (hb ++ hosts ++ ha))).
  { subst s items. rewrite location_field_items; try assumption.
    - rewrite expand_locations_app. cbn [expand_locations]. rewrite Hfrag.
      cbn [rbind].
      destruct (expand_locations before) as [hb|e]; [| reflexivity].
      destruct (expand_locations after) as [ha|e]; reflexivity.
    - destruct before; discriminate.
    - apply Forall_app. split; [exact Hbefore |].
      constructor; [| exact Hafter].
      apply range_location_item; assumption. }
  split; [exact Hfrag |]. split; [exact Hfield |].
  split.
  { intros j Hj. apply Job_from_string_location in Hj.
    rewrite Hfield in Hj.
    destruct (expand_locations before) as [hb|e]; [| discriminate Hj].
    destruct (expand_locations after) as [ha|e]; [| discriminate Hj].
    injection Hj as Hj. exists hb, ha. auto. }
  split; [apply py_int_short; assumption |].
  split; [apply py_int_short; assumption |].
  subst hosts. rewrite length_map, length_py_range.
  split; [intros H; lia |].
  split.
  - intros H. unfold py_range.
    replace (Z.to_nat (last + 1 - first)) with 0%nat by lia. reflexivity.
  - intros k Hk. rewrite list_lookup_fmap, lookup_py_range by exact Hk.
    reflexivity.
Qed.

(** A record whose [Location] is [nodeA[3-5]] gives a job on [nodeA3],
    [nodeA4], [nodeA5]; in [n0,nodeA[3-5],n9] the three names stand
    between [n0] and [n9]. *)
Lemma location_range_nodeA :
  (exists j,
      Job_from_string no_eval
        (lines ["JobID: 7"; "Queue: knl_7210"; "Location: nodeA[3-5]"]) = Ok j
      /\ Job.location j = [str "nodeA3"; str "nodeA4"; str "nodeA5"])
  /\ location_field
       (lines ["JobID: 8"; "Location : n0,nodeA[3-5],n9"; "Queue: knl_7210"])
     = Ok [str "n0"; str "nodeA3"; str "nodeA4"; str "nodeA5"; str "n9"].
Proof.
  split.
  - destruct (location_range_expanded no_eval
                (lines ["JobID: 7"; "Queue: knl_7210"; ""]) [] (str " ")
                (str "nodeA") (str "3") (str "5") [] [] [])
      as (_ & _ & Hjob & _);
      [discriminate | reflexivity | reflexivity | reflexivity
      | vm_compute; lia | vm_compute; lia
      | constructor | constructor | reflexivity | reflexivity | exact I
      | reflexivity |].
    eassert (Hj : Job_from_string no_eval
                    (lines ["JobID: 7"; "Queue: knl_7210"; "Location: nodeA[3-5]"])
                  = Ok _) by (vm_compute; reflexivity).
    destruct (Hjob _ Hj) as (hb & ha & Hb & Ha & Hloc).
    injection Hb as <-. injection Ha as <-.
    eexists. split; [exact Hj |]. rewrite Hloc. reflexivity.
  - destruct (location_range_expanded no_eval
                (lines ["JobID: 8"; ""]) (str " ") (str " ")
                (str "nodeA") (str "3") (str "5") (nl ++ str "Queue: knl_7210")
                [str "n0"] [str "n9"])
      as (_ & Hfield & _);
      [discriminate | reflexivity | reflexivity | reflexivity
      | vm_compute; lia | vm_compute; lia
      | constructor; [exists (str "n0"), []; repeat split; [discriminate | left; reflexivity] | constructor]
      | constructor; [exists (str "n9"), []; repeat split; [discriminate | left; reflexivity] | constructor]
      | reflexivity | reflexivity | reflexivity
      | reflexivity |].
    refine (eq_trans Hfield _). reflexivity.
Defined.

(** C2 as the specification words it fails for a prefix that holds a digit:
    [node1] is a host-name prefix for the pattern of the [Location] field,
    and the fragment [node1[3-5]] is kept as it is. *)
Lemma expand_location_digit_prefix_kept :
  forallb host_char (str "node1") = true
  /\ expand_location (str "node1" ++ str "[" ++ str "3" ++ str "-" ++ str "5" ++ str "]")
     = Ok [str "node1[3-5]"]
  /\ expand_location (str "node1" ++ str "[" ++ str "3" ++ str "-" ++ str "5" ++ str "]")
     <> Ok (map (fun i => str "node1" ++ str_of_int i) (py_range 3 (5 + 1)))
  /\ (exists j,
         Job_from_string no_eval
           (lines ["JobID: 7"; "Queue: knl_7210"; "Location: node1[3-5]"]) = Ok j
         /\ Job.location j = [str "node1[3-5]"]).
Proof.
  split; [reflexivity |]. split; [reflexivity |].
  split; [vm_compute; intros H; discriminate H |].
  eexists. split; [vm_compute; reflexivity | reflexivity].
Qed.

(** X5: when the [Location] field makes [Job.from_string] fail. Without a
    match of the pattern the location is the empty list. With a match, the
    field is cut at the commas and each fragment goes through the loop:
    the loop raises [AttributeError] only when one of the fragments is
    empty (a trailing or doubled comma in the field) or starts with a
    character that is no letter, underscore, hyphen or dot (a digit, for
    one, which the pattern of the [Location] field lets through): the
    fragment pattern does not match there and [groupdict] is called on
    [None]. In every other case the loop returns, and keeps fragments
    without an opening bracket as they are; the one exception is a range
    whose bound has more than 4300 digits, which [int] refuses with
    [ValueError], in a text longer than that. A job that [from_string]
    returns has the outcome of the loop as its location. A field that
    ends in a comma always fails. *)
Theorem location_field_fails_iff_bad_lead :
  (forall s : pystr,
      (re_match JobRe.location_re s = None -> location_field s = Ok [])
      /\ (forall m,
             re_match JobRe.location_re s = Some m ->
             exists g,
               group m 1 = Some g
               /\ let frags := split "," g in
                  location_field s = expand_locations frags
                  /\ (existsb bad_lead frags = true ->
                      location_field s = Raise AttributeError
                      \/ (location_field s = Raise ValueError /\ short s = false))
                  /\ (existsb bad_lead frags = false ->
                      (exists hosts,
                          location_field s = Ok hosts
                          /\ ((forall l, In l frags -> ~ In "["%char l) ->
                              hosts = frags))
                      \/ (location_field s = Raise ValueError /\ short s = false))
                  /\ (location_field s = Raise AttributeError ->
                      existsb bad_lead frags = true))
      /\ (forall py_eval j,
             Job_from_string py_eval s = Ok j ->
             location_field s = Ok (Job.location j)))
  /\ (forall (pre sp1 sp2 rest : pystr) (fs : list pystr),
         fs <> [] -> Forall location_item fs ->
         forallb is_space sp1 = true -> forallb is_space sp2 = true ->
         stops host_char rest ->
         occurs (str "Location") (join (str ",") fs ++ str "," ++ rest) = false ->
         let s := pre ++ str "Location" ++ sp1 ++ str ":" ++ sp2
                  ++ join (str ",") fs ++ str "," ++ rest in
         location_field s = (do _ <- expand_locations fs; Raise AttributeError)
         /\ forall py_eval j, Job_from_string py_eval s <> Ok j).
Proof.
  split.
  - intros s. split; [| split].
    + intros H. unfold location_field. rewrite H. reflexivity.
    + intros m Hm. pose proof Hm as Hm'.
      apply field_match_len in Hm' as (g & Hg & _ & Hlen).
      exists g. split; [exact Hg |]. intros frags.
      assert (E : location_field s = expand_locations frags).
      { unfold location_field. rewrite Hm. unfold text. rewrite Hg. reflexivity. }
      destruct (expand_locations_cases g frags) as [C1 C2].
      { intros l Hl. apply (split_length "," g l Hl). }
      rewrite E. split; [reflexivity |].
      split; [| split].
      * intros Hb. destruct (C1 Hb) as [H|[H Hs]]; [left; exact H |].
        right. split; [exact H | exact (long_sub g s Hlen Hs)].
      * intros Hb. destruct (C2 Hb) as [H|[H Hs]]; [left; exact H |].
        right. split; [exact H | exact (long_sub g s Hlen Hs)].
      * intros Ha. destruct (existsb bad_lead frags) eqn:Hb; [reflexivity |].
        destruct (C2 eq_refl) as [(hosts & H & _)|[H _]]; rewrite H in Ha;
          discriminate Ha.
    + intros py_eval j. apply Job_from_string_location.
  - intros pre sp1 sp2 rest fs Hne Hall H1 H2 Hrest Hocc s.
    assert (E : location_field s = (do _ <- expand_locations fs; Raise AttributeError)).
    { apply location_field_trailing_comma; assumption. }
    split; [exact E |].
    intros py_eval j Hj. apply Job_from_string_location in Hj.
    rewrite E in Hj. destruct (expand_locations fs); discriminate Hj.
Qed.

(** A field ending in a comma, and one of plain host names. *)
Lemma location_field_trailing_comma_sample :
  (forall j,
      Job_from_string no_eval
        (lines ["JobID: 7"; "Queue: q"; "Location: nodeA,nodeB,"; "State: queued"])
      <> Ok j)
  /\ location_field (lines ["JobID: 7"; "Queue: q"; "Location: nodeA,nodeB"])
     = Ok [str "nodeA"; str "nodeB"].
Proof.
  split.
  - apply (proj2 (proj2 location_field_fails_iff_bad_lead
                    (lines ["JobID: 7"; "Queue: q"; ""]) [] (str " ")
                    (nl ++ str "State: queued") [str "nodeA"; str "nodeB"]
                    ltac:(discriminate)
                    ltac:(repeat constructor;
                          [exists (str "nodeA"), [] | exists (str "nodeB"), []];
                          repeat split; try discriminate; left; reflexivity)
                    eq_refl eq_refl eq_refl eq_refl) no_eval).
  - set (s := lines ["JobID: 7"; "Queue: q"; "Location: nodeA,nodeB"]).
    eassert (Hm : re_match JobRe.location_re s = Some _) by (vm_compute; reflexivity).
    destruct (proj1 (proj2 (proj1 location_field_fails_iff_bad_lead s)) _ Hm)
      as (g & Hg & _ & _ & Hok & _).
    vm_compute in Hg. injection Hg as <-.
    destruct Hok as [(hosts & E & Hs)|[_ Hlong]];
      [vm_compute; reflexivity | | vm_compute in Hlong; discriminate Hlong].
    rewrite E. f_equal. rewrite Hs; [vm_compute; reflexivity |].
    intros l Hl. vm_compute in Hl.
    destruct Hl as [<-|[<-|[]]]; intros Hin; vm_compute in Hin;
      repeat (destruct Hin as [Hin|Hin]; [discriminate Hin |]); exact Hin.
Defined.

(** ** Failures of [get_queues_jobs] *)


Lemma mapM_Raise_inv {A B : Type} (g : A -> result B) (l : list A) (e : exn) :
  mapM g l = Raise e -> exists a, In a l /\ g a = Raise e.
Proof.
  induction l as [|a l IH]; cbn [mapM]; intros H; [discriminate H |].
  destruct (g a) as [b|e'] eqn:Ea; cbn [rbind] in H.
  - destruct (mapM g l) as [bs|e'] eqn:El; cbn [rbind] in H; [discriminate H |].
    injection H as ->. destruct (IH eq_refl) as (a' & Hin & Ha').
    exists a'. split; [right; exact Hin | exact Ha'].
  - injection H as ->. exists a. split; [left; reflexivity | exact Ea].
Qed.

Lemma mapM_In_Raise {A B : Type} (g : A -> result B) (l : list A) (a : A) :
  In a l -> (forall b, g a <> Ok b) -> exists e, mapM g l = Raise e.
Proof.
  intros Hin Ha. induction l as [|a' l IH]; [destruct Hin |].
  cbn [mapM]. destruct (g a') as [b|e'] eqn:Ea; cbn [rbind]; [| eauto].
  destruct Hin as [->|Hin]; [exfalso; exact (Ha b Ea) |].
  destruct (IH Hin) as (e & ->). cbn [rbind]. eauto.
Qed.

Lemma matches_is_Some (p : pattern) (l : pystr) :
  matches p l = true <-> is_Some (re_match p l).
Proof. unfold matches. apply bool_decide_eq_true. Qed.

Lemma named_record_length (p : pattern) (out l : pystr) :
  In l (List.filter (matches p) (split blank_line out)) ->
  (length l <= length out)%nat.
Proof.
  intros H. apply filter_In in H as [H _]. exact (split_length blank_line out l H).
Qed.

Lemma parse_queues_cases :
  forall out : pystr,
    let named := List.filter (matches QueueRe.name_re) (split blank_line out) in
    (forall e, parse_queues out = Raise e ->
               e = NameError (str "sedonds") \/ e = OverflowError
               \/ (e = ValueError /\ short out = false))
    /\ ((exists l, In l named /\ is_Some (re_match QueueRe.mintime_re l)) ->
        exists e, parse_queues out = Raise e)
    /\ ((forall l, In l named ->
                   re_match QueueRe.mintime_re l = None
                   /\ re_match QueueRe.maxtime_re l = None
                   /\ short l = true) ->
        exists qs, parse_queues out = Ok qs /\ length qs = length named).
Proof.
  intros out named. unfold parse_queues. fold named.
  split; [| split].
  - intros e H. apply mapM_Raise_inv in H as (l & Hin & Hl).
    pose proof (named_record_length _ out l Hin) as Hlen.
    apply filter_In in Hin as [_ Hm]. apply matches_is_Some in Hm.
    destruct (Queue_init_cases l) as (_ & Hmin & _ & Hrest).
    destruct (re_match QueueRe.mintime_re l) as [mm|] eqn:Em.
    + destruct (Hmin Hm (ex_intro _ mm eq_refl)) as [Hq|[Hq Hs]]; rewrite Hq in Hl;
        injection Hl as <-; [auto |].
      right. right. split; [reflexivity | exact (long_sub l out Hlen Hs)].
    + destruct (Hrest Hm eq_refl) as [(q & Hq)|[Hq|[Hq Hs]]]; rewrite Hq in Hl;
        [discriminate Hl | injection Hl as <-; auto | injection Hl as <-].
      right. right. split; [reflexivity | exact (long_sub l out Hlen Hs)].
  - intros (l & Hin & Hmin). apply (mapM_In_Raise _ _ l Hin).
    intros q Hq. apply filter_In in Hin as [_ Hm]. apply matches_is_Some in Hm.
    destruct (Queue_init_cases l) as (_ & Hbad & _).
    destruct (Hbad Hm Hmin) as [H|[H _]]; rewrite H in Hq; discriminate Hq.
  - intros Hall.
    destruct (mapM_Ok Queue_init named) as (qs & Hqs & Hlen & _); [| eauto].
    intros l Hin. destruct (Hall l Hin) as (Hmin & Hmax & Hs).
    apply filter_In in Hin as [_ Hm]. apply matches_is_Some in Hm.
    destruct (Queue_init_cases l) as (_ & _ & Hok & _).
    destruct (Hok Hm Hmin Hmax) as [H|[_ Hl]]; [exact H |].
    rewrite Hs in Hl. discriminate Hl.
Qed.

(** X6: one queue record is enough to fail the whole listing. When the
    answer of [qstat -Q -l] holds a record with a [Name] and a [MinTime]
    field, [get_queues_jobs] raises and the jobs are never listed: the
    second command is not run. The exception is [NameError] on [sedonds],
    or the one of an earlier record: [OverflowError], or the [ValueError]
    of [int] on more than 4300 digits, in an answer longer than that. When
    no named record has a [MinTime] or [MaxTime] field and none is longer
    than 4300 characters, the queues are built, one per named record, and
    the second command is run; when it answers with jobs that can be read,
    the call returns these queues and jobs, connected. *)
Theorem get_queues_jobs_queue_phase :
  forall (user : pystr) (py_eval : pystr -> result pyval) (sys : host)
         (tr : list event) (out : pystr),
    run sys (str "qstat -Q -l") = Ok out ->
    let named := List.filter (matches QueueRe.name_re) (split blank_line out) in
    let first_only := tr ++ [Exec (str "qstat -Q -l")] in
    let both := tr ++ [Exec (str "qstat -Q -l"); Exec (str "qstat -f -l")] in
    ((exists l, In l named /\ is_Some (re_match QueueRe.mintime_re l)) ->
     exists e, get_queues_jobs user py_eval sys tr = (Raise e, first_only)
               /\ (e = NameError (str "sedonds") \/ e = OverflowError
                   \/ (e = ValueError /\ short out = false)))
    /\ ((forall l, In l named ->
                   re_match QueueRe.mintime_re l = None
                   /\ re_match QueueRe.maxtime_re l = None
                   /\ short l = true) ->
        exists qs,
          parse_queues out = Ok qs
          /\ length qs = length named
          /\ (exists r, get_queues_jobs user py_eval sys tr = (r, both))
          /\ forall out2 js,
               run sys (str "qstat -f -l") = Ok out2 ->
               parse_jobs py_eval out2 = Ok js ->
               get_queues_jobs user py_eval sys tr
               = (Ok (link user {| h_queues := qs; h_jobs := js |}), both)).
Proof.
  intros user py_eval sys tr out Hrun named first_only both.
  destruct (parse_queues_cases out) as (Herr & Hmin & Hok). fold named in Hmin, Hok.
  unfold get_queues_jobs, getoutput, bind, emit, lift, ret. rewrite Hrun.
  split.
  - intros H. destruct (Hmin H) as (e & He). rewrite He.
    exists e. split; [reflexivity | apply Herr, He].
  - intros H. destruct (Hok H) as (qs & -> & Hlen). rewrite <- app_assoc. cbn [app].
    exists qs. split; [reflexivity |]. split; [exact Hlen |]. split.
    + destruct (run sys (str "qstat -f -l")) as [out2|e2]; [| eauto].
      destruct (parse_jobs py_eval out2); eauto.
    + intros out2 js -> ->. reflexivity.
Qed.

Lemma get_queues_jobs_queue_phase_MinTime :
  (let queues := lines ["Name: debug"; ""; "Name: prod"; "MinTime: 00:05:00"] in
   let sys := listing_host queues (lines ["JobID: 1"; "Queue: debug"]) in
   exists e,
     get_queues_jobs me no_eval sys [] = (Raise e, [Exec (str "qstat -Q -l")])
     /\ (e = NameError (str "sedonds") \/ e = OverflowError
         \/ (e = ValueError /\ short queues = false)))
  /\ (let queues := lines ["Name: debug"; "TotalNodes: 4"; ""; "Name: prod"] in
      let sys := listing_host queues (lines ["JobID: 1"; "Queue: debug"]) in
      exists qs,
        parse_queues queues = Ok qs /\ length qs = 2%nat
        /\ exists h,
            get_queues_jobs me no_eval sys []
            = (Ok h, [Exec (str "qstat -Q -l"); Exec (str "qstat -f -l")])).
Proof.
  split.
  - intros queues sys.
    assert (Hrun : run sys (str "qstat -Q -l") = Ok queues) by reflexivity.
    apply (proj1 (get_queues_jobs_queue_phase me no_eval sys [] queues Hrun)).
    exists (lines ["Name: prod"; "MinTime: 00:05:00"]). split.
    + vm_compute. right. left. reflexivity.
    + eexists. vm_compute. reflexivity.
  - intros queues sys.
    assert (Hrun : run sys (str "qstat -Q -l") = Ok queues) by reflexivity.
    destruct (proj2 (get_queues_jobs_queue_phase me no_eval sys [] queues Hrun))
      as (qs & Hqs & Hlen & _ & Hjobs).
    + intros l Hl. vm_compute in Hl.
      destruct Hl as [<-|[<-|[]]]; vm_compute; auto.
    + exists qs. split; [exact Hqs |]. split; [exact Hlen |].
      eassert (Hj : parse_jobs no_eval (lines ["JobID: 1"; "Queue: debug"]) = Ok _)
        by (vm_compute; reflexivity).
      eexists. exact (Hjobs _ _ eq_refl Hj).
Defined.


(** X7: one job record is enough, too. When the queues were built and the
    answer of [qstat -f -l] holds a record with a [JobID] and no [Queue]
    field, [get_queues_jobs] raises after both commands have run: the
    filter keeps the record for its [JobID] and [from_string] cannot read
    it. *)
Theorem get_queues_jobs_job_without_queue :
  forall (user : pystr) (py_eval : pystr -> result pyval) (sys : host)
         (tr : list event) (out1 out2 : pystr) (qs : list Queue.t) (l : pystr),
    run sys (str "qstat -Q -l") = Ok out1 ->
    parse_queues out1 = Ok qs ->
    run sys (str "qstat -f -l") = Ok out2 ->
    In l (split blank_line out2) ->
    is_Some (re_match JobRe.jobid_re l) ->
    re_match JobRe.queue_re l = None ->
    exists e,
      get_queues_jobs user py_eval sys tr
      = (Raise e, tr ++ [Exec (str "qstat -Q -l"); Exec (str "qstat -f -l")]).
Proof.
  intros user py_eval sys tr out1 out2 qs l H1 Hq H2 Hin Hid Hno.
  unfold get_queues_jobs, getoutput, bind, emit, lift, ret.
  rewrite H1, Hq, H2, <- app_assoc. cbn [app].
  destruct (mapM_In_Raise (Job_from_string py_eval)
              (List.filter (matches JobRe.jobid_re) (split blank_line out2)) l)
    as (e & He).
  - apply filter_In. split; [exact Hin | apply matches_is_Some, Hid].
  - intros j Hj.
    destruct (proj2 (Job_from_string_required_cases py_eval l) Hno) as [H|[H _]];
      rewrite H in Hj; discriminate Hj.
  - unfold parse_jobs. rewrite He. eauto.
Qed.

Lemma get_queues_jobs_job_without_queue_sample :
  let jobs := lines ["JobID: 1"; "Queue: debug"; ""; "JobID: 2"; "User: alice"] in
  let sys := listing_host (lines ["Name: debug"]) jobs in
  exists e,
    get_queues_jobs me no_eval sys []
    = (Raise e, [] ++ [Exec (str "qstat -Q -l"); Exec (str "qstat -f -l")]).
Proof.
  intros jobs sys.
  eassert (Hq : parse_queues (lines ["Name: debug"]) = Ok _)
    by (vm_compute; reflexivity).
  apply (get_queues_jobs_job_without_queue me no_eval sys [] (lines ["Name: debug"])
           jobs _ (lines ["JobID: 2"; "User: alice"]) eq_refl Hq eq_refl).
  - vm_compute. right. left. reflexivity.
  - eexists. vm_compute. reflexivity.
  - vm_compute. reflexivity.
Defined.

(** ** Bounds kept by the policy filter *)



Lemma mapM_Ok_lookup {A B : Type} (g : A -> result B) (l : list A) (l' : list B) :
  mapM g l = Ok l' ->
  length l' = length l
  /\ forall i b, l' !! i = Some b -> exists a, l !! i = Some a /\ g a = Ok b.
Proof.
  revert l'. induction l as [|a l IH]; intros l' H; cbn [mapM] in H.
  - injection H as <-. split; [reflexivity |]. intros i b Hi. destruct i; discriminate Hi.
  - apply rbind_Ok_inv in H as (b & Hb & H).
    apply rbind_Ok_inv in H as (bs & Hbs & H). injection H as <-.
    destruct (IH bs Hbs) as [Hlen Hnth].
    split; [cbn; f_equal; exact Hlen |].
    intros [|i] b' Hi; cbn in Hi |- *.
    + injection Hi as <-. eauto.
    + apply Hnth, Hi.
Qed.

Lemma adjust_inv user js f T q q' :
  adjust user js f T q = Ok q' ->
  exists n,
    allowed_nodes q f = Ok n /\ 1 <= n
    /\ q' = Queue.set_maxtime
              (Queue.set_maxusernodes q
                 (Z.max (if num_used user js q =? 0 then 1 else 0)
                    (n - num_used user js q)))
              (td_min T (Queue.maxtime q)).
Proof.
  unfold adjust. intros H. apply rbind_Ok_inv in H as (n & Hn & H).
  injection H as <-. exists n. split; [exact Hn |]. split; [| reflexivity].
  unfold allowed_nodes in Hn.
  apply rbind_Ok_inv in Hn as (x & _ & Hn).
  apply rbind_Ok_inv in Hn as (c & _ & Hn). injection Hn as <-. lia.
Qed.

Lemma num_used_nonneg user js q : 0 <= num_used user js q.
Proof. unfold num_used. lia. Qed.

(** X8: what the loop of [UserPolicy.get_queues] guarantees on every
    queue. Its [maxusernodes] is never negative; its [maxtime] is at most
    the ceiling of the policy and at most what it was; a queue in which the
    user has no job keeps at least one node and is always among the queues
    returned; a queue in which the user has jobs is left with nodes only if
    the user holds fewer jobs there than the share [max(1, ceil(totalnodes
    * fraction))]. *)
Theorem apply_policy_bounds :
  forall (user : pystr) (f : pyfloat) (T : timedelta) (h h' : heap)
         (kept : list nat),
    apply_policy user f T h = Ok (h', kept) ->
    forall i q',
      h_queues h' !! i = Some q' ->
      exists q,
        h_queues h !! i = Some q
        /\ 0 <= Queue.maxusernodes q'
        /\ total_us (Queue.maxtime q') <= total_us T
        /\ total_us (Queue.maxtime q') <= total_us (Queue.maxtime q)
        /\ (num_used user (h_jobs h) q = 0 ->
            1 <= Queue.maxusernodes q' /\ In i kept)
        /\ (0 < num_used user (h_jobs h) q -> 0 < Queue.maxusernodes q' ->
            exists n, allowed_nodes q f = Ok n
                      /\ num_used user (h_jobs h) q < n).
Proof.
  intros user f T h h' kept H i q' Hi. unfold apply_policy in H.
  apply rbind_Ok_inv in H as (qs & Hqs & H). injection H as <- <-.
  cbn [h_queues] in Hi.
  destruct (mapM_Ok_lookup _ _ _ Hqs) as [Hlen Hnth].
  destruct (Hnth i q' Hi) as (q & Hq & Hadj).
  apply adjust_inv in Hadj as (n & Hn & Hn1 & ->).
  exists q. split; [exact Hq |].
  cbn [Queue.maxusernodes Queue.maxtime Queue.set_maxtime Queue.set_maxusernodes].
  rewrite total_us_td_min.
  pose proof (num_used_nonneg user (h_jobs h) q) as Hu.
  split; [destruct (num_used user (h_jobs h) q =? 0); lia |].
  split; [lia |]. split; [lia |]. split.
  - intros H0. rewrite H0. cbn [Z.eqb]. split; [lia |].
    apply filter_In. split; [apply in_seq; apply lookup_lt_Some in Hi; lia |].
    rewrite Hi. cbn [Queue.maxusernodes Queue.set_maxtime Queue.set_maxusernodes].
    rewrite H0. apply Z.ltb_lt. cbn [Z.eqb]. lia.
  - intros Hpos Hleft. exists n. split; [exact Hn |].
    destruct (Z.eqb_spec (num_used user (h_jobs h) q) 0); lia.
Qed.

Lemma apply_policy_bounds_sample_heap :
  exists h' kept q',
    apply_policy me half (hours 2) sample_heap = Ok (h', kept)
    /\ h_queues h' !! 1%nat = Some q'
    /\ 1 <= Queue.maxusernodes q'
    /\ In 1%nat kept.
Proof.
  eassert (H : apply_policy me half (hours 2) sample_heap = Ok (_, _))
    by (vm_compute; reflexivity).
  match type of H with
  | _ = Ok (?h, _) => eassert (Hq : h_queues h !! 1%nat = Some _) by reflexivity
  end.
  eexists _, _, _. split; [exact H |]. split; [exact Hq |].
  destruct (apply_policy_bounds me half (hours 2) sample_heap _ _ H 1%nat _ Hq)
    as (q & Hi & _ & _ & _ & Hfree & _).
  injection Hi as <-. apply Hfree. vm_compute. reflexivity.
Defined.


Lemma td_min_idem (a b : timedelta) : td_min a (td_min a b) = td_min a b.
Proof.
  unfold td_min, td_ltb. destruct a as [a], b as [b]. cbn [total_us].
  destruct (Z.ltb_spec b a) as [H|H]; cbn [total_us].
  - destruct (Z.ltb_spec b a); [reflexivity | lia].
  - rewrite Z.ltb_irrefl. reflexivity.
Qed.

Lemma adjust_idem user js f T q q' :
  adjust user js f T q = Ok q' -> adjust user js f T q' = Ok q'.
Proof.
  intros H. apply adjust_inv in H as (n & Hn & _ & ->).
  unfold adjust.
  change (allowed_nodes (Queue.set_maxtime (Queue.set_maxusernodes q ?a) ?b) f)
    with (allowed_nodes q f) in |- *.
  rewrite Hn. cbn [rbind]. f_equal.
  unfold Queue.set_maxtime, Queue.set_maxusernodes, num_used.
  cbn [Queue.jobs Queue.name Queue.users Queue.groups Queue.mintime Queue.maxtime
       Queue.maxrunning Queue.maxqueued Queue.maxusernodes Queue.maxnodehours
       Queue.totalnodes Queue.state].
  rewrite td_min_idem. reflexivity.
Qed.

Lemma mapM_idem {A : Type} (g : A -> result A) (l l' : list A) :
  (forall a b, g a = Ok b -> g b = Ok b) -> mapM g l = Ok l' -> mapM g l' = Ok l'.
Proof.
  intros Hg. revert l'. induction l as [|a l IH]; intros l' H; cbn [mapM] in H.
  - injection H as <-. reflexivity.
  - apply rbind_Ok_inv in H as (b & Hb & H).
    apply rbind_Ok_inv in H as (bs & Hbs & H). injection H as <-.
    cbn [mapM]. rewrite (Hg a b Hb), (IH bs Hbs). reflexivity.
Qed.

(** X9: the loop of [UserPolicy.get_queues] settles at once. Run again on
    the queues it produced (same jobs, same fraction, same ceiling) it
    changes nothing and returns the same queues: the share is computed from
    [totalnodes] and the jobs, which the loop leaves alone, and not from
    the [maxusernodes] it overwrites. *)
Theorem apply_policy_idempotent :
  forall (user : pystr) (f : pyfloat) (T : timedelta) (h h' : heap)
         (kept : list nat),
    apply_policy user f T h = Ok (h', kept) ->
    apply_policy user f T h' = Ok (h', kept).
Proof.
  intros user f T h h' kept H. unfold apply_policy in H |- *.
  apply rbind_Ok_inv in H as (qs & Hqs & H). injection H as <- <-.
  cbn [h_queues h_jobs].
  rewrite (mapM_idem _ _ _ (adjust_idem user (h_jobs h) f T) Hqs). reflexivity.
Qed.

Lemma apply_policy_idempotent_sample_heap :
  exists h' kept,
    apply_policy me half (hours 2) sample_heap = Ok (h', kept)
    /\ apply_policy me half (hours 2) h' = Ok (h', kept).
Proof.
  eassert (H : apply_policy me half (hours 2) sample_heap = Ok (_, _))
    by (vm_compute; reflexivity).
  eexists _, _. split; [exact H |].
  exact (apply_policy_idempotent me half (hours 2) sample_heap _ _ H).
Defined.

(** ** Submissions with dependencies, and submissions in a row *)


Lemma write_all_prefix (pre : list pystr) (e : exn) (post : list (result pystr))
    (st : submit_state) :
  write_all (map Ok pre ++ Raise e :: post) st
  = (Raise e, {| self_queue := self_queue st; trace := trace st ++ map Write pre |}).
Proof.
  revert st. induction pre as [|w pre IH]; intros st.
  - destruct st. cbn. rewrite app_nil_r. reflexivity.
  - cbn [map app write_all]. unfold bind at 1, lift at 1, bind at 1, effect at 1.
    rewrite IH. cbn [self_queue trace]. rewrite <- app_assoc. reflexivity.
Qed.

Lemma stops_at_app (e : exn) (ws1 ws2 : list (result pystr)) :
  all_oks ws1 -> stops_at e ws2 -> stops_at e (ws1 ++ ws2).
Proof.
  intros (oks & ->) (pre & post & ->). exists (oks ++ pre), post.
  rewrite map_app, <- app_assoc. reflexivity.
Qed.

Lemma when_set_oks (opt : string) (v : option pystr) : all_oks (when_set opt v).
Proof. destruct v as [x|]; [exists [directive opt x] | exists []]; reflexivity. Qed.

Ltac oks :=
  first [ apply when_set_oks
        | exists []; reflexivity
        | eexists [_]; reflexivity
        | eexists [_; _]; reflexivity ].

Lemma script_stops_at_dependencies (a : Submit.args) :
  Submit.dependencies a <> [] -> stops_at TypeError (script a).
Proof.
  intros Hd. unfold script.
  apply stops_at_app; [oks |].
  apply stops_at_app; [destruct (1 <? Submit.proccount a); oks |].
  do 5 (apply stops_at_app; [oks |]).
  apply stops_at_app; [destruct (Submit.attrs a); oks |].
  destruct (Submit.dependencies a) as [|d ds]; [contradiction |].
  eexists [], _. reflexivity.
Qed.

(** X10: [submit] cannot pass dependencies on. With a non-empty
    [dependencies] list, a request that passes both admission checks and
    gets its temporary file raises [TypeError] while writing the script
    ([join] is given integers): the file has been created and the first
    lines of the script passed to [file.write], the file is not made
    executable, [qsub] is never run, and the queue is as it was. *)
Theorem submit_with_dependencies_fails :
  forall (user : pystr) (sys : host) (js : list Job.t) (a : Submit.args)
         (st : submit_state) (path : pystr),
    Submit.dependencies a <> [] ->
    admission user js (self_queue st) a = None ->
    tmpfile sys = Ok path ->
    exists written,
      Queue_submit user sys js a st
      = (Raise TypeError,
         {| self_queue := self_queue st;
            trace := trace st ++ Mkstemp path :: map Write written |})
      /\ hd_error written = Some (str "#!/bin/bash" ++ nl ++ nl).
Proof.
  intros user sys js a st path Hd Ha Ht.
  destruct (script_stops_at_dependencies a Hd) as (pre & post & Hs).
  exists pre. split.
  - unfold Queue_submit, bind, get, lift, effect. rewrite Ha, Ht.
    cbn [self_queue trace]. rewrite Hs, write_all_prefix. cbn [self_queue trace].
    rewrite <- app_assoc. reflexivity.
  - unfold script in Hs. destruct pre as [|w pre]; [discriminate Hs |].
    injection Hs as <- _. reflexivity.
Qed.

Lemma submit_with_dependencies_sample :
  let st := {| self_queue := plain_queue "free" [] 4 10; trace := [] |} in
  let a := submit_with me (str "hostname") None [DepInt 41] in
  exists written,
    Queue_submit me (sample_host monday_noon) [] a st
    = (Raise TypeError,
       {| self_queue := self_queue st;
          trace := trace st ++ Mkstemp (str "/tmp/tmpq1w2e3.sh")
                             :: map Write written |}).
Proof.
  intros st a.
  destruct (submit_with_dependencies_fails me (sample_host monday_noon) [] a st
              (str "/tmp/tmpq1w2e3.sh"))
    as (written & E & _).
  - discriminate.
  - vm_compute. reflexivity.
  - reflexivity.
  - exists written. exact E.
Defined.


Lemma Queue_submit_self user sys js a st :
  let out := Queue_submit user sys js a st in
  (accepted (fst out) = false -> self_queue (snd out) = self_queue st)
  /\ (accepted (fst out) = true ->
      admission user js (self_queue st) a = None
      /\ self_queue (snd out)
         = Queue.set_maxusernodes (self_queue st)
             (Queue.maxusernodes (self_queue st) - 1)).
Proof.
  cbv zeta. unfold Queue_submit, bind, get, lift, put, ret, effect.
  cbn beta iota.
  destruct (admission user js (self_queue st) a) as [reason|] eqn:Ha.
  { split; [intros _; reflexivity | intros H; discriminate H]. }
  destruct (tmpfile sys) as [filename|e0].
  2:{ split; [intros _; reflexivity | intros H; discriminate H]. }
  cbn [self_queue trace].
  destruct (write_all_self (script a)
              {| self_queue := self_queue st;
                 trace := trace st ++ [Mkstemp filename] |}) as (r & tr & E).
  rewrite E. cbn [self_queue trace].
  destruct r as [[]|e1].
  2:{ split; [intros _; reflexivity | intros H; discriminate H]. }
  match goal with |- context [run sys ?c] => destruct (run sys c) as [output|e2] end.
  2:{ split; [intros _; reflexivity | intros H; discriminate H]. }
  destruct (py_int output) as [jobid|e3].
  2:{ split; [intros _; reflexivity | intros H; discriminate H]. }
  cbn [self_queue trace fst snd accepted].
  split; [intros H; discriminate H | intros _; split; reflexivity].
Qed.

Lemma admission_None_bound user js self a :
  admission user js self a = None ->
  num_used user js self + Submit.nodecount a <= Queue.maxusernodes self.
Proof.
  unfold admission.
  destruct (Z.ltb_spec (Queue.maxusernodes self)
              (num_used user js self + Submit.nodecount a));
    [intros E; discriminate E | intros _; lia].
Qed.

Lemma submit_repeatedly_count user sys js a k :
  forall st,
    let out := submit_repeatedly user sys js a k st in
    let n := Z.of_nat (length (List.filter accepted (fst out))) in
    Queue.maxusernodes (self_queue (snd out)) = Queue.maxusernodes (self_queue st) - n
    /\ Queue.jobs (self_queue (snd out)) = Queue.jobs (self_queue st)
    /\ n <= Z.max 0 (Queue.maxusernodes (self_queue st)
                     - num_used user js (self_queue st) - Submit.nodecount a + 1).
Proof.
  induction k as [|k IH]; intros st; cbv zeta.
  - cbn. split; [lia |]. split; [reflexivity | lia].
  - cbn [submit_repeatedly].
    pose proof (Queue_submit_self user sys js a st) as Hs. cbv zeta in Hs.
    destruct (Queue_submit user sys js a st) as [r st1].
    cbn [fst snd] in Hs. destruct Hs as [Hrej Hacc].
    specialize (IH st1). cbv zeta in IH.
    destruct (submit_repeatedly user sys js a k st1) as [rs st2].
    cbn [fst snd] in IH |- *. destruct IH as (IHm & IHj & IHn).
    cbn [List.filter]. destruct (accepted r) eqn:Hr.
    + destruct (Hacc eq_refl) as [Ha Hst1].
      apply admission_None_bound in Ha.
      rewrite Hst1 in IHm, IHj, IHn.
      unfold num_used in IHn |- *.
      cbn [Queue.maxusernodes Queue.jobs Queue.set_maxusernodes] in IHm, IHj, IHn.
      unfold num_used in Ha. cbn [length].
      split; [lia |]. split; [exact IHj | lia].
    + rewrite (Hrej eq_refl) in IHm, IHj, IHn. auto.
Qed.

(** X11: how many submissions in a row a queue accepts. After any number
    of calls of [submit] on the same queue with the same arguments,
    [maxusernodes] has gone down by exactly the number of accepted calls
    (by one per call, whatever [nodecount] is), the list of jobs of the
    queue is as it was, and the number of accepted calls is at most
    [maxusernodes - num_used - nodecount + 1], or none when that is
    negative: the user check ends up refusing. *)
Theorem submit_repeatedly_bound :
  forall (user : pystr) (sys : host) (js : list Job.t) (a : Submit.args)
         (k : nat) (st : submit_state),
    let out := submit_repeatedly user sys js a k st in
    let n := Z.of_nat (length (List.filter accepted (fst out))) in
    Queue.maxusernodes (self_queue (snd out)) = Queue.maxusernodes (self_queue st) - n
    /\ Queue.jobs (self_queue (snd out)) = Queue.jobs (self_queue st)
    /\ n <= Z.max 0 (Queue.maxusernodes (self_queue st)
                     - num_used user js (self_queue st) - Submit.nodecount a + 1).
Proof. intros user sys js a k st. apply submit_repeatedly_count. Qed.


(** ** Validation of the policy *)

Lemma digits2_pos_bounds (m : positive) :
  2 ^ (Zpos (digits2_pos m) - 1) <= Zpos m < 2 ^ Zpos (digits2_pos m).
Proof.
  induction m as [m IH|m IH|]; cbn [digits2_pos]; [| | cbn; lia].
  all: rewrite Pos2Z.inj_succ;
    replace (Z.succ (Zpos (digits2_pos m)) - 1)
      with (Z.succ (Zpos (digits2_pos m) - 1)) by lia;
    rewrite !Z.pow_succ_r by lia;
    generalize dependent (2 ^ (Zpos (digits2_pos m) - 1));
    generalize dependent (2 ^ Zpos (digits2_pos m)); intros; lia.
Qed.


Lemma gt_one_finite (m : positive) (e : Z) :
  bounded 53 1024 m e = true ->
  float_gt_one (S754_finite false m e) = negb (in_unit_interval (S754_finite false m e)).
Proof.
  unfold bounded, canonical_mantissa, fexp, emin. intros H.
  apply andb_true_iff in H as [Hc _]. apply Z.eqb_eq in Hc.
  pose proof (digits2_pos_bounds m) as [Hlo Hhi].
  set (d := Zpos (digits2_pos m)) in *.
  assert (Hd : 0 < d) by (subst d; lia).
  unfold float_gt_one, SFltb, SFcompare, in_unit_interval.
  destruct (Z.compare_spec (-52) e) as [<-|Hlt|Hgt].
  - change (-52 <? 0) with true. change (- -52) with 52. cbn [andb].
    change (2 ^ 52) with 4503599627370496.
    rewrite Pos.compare_cont_spec. cbn [Pos.switch_Eq].
    destruct (Pos.compare_spec 4503599627370496 m) as [<-|H|H].
    + clear. vm_compute. reflexivity.
    + symmetry. apply negb_true_iff, Z.leb_gt. exact (Pos2Z.pos_lt_pos _ _ H).
    + symmetry. apply negb_false_iff, Z.leb_le, Z.lt_le_incl. exact (Pos2Z.pos_lt_pos _ _ H).
  - symmetry. apply negb_true_iff, andb_false_iff.
    destruct (Z.ltb_spec e 0) as [He|He]; [right | left; reflexivity].
    apply Z.leb_gt.
    assert (d = 53) by (clear Hlo Hhi; lia).
    assert (2 ^ (- e) <= 2 ^ 51) by (apply Z.pow_le_mono_r; clear Hlo Hhi; lia).
    assert (2 ^ 52 <= Zpos m) by (replace 52 with (d - 1) by (clear Hlo Hhi; lia); exact Hlo).
    change (2 ^ 51) with 2251799813685248 in *.
    change (2 ^ 52) with 4503599627370496 in *. clear Hlo Hhi Hc. 
    generalize dependent (2 ^ (- e)). intros. lia.
  - symmetry. apply negb_false_iff, andb_true_iff.
    split; [apply Z.ltb_lt; lia |]. apply Z.leb_le.
    assert (d <= 53) by (clear Hlo Hhi; lia).
    assert (2 ^ d <= 2 ^ 53) by (apply Z.pow_le_mono_r; clear Hlo Hhi; lia).
    assert (2 ^ 53 <= 2 ^ (- e)) by (apply Z.pow_le_mono_r; clear Hlo Hhi; lia).
    clear Hlo Hc. generalize dependent (2 ^ (- e)). generalize dependent (2 ^ d).
    generalize dependent (2 ^ 53). intros. lia.
Qed.

(** X12: what [UserPolicy.__init__] accepts. For a binary64
    [max_occupancy], the policy is built exactly when the value lies in
    ]0, 1] or is not a number ([nan] passes both comparisons); in every
    other case (zero of either sign, negative, above one, infinite) it
    raises [ValueError]. [office_max_occupancy] is not checked at all. *)
Theorem UserPolicy_init_validation :
  forall (office_day_start office_day_stop : timedelta)
         (office_max_occupancy max_occupancy : pyfloat)
         (office_maxtime maxtime : timedelta),
    valid_binary 53 1024 max_occupancy = true ->
    UserPolicy_init office_day_start office_day_stop office_max_occupancy
      max_occupancy office_maxtime maxtime
    = if in_unit_interval max_occupancy || is_nan max_occupancy
      then Ok (UserPolicy.mk office_day_start office_day_stop
                 office_max_occupancy max_occupancy office_maxtime maxtime)
      else Raise ValueError.
Proof.
  intros a b omo mo c d Hv. unfold UserPolicy_init.
  destruct mo as [s|s| |s m e].
  - reflexivity.
  - destruct s; reflexivity.
  - reflexivity.
  - destruct s; [reflexivity |].
    cbn [valid_binary] in Hv. rewrite (gt_one_finite m e Hv).
    change (float_le_zero (S754_finite false m e)) with false.
    cbn [orb is_nan]. rewrite orb_false_r.
    destruct (in_unit_interval (S754_finite false m e)); reflexivity.
Qed.

Lemma UserPolicy_init_validation_half :
  valid_binary 53 1024 half = true
  /\ UserPolicy_init (hours 7) (hours 21) quarter half (minutes 30) (hours 2)
     = Ok nice_user.
Proof.
  assert (H : valid_binary 53 1024 half = true) by reflexivity.
  split; [exact H |].
  rewrite (UserPolicy_init_validation (hours 7) (hours 21) quarter half
             (minutes 30) (hours 2) H).
  reflexivity.
Defined.

(** ** The errors of [Job.from_string] *)

(** Pieces free of the separator, joined by it, split back into the
    pieces. *)
Lemma split_go_pieces (c : ascii) (us : list pystr) :
  forall w0,
    Forall (fun u => forallb (fun a => negb (Ascii.eqb c a)) u = true) (w0 :: us) ->
    split_go [c] 0 [] (w0 ++ concat (map (fun u => c :: u) us)) = w0 :: us.
Proof.
  induction us as [|u us IH]; intros w0 H.
  - cbn [map concat]. rewrite app_nil_r. apply Forall_inv in H.
    apply (split_go_end c w0 [] H).
  - cbn [map concat]. rewrite <- app_comm_cons.
    rewrite (split_go_piece c w0 [] _ (Forall_inv H)). cbn [rev app].
    f_equal. apply IH, (Forall_inv_tail H).
Qed.

Lemma lang_sep_list (item : regex) (c : ascii) (n : nat) (w : pystr) :
  lang (Seq item (Star (Group n (Seq (Lit [c]) item)))) w ->
  exists w0 us,
    w = w0 ++ concat (map (fun u => c :: u) us)
    /\ lang item w0 /\ Forall (lang item) us.
Proof.
  intros (w0 & r & -> & H0 & ws & -> & Hws). exists w0.
  induction Hws as [|v ws Hv _ (us & E & _ & Hus)].
  - exists []. split; [reflexivity |]. split; [exact H0 | constructor].
  - cbn [lang] in Hv. destruct Hv as (l & u & -> & Hl & Hu).
    apply (lang_Lit [c]) in Hl. subst l.
    apply app_inv_head in E.
    exists (u :: us). split; [| split; [exact H0 | constructor; assumption]].
    cbn [map concat app]. rewrite E. reflexivity.
Qed.

Lemma host_char_no_sep (a : ascii) :
  host_char a = true -> Ascii.eqb ":" a = false /\ Ascii.eqb "=" a = false.
Proof.
  destruct a as [[] [] [] [] [] [] [] []]; vm_compute; intros H;
    try discriminate H; split; reflexivity.
Qed.

Lemma digit_no_colon (a : ascii) : is_digit a = true -> Ascii.eqb ":" a = false.
Proof.
  destruct a as [[] [] [] [] [] [] [] []]; vm_compute; intros H;
    try discriminate H; reflexivity.
Qed.

(** The [Dependencies] field: its pieces are runs of digits, which [int]
    takes unless one is longer than 4300 digits. *)
Lemma dependencies_field_cases (s : pystr) :
  (exists r, dependencies_field s = Ok r)
  \/ (dependencies_field s = Raise ValueError /\ short s = false).
Proof.
  unfold dependencies_field.
  destruct (re_match JobRe.dependencies_re s) as [m|] eqn:E; [| eauto].
  apply field_match_len in E as (w & Hg & Hw & Hlen).
  unfold text. rewrite Hg. cbn [rbind].
  change (str ":") with [":"%char] in Hw.
  pose proof (split_length ":" w) as Hpieces. unfold split in Hpieces |- *.
  change (str ":") with [":"%char] in Hpieces |- *.
  apply lang_sep_list in Hw as (w0 & us & -> & H0 & Hus).
  assert (Hdig : Forall (fun u => is_digits u = true) (w0 :: us)).
  { constructor; [apply lang_digits, H0 |].
    eapply Forall_impl; [exact Hus |]. intros u. apply lang_digits. }
  rewrite split_go_pieces in Hpieces |- *;
    try (eapply Forall_impl; [exact Hdig |]; intros u Hu;
         apply andb_true_iff in Hu as [_ Hu];
         eapply forallb_no_sep; [apply digit_no_colon | exact Hu]).
  assert (Hall : Forall (fun u => is_digits u = true /\ (length u <= length s)%nat)
                   (w0 :: us)).
  { apply List.Forall_forall. intros u Hu. split.
    - exact (proj1 (List.Forall_forall _ _) Hdig u Hu).
    - pose proof (Hpieces u Hu). lia. }
  clear Hpieces Hdig H0 Hus Hlen Hg.
  match goal with
  | |- context [@filter _ _ _ ?P ?D (w0 :: us)] =>
      assert (H : forall l,
                 Forall (fun u => is_digits u = true /\ (length u <= length s)%nat) l ->
                 (exists ds, mapM py_int (@filter _ _ _ P D l) = Ok ds)
                 \/ (mapM py_int (@filter _ _ _ P D l) = Raise ValueError
                     /\ short s = false))
  end.
  { clear. intros l Hall.
    induction Hall as [|u l [Hu Hlen] _ IH]; [left; exists []; reflexivity |].
    assert (Hne : str_eqb u [] = false).
    { unfold str_eqb. apply bool_decide_eq_false. intros ->. discriminate Hu. }
    rewrite filter_cons_True by (rewrite Hne; exact I).
    cbn [mapM]. rewrite (py_int_digits u Hu).
    destruct (short u) eqn:Es; cbn [rbind].
    - destruct IH as [(ds & ->)|[-> Hs]]; cbn [rbind]; eauto.
    - right. split; [reflexivity | exact (long_sub u s Hlen Es)]. }
  destruct (H _ Hall) as [(ds & Hds)|[Hds Hs]]; unfold pystr in *; rewrite Hds;
    cbn [rbind]; eauto.
Qed.

Lemma lang_env_kv (u : pystr) :
  lang JobRe.env_kv u ->
  exists k v, u = k ++ "="%char :: v
              /\ forallb host_char k = true /\ forallb host_char v = true.
Proof.
  unfold JobRe.env_kv. cbn [Cat]. intros (k & r & -> & Hk & l & v & -> & Hl & Hv).
  apply lang_Lit in Hl. subst l.
  apply lang_Plus_Cls in Hk as [_ Hk], Hv as [_ Hv].
  exists k, v. split; [reflexivity | split; assumption].
Qed.

Lemma envs_of_ok (kvs : list pystr) :
  Forall (lang JobRe.env_kv) kvs -> forall d, exists d', envs_of kvs d = Ok d'.
Proof.
  induction 1 as [|u kvs Hu _ IH]; intros d; [exists d; reflexivity |].
  apply lang_env_kv in Hu as (k & v & -> & Hk & Hv).
  cbn [envs_of]. unfold split. change (str "=") with ["="%char].
  replace (k ++ "="%char :: v)
    with (k ++ concat (map (fun u => "="%char :: u) [v]))
    by (cbn [map concat]; rewrite app_nil_r; reflexivity).
  rewrite split_go_pieces.
  2:{ constructor; [| constructor; [| constructor]];
        (eapply forallb_no_sep; [intros a Ha; apply (host_char_no_sep a Ha) |]);
        assumption. }
  cbn [index lookup list_lookup rbind]. apply IH.
Qed.

(** The [Envs] field always reads: every piece holds an equals sign. *)
Lemma envs_field_ok (s : pystr) : exists r, envs_field s = Ok r.
Proof.
  unfold envs_field.
  destruct (re_match JobRe.envs_re s) as [m|] eqn:E; [| eauto].
  apply text_field_match in E as (w & -> & _ & Hw). cbn [rbind].
  change (str ":") with [":"%char] in Hw.
  apply lang_sep_list in Hw as (w0 & us & -> & H0 & Hus).
  assert (Hall : Forall (lang JobRe.env_kv) (w0 :: us)) by (constructor; assumption).
  unfold split. change (str ":") with [":"%char].
  rewrite split_go_pieces.
  2:{ eapply Forall_impl; [exact Hall |]. intros u Hu.
      apply lang_env_kv in Hu as (k & v & -> & Hk & Hv).
      rewrite forallb_app. cbn [forallb].
      rewrite (forallb_no_sep host_char ":" k), (forallb_no_sep host_char ":" v);
        try assumption; try (intros a Ha; apply (host_char_no_sep a Ha)).
      reflexivity. }
  destruct (envs_of_ok (w0 :: us) Hall []) as (d & Hd).
  unfold pystr in *. rewrite Hd. cbn [rbind]. eauto.
Qed.

Lemma location_field_cases (s : pystr) :
  (exists hosts, location_field s = Ok hosts)
  \/ location_field s = Raise AttributeError
  \/ (location_field s = Raise ValueError /\ short s = false).
Proof.
  unfold location_field.
  destruct (re_match JobRe.location_re s) as [m|] eqn:E; [| eauto].
  apply field_match_len in E as (w & Hg & _ & Hlen).
  unfold text. rewrite Hg. cbn [rbind].
  destruct (expand_locations_cases w (split "," w)) as [C1 C2].
  { intros l Hl. exact (split_length "," w l Hl). }
  destruct (existsb bad_lead (split "," w)).
  - destruct (C1 eq_refl) as [H|[H Hs]]; [auto |].
    right. right. split; [exact H | exact (long_sub w s Hlen Hs)].
  - destruct (C2 eq_refl) as [(hosts & H & _)|[H Hs]]; [eauto |].
    right. right. split; [exact H | exact (long_sub w s Hlen Hs)].
Qed.

(** X13: what [Job.from_string] can raise. Whatever the text, a failure is
    an [AttributeError] (no [JobID] or [Queue] field, or a location
    fragment that cannot be read), the [OverflowError] of [timedelta] on a
    duration field, the [ValueError] of [int] on a run of more than 4300
    digits, in a text longer than that, or what [eval] raised on the
    [attrs] field: the [user_list] and [Envs] fields never fail, and the
    patterns of the [JobID], [Nodes], [Procs], [Dependencies], duration
    and location fields let through only digits where [int] is called. And
    a record of at most 4300 characters with a [JobID] and a [Queue] field
    and no [Location], [attrs] and duration field is always read. *)
Theorem Job_from_string_errors :
  forall (py_eval : pystr -> result pyval) (s : pystr),
    (forall e,
        Job_from_string py_eval s = Raise e ->
        e = AttributeError \/ e = OverflowError
        \/ (e = ValueError /\ short s = false)
        \/ exists src, py_eval src = Raise e)
    /\ (is_Some (re_match JobRe.jobid_re s) ->
        is_Some (re_match JobRe.queue_re s) ->
        re_match JobRe.location_re s = None ->
        re_match JobRe.attrs_re s = None ->
        (forall p, In p [JobRe.walltime_re; JobRe.runtime_re; JobRe.starttime_re;
                         JobRe.queuedtime_re; JobRe.remainingtime_re] ->
                   re_match p s = None) ->
        short s = true ->
        exists j, Job_from_string py_eval s = Ok j).
Proof.
  intros py_eval s.
  pose proof (jobid_cases s) as Hid. cbv zeta in Hid.
  pose proof (queue_name_cases s) as Hq. cbv zeta in Hq.
  assert (Hu : exists v, match re_match JobRe.users_re s with
                         | None => Ok None
                         | Some m => do g <- text m 1; Ok (Some (split ":" g))
                         end = Ok v).
  { destruct (re_match JobRe.users_re s) as [m|] eqn:E; [| eauto].
    apply text_field_match in E as (w & -> & _). cbn [rbind]. eauto. }
  pose proof (duration_field_cases "WallTime" 0 s) as Hw.
  pose proof (duration_field_cases "RunTime" 0 s) as Hr.
  pose proof (duration_field_cases "StartTime" 0 s) as Hs.
  pose proof (duration_field_cases "QueuedTime" 0 s) as Hqt.
  pose proof (duration_field_cases "TimeRemaining" 0 s) as Hrt.
  fold JobRe.walltime_re in Hw. fold JobRe.runtime_re in Hr.
  fold JobRe.starttime_re in Hs. fold JobRe.queuedtime_re in Hqt.
  fold JobRe.remainingtime_re in Hrt.
  pose proof (int_field_cases "Nodes" 0 s) as Hn.
  pose proof (int_field_cases "Procs" 0 s) as Hp.
  fold JobRe.nodecount_re in Hn. fold JobRe.proccount_re in Hp.
  pose proof (location_field_cases s) as Hl.
  destruct (envs_field_ok s) as (envs & He).
  pose proof (dependencies_field_cases s) as Hd.
  unfold Job_from_string. split.
  - intros e.
    destruct Hid as [(jobid & -> & _)|[[-> _]|[-> Hlong]]]; cbn [rbind];
      [| intros H; injection H as <-; auto | intros H; injection H as <-; auto].
    destruct Hq as [(queue & -> & _)|[-> _]]; cbn [rbind];
      [| intros H; injection H as <-; auto].
    destruct Hu as (users & ->). cbn [rbind].
    destruct Hw as [(walltime & -> & _)|[->|[-> Hlong]]]; cbn [rbind];
      [| intros H; injection H as <-; auto | intros H; injection H as <-; auto].
    destruct Hr as [(runtime & -> & _)|[->|[-> Hlong]]]; cbn [rbind];
      [| intros H; injection H as <-; auto | intros H; injection H as <-; auto].
    destruct Hs as [(start_time & -> & _)|[->|[-> Hlong]]]; cbn [rbind];
      [| intros H; injection H as <-; auto | intros H; injection H as <-; auto].
    destruct Hqt as [(queued_time & -> & _)|[->|[-> Hlong]]]; cbn [rbind];
      [| intros H; injection H as <-; auto | intros H; injection H as <-; auto].
    destruct Hrt as [(remaining_time & -> & _)|[->|[-> Hlong]]]; cbn [rbind];
      [| intros H; injection H as <-; auto | intros H; injection H as <-; auto].
    destruct Hn as [(nodes & -> & _)|[-> Hlong]]; cbn [rbind];
      [| intros H; injection H as <-; auto].
    destruct Hp as [(procs & -> & _)|[-> Hlong]]; cbn [rbind];
      [| intros H; injection H as <-; auto].
    destruct Hl as [(location & ->)|[->|[-> Hlong]]]; cbn [rbind];
      [| intros H; injection H as <-; auto | intros H; injection H as <-; auto].
    rewrite He. cbn [rbind]. unfold attrs_field.
    destruct (re_match JobRe.attrs_re s) as [m|] eqn:Ea; cbn [rbind].
    + apply text_field_match in Ea as (w & -> & _). cbn [rbind].
      destruct (py_eval w) as [v|e'] eqn:Ev; cbn [rbind].
      * destruct Hd as [(deps & ->)|[-> Hlong]]; cbn [rbind]; intros H;
          [discriminate H | injection H as <-; auto].
      * intros H. injection H as <-. right. right. right. eauto.
    + destruct Hd as [(deps & ->)|[-> Hlong]]; cbn [rbind]; intros H;
        [discriminate H | injection H as <-; auto].
  - intros [mi Hmi] [mq Hmq] Hloc Hattrs Hdur Hshort.
    destruct Hid as [(jobid & -> & _)|[[_ E]|[_ E]]];
      [| rewrite E in Hmi; discriminate Hmi | rewrite E in Hshort; discriminate Hshort].
    destruct Hq as [(queue & -> & _)|[_ E]]; [| rewrite E in Hmq; discriminate Hmq].
    destruct Hu as (users & ->). cbn [rbind].
    unfold duration_field.
    rewrite !Hdur by (cbn [In]; auto 10).
    cbn [rbind].
    destruct Hn as [(nodes & -> & _)|[_ E]];
      [| rewrite E in Hshort; discriminate Hshort].
    destruct Hp as [(procs & -> & _)|[_ E]];
      [| rewrite E in Hshort; discriminate Hshort].
    cbn [rbind].
    unfold location_field, attrs_field. rewrite Hloc, Hattrs, He. cbn [rbind].
    destruct Hd as [(deps & ->)|[_ E]];
      [| rewrite E in Hshort; discriminate Hshort].
    cbn [rbind]. eauto.
Qed.

(** A record with environment variables and dependencies. *)
Lemma Job_from_string_errors_sample :
  let s := lines ["JobID: 7"; "Queue: debug"; "Envs: A=1:B=2";
                  "Dependencies: 3:4"] in
  exists j, Job_from_string no_eval s = Ok j.
Proof.
  intros s. apply (proj2 (Job_from_string_errors no_eval s)).
  - eexists. vm_compute. reflexivity.
  - eexists. vm_compute. reflexivity.
  - vm_compute. reflexivity.
  - vm_compute. reflexivity.
  - intros p [<-|[<-|[<-|[<-|[<-|[]]]]]]; vm_compute; reflexivity.
  - vm_compute. reflexivity.
Defined.

(** ** Accepted submissions *)

Lemma all_oks_app (ws1 ws2 : list (result pystr)) :
  all_oks ws1 -> all_oks ws2 -> all_oks (ws1 ++ ws2).
Proof.
  intros (o1 & ->) (o2 & ->). exists (o1 ++ o2). rewrite map_app. reflexivity.
Qed.

Lemma script_all_oks (a : Submit.args) :
  Submit.dependencies a = [] -> all_oks (script a).
Proof.
  intros Hd. unfold script. rewrite Hd.
  repeat (apply all_oks_app;
          [first [oks | destruct (1 <? Submit.proccount a); oks
                 | destruct (Submit.attrs a); oks
                 | destruct (Submit.geometry a); oks
                 | destruct (Submit.env a); oks
                 | destruct (Submit.hold a); oks
                 | destruct (Submit.cwd a); oks] |]).
  oks.
Qed.

Lemma write_all_oks (oks : list pystr) (st : submit_state) :
  write_all (map Ok oks) st
  = (Ok tt, {| self_queue := self_queue st; trace := trace st ++ map Write oks |}).
Proof.
  revert st. induction oks as [|w oks IH]; intros st.
  - destruct st. cbn. rewrite app_nil_r. reflexivity.
  - cbn [map write_all]. unfold bind at 1, lift at 1, bind at 1, effect at 1.
    rewrite IH. cbn [self_queue trace]. rewrite <- app_assoc. reflexivity.
Qed.

Lemma Queue_submit_accepted_inv user sys js a st job :
  fst (Queue_submit user sys js a st) = Ok job ->
  admission user js (self_queue st) a = None
  /\ Submit.dependencies a = []
  /\ exists filename written output,
      tmpfile sys = Ok filename
      /\ map Ok written = script a
      /\ run sys (qsub_command (self_queue st) a filename) = Ok output
      /\ py_int output = Ok (Job.jobid job)
      /\ job = submitted_job user sys (self_queue st) a (Job.jobid job)
      /\ snd (Queue_submit user sys js a st)
         = {| self_queue := Queue.set_maxusernodes (self_queue st)
                              (Queue.maxusernodes (self_queue st) - 1);
              trace := trace st ++ Mkstemp filename :: map Write written
                       ++ [Chmod filename;
                           Exec (qsub_command (self_queue st) a filename)] |}.
Proof.
  destruct (Queue_submit user sys js a st) as [r st'] eqn:E.
  cbn [fst snd]. intros ->.
  unfold Queue_submit, bind, get, lift, put, ret in E.
  destruct (admission user js (self_queue st) a) as [reason|] eqn:Ha;
    [discriminate E |].
  destruct (tmpfile sys) as [filename|e0] eqn:Ht; [| discriminate E].
  unfold effect at 1 in E. cbn [self_queue trace] in E.
  destruct (Submit.dependencies a) as [|d ds] eqn:Hd.
  2:{ destruct (script_stops_at_dependencies a) as (pre & post & Hs);
        [rewrite Hd; discriminate |].
      rewrite Hs, write_all_prefix in E. discriminate E. }
  destruct (script_all_oks a Hd) as (written & Hs).
  rewrite Hs, write_all_oks in E. unfold effect in E. cbn [self_queue trace] in E.
  match type of E with
  | context [run sys ?c] =>
      change c with (qsub_command (self_queue st) a filename) in E
  end.
  destruct (run sys (qsub_command (self_queue st) a filename)) as [output|e2] eqn:Hr;
    [| discriminate E].
  destruct (py_int output) as [jobid|e3] eqn:Hi; [| discriminate E].
  cbn [self_queue trace] in E. injection E as <- <-.
  split; [reflexivity |]. split; [reflexivity |].
  exists filename, written, output. cbn [Job.jobid].
  split; [reflexivity |]. split; [symmetry; exact Hs |].
  split; [exact Hr |]. split; [exact Hi |]. split; [reflexivity |].
  rewrite <- !app_assoc. reflexivity.
Qed.

Lemma Queue_submit_accepted_intro user sys js a st filename output jobid :
  admission user js (self_queue st) a = None ->
  Submit.dependencies a = [] ->
  tmpfile sys = Ok filename ->
  run sys (qsub_command (self_queue st) a filename) = Ok output ->
  py_int output = Ok jobid ->
  fst (Queue_submit user sys js a st)
  = Ok (submitted_job user sys (self_queue st) a jobid).
Proof.
  intros Ha Hd Ht Hr Hi.
  unfold Queue_submit, bind, get, lift, put, ret. rewrite Ha, Ht.
  unfold effect at 1. cbn [self_queue trace].
  destruct (script_all_oks a Hd) as (written & Hs).
  rewrite Hs, write_all_oks. unfold effect. cbn [self_queue trace].
  fold (requested_time (self_queue st) a).
  fold (qsub_command (self_queue st) a filename).
  rewrite Hr, Hi. reflexivity.
Qed.

(** X14: when [submit] returns a job, and what it has done by then. It
    returns exactly when both admission checks pass, the list of
    dependencies is empty, the temporary file is obtained, the [qsub]
    command runs and its output reads as an integer. The job returned is
    the one built from the arguments: its queue is the name of the queue,
    not the queue, its user the local user, its state [queued]. The
    trace is then: the temporary file, the calls of [file.write] with the
    lines of the script, [chmod], and the [qsub] command, in this order
    and nothing else. *)
Theorem submit_accepted_iff :
  forall (user : pystr) (sys : host) (js : list Job.t) (a : Submit.args)
         (st : submit_state),
    let self := self_queue st in
    let out := Queue_submit user sys js a st in
    ((exists job, fst out = Ok job)
     <-> admission user js self a = None
         /\ Submit.dependencies a = []
         /\ exists filename output jobid,
             tmpfile sys = Ok filename
             /\ run sys (qsub_command self a filename) = Ok output
             /\ py_int output = Ok jobid)
    /\ forall job,
        fst out = Ok job ->
        job = submitted_job user sys self a (Job.jobid job)
        /\ exists filename written,
            map Ok written = script a
            /\ trace (snd out)
               = trace st ++ Mkstemp filename :: map Write written
                 ++ [Chmod filename; Exec (qsub_command self a filename)].
Proof.
  intros user sys js a st self out. split; [split |].
  - intros (job & H).
    apply Queue_submit_accepted_inv in H
        as (Ha & Hd & filename & written & output & Ht & _ & Hr & Hi & _).
    split; [exact Ha |]. split; [exact Hd |]. eauto 6.
  - intros (Ha & Hd & filename & output & jobid & Ht & Hr & Hi).
    eexists. eapply Queue_submit_accepted_intro; eassumption.
  - intros job H.
    apply Queue_submit_accepted_inv in H
        as (_ & _ & filename & written & output & _ & Hs & _ & _ & Hj & Hst).
    split; [exact Hj |]. exists filename, written. split; [exact Hs |].
    subst out. rewrite Hst. reflexivity.
Qed.

(** A request with room on a free queue is accepted. *)
Lemma submit_accepted_iff_sample :
  let st := {| self_queue := plain_queue "free" [] 4 10; trace := [] |} in
  let a := submit_with me (str "hostname") None [] in
  exists job, fst (Queue_submit me (sample_host monday_noon) [] a st) = Ok job.
Proof.
  intros st a.
  apply (proj2 (proj1 (submit_accepted_iff me (sample_host monday_noon) [] a st))).
  split; [vm_compute; reflexivity |]. split; [reflexivity |].
  eexists _, _, _. split; [reflexivity |].
  split; vm_compute; reflexivity.
Defined.

(** X15: the policy caps the wall time of what is submitted next. On a
    queue that went through the loop of [UserPolicy.get_queues] with the
    ceiling [T], a call of [submit] without [time] that returns a job has
    asked [qsub] for the [maxtime] of the queue, which is at most [T]; the
    job carries it as [walltime] and [remaining_time]. *)
Theorem policy_caps_walltime :
  forall (user : pystr) (f : pyfloat) (T : timedelta) (h h' : heap)
         (kept : list nat) (i : nat) (q' : Queue.t)
         (sys : host) (js : list Job.t) (a : Submit.args)
         (st : submit_state) (job : Job.t),
    apply_policy user f T h = Ok (h', kept) ->
    h_queues h' !! i = Some q' ->
    self_queue st = q' ->
    Submit.time a = None ->
    fst (Queue_submit user sys js a st) = Ok job ->
    exists w,
      Job.walltime job = Some w
      /\ Job.remaining_time job = Some w
      /\ total_us w <= total_us T
      /\ exists filename,
          last (trace (snd (Queue_submit user sys js a st)))
          = Some (Exec (str "qsub --queue " ++ Queue.name q' ++ str " -n "
                        ++ str_of_int (Submit.nodecount a) ++ str " -t "
                        ++ timedelta_str w
                        ++ (match Submit.jobname a with
                            | Some n => str " --jobname " ++ n
                            | None => []
                            end)
                        ++ str " " ++ filename)).
Proof.
  intros user f T h h' kept i q' sys js a st job Hp Hi Hq Ht H.
  apply Queue_submit_accepted_inv in H
      as (_ & _ & filename & written & output & _ & _ & _ & _ & Hj & Hst).
  unfold apply_policy in Hp.
  apply rbind_Ok_inv in Hp as (qs & Hqs & Hp). injection Hp as <- <-.
  cbn [h_queues] in Hi.
  destruct (mapM_Ok_lookup _ _ _ Hqs) as [_ Hnth].
  destruct (Hnth i q' Hi) as (q & _ & Hadj).
  apply adjust_inv in Hadj as (n & _ & _ & Hq').
  exists (Queue.maxtime q').
  assert (Hreq : requested_time (self_queue st) a = Queue.maxtime q').
  { unfold requested_time. rewrite Ht, Hq. reflexivity. }
  rewrite Hj. unfold submitted_job. cbn [Job.walltime Job.remaining_time].
  rewrite Hreq. split; [reflexivity |]. split; [reflexivity |].
  split.
  - rewrite Hq'. cbn [Queue.maxtime Queue.set_maxtime]. rewrite total_us_td_min. lia.
  - exists filename. rewrite Hst. cbn [trace].
    replace (trace st ++ Mkstemp filename :: map Write written
             ++ [Chmod filename; Exec (qsub_command (self_queue st) a filename)])
      with ((trace st ++ Mkstemp filename :: map Write written ++ [Chmod filename])
            ++ [Exec (qsub_command (self_queue st) a filename)])
      by (rewrite <- app_assoc; cbn [app]; rewrite <- app_assoc; reflexivity).
    rewrite last_snoc. unfold qsub_command. rewrite Hreq, Hq. reflexivity.
Qed.

Lemma policy_caps_walltime_sample :
  exists h' kept q' job w,
    apply_policy me half (hours 2) sample_heap = Ok (h', kept)
    /\ h_queues h' !! 0%nat = Some q'
    /\ fst (Queue_submit me (sample_host monday_noon) (h_jobs sample_heap)
              (submit_with me (str "hostname") None [])
              {| self_queue := q'; trace := [] |}) = Ok job
    /\ Job.walltime job = Some w
    /\ total_us w <= total_us (hours 2).
Proof.
  eassert (H : apply_policy me half (hours 2) sample_heap = Ok (_, _))
    by (vm_compute; reflexivity).
  match type of H with
  | _ = Ok (?h, _) => eassert (Hq : h_queues h !! 0%nat = Some _) by reflexivity
  end.
  match type of Hq with
  | _ = Some ?q =>
      eassert (Hs : fst (Queue_submit me (sample_host monday_noon)
                           (h_jobs sample_heap)
                           (submit_with me (str "hostname") None [])
                           {| self_queue := q; trace := [] |}) = Ok _)
        by (vm_compute; reflexivity)
  end.
  match type of Hs with
  | fst (Queue_submit _ _ _ _ ?st) = _ =>
      destruct (policy_caps_walltime me half (hours 2) sample_heap _ _ 0%nat _
                  (sample_host monday_noon) (h_jobs sample_heap)
                  (submit_with me (str "hostname") None [])
                  st _ H Hq eq_refl eq_refl Hs)
        as (w & Hw & _ & Hle & _)
  end.
  eexists _, _, _, _, w.
  split; [exact H |]. split; [exact Hq |]. split; [exact Hs |].
  split; [exact Hw | exact Hle].
Defined.

Lemma string_of_uint_no_space (d : Decimal.uint) :
  forallb no_space (str (NilEmpty.string_of_uint d)) = true.
Proof. induction d; cbn; auto. Qed.

Lemma str_of_int_no_space (n : Z) : forallb no_space (str_of_int n) = true.
Proof.
  unfold str_of_int, NilZero.string_of_int.
  destruct (Z.to_int n) as [d|d]; unfold NilZero.string_of_uint.
  - destruct d; try reflexivity; apply string_of_uint_no_space.
  - cbn [str list_ascii_of_string forallb].
    destruct d; try reflexivity; apply string_of_uint_no_space.
Qed.

Lemma pad_left_no_space (width : nat) (w : pystr) :
  forallb no_space w = true -> forallb no_space (pad_left width w) = true.
Proof.
  intros H. unfold pad_left. rewrite forallb_app, H, andb_true_r.
  induction (width - length w)%nat as [|k IH]; [reflexivity | exact IH].
Qed.

Lemma forallb_no_space_In (w : pystr) :
  forallb no_space w = true <-> ~ In " "%char w.
Proof.
  rewrite forallb_forall. split.
  - intros H Hin. specialize (H _ Hin). discriminate H.
  - intros H c Hc. unfold no_space. apply negb_true_iff, Ascii.eqb_neq.
    intros ->. exact (H Hc).
Qed.

Lemma timedelta_str_space (t : timedelta) :
  In " "%char (timedelta_str t) <-> ~ (0 <= total_us t < us_per_day).
Proof.
  unfold timedelta_str.
  set (days := total_us t / us_per_day).
  set (rest := total_us t mod us_per_day).
  set (hms := str_of_int (rest / 1000000 / 3600) ++ str ":"
              ++ pad_left 2 (str_of_int ((rest / 1000000 / 60) mod 60))
              ++ str ":" ++ pad_left 2 (str_of_int ((rest / 1000000) mod 60))).
  assert (Hhms : forallb no_space hms = true).
  { subst hms. rewrite !forallb_app, !pad_left_no_space, !str_of_int_no_space
      by apply str_of_int_no_space. reflexivity. }
  assert (Hday : days = 0 <-> 0 <= total_us t < us_per_day).
  { subst days. unfold us_per_day. split.
    - intros H. apply Z.div_small_iff in H; lia.
    - intros H. apply Z.div_small. exact H. }
  destruct (Z.eqb_spec days 0) as [H0|H0].
  - split; [| intros H; exfalso; apply H, Hday, H0].
    intros Hin. exfalso. revert Hin. apply forallb_no_space_In.
    destruct (rest mod 1000000 =? 0); [exact Hhms |].
    rewrite !forallb_app, Hhms, pad_left_no_space by apply str_of_int_no_space.
    reflexivity.
  - split; [intros _ H; apply H0, Hday, H |]. intros _.
    assert (Hin : In " "%char
                    (str_of_int days ++ str " day"
                     ++ (if Z.abs days =? 1 then [] else str "s") ++ str ", " ++ hms)).
    { apply in_or_app. right. left. reflexivity. }
    destruct (rest mod 1000000 =? 0); [exact Hin |].
    apply in_or_app. left. exact Hin.
Qed.

(** X16: the wall time on the command line. When [submit] returns a job,
    the command it ran passes [str(time)] after [-t], and that text
    holds a space exactly when the wall time is negative or a day or more
    ([1 day, 0:00:00]): from a day on, the argument of [-t] falls apart
    into several words of the command line. *)
Theorem submit_time_argument :
  forall (user : pystr) (sys : host) (js : list Job.t) (a : Submit.args)
         (st : submit_state) (job : Job.t),
    fst (Queue_submit user sys js a st) = Ok job ->
    let self := self_queue st in
    let t := requested_time self a in
    Job.walltime job = Some t
    /\ (exists filename,
          last (trace (snd (Queue_submit user sys js a st)))
          = Some (Exec (str "qsub --queue " ++ Queue.name self ++ str " -n "
                        ++ str_of_int (Submit.nodecount a) ++ str " -t "
                        ++ timedelta_str t
                        ++ (match Submit.jobname a with
                            | Some n => str " --jobname " ++ n
                            | None => []
                            end)
                        ++ str " " ++ filename)))
    /\ (In " "%char (timedelta_str t) <-> ~ (0 <= total_us t < us_per_day)).
Proof.
  intros user sys js a st job H self t.
  apply Queue_submit_accepted_inv in H
      as (_ & _ & filename & written & output & _ & _ & _ & _ & Hj & Hst).
  split; [rewrite Hj; reflexivity |]. split; [| apply timedelta_str_space].
  exists filename. rewrite Hst. cbn [trace].
  replace (trace st ++ Mkstemp filename :: map Write written
           ++ [Chmod filename; Exec (qsub_command (self_queue st) a filename)])
    with ((trace st ++ Mkstemp filename :: map Write written ++ [Chmod filename])
          ++ [Exec (qsub_command (self_queue st) a filename)])
    by (rewrite <- app_assoc; cbn [app]; rewrite <- app_assoc; reflexivity).
  rewrite last_snoc. reflexivity.
Qed.

Lemma submit_time_argument_two_days :
  let st := {| self_queue := plain_queue "free" [] 4 10; trace := [] |} in
  let a := submit_with me (str "hostname") (Some (hours 48)) [] in
  exists job,
    fst (Queue_submit me (sample_host monday_noon) [] a st) = Ok job
    /\ In " "%char (timedelta_str (requested_time (self_queue st) a))
    /\ timedelta_str (requested_time (self_queue st) a) = str "2 days, 0:00:00".
Proof.
  intros st a.
  eassert (H : fst (Queue_submit me (sample_host monday_noon) [] a st) = Ok _)
    by (vm_compute; reflexivity).
  eexists. split; [exact H |].
  destruct (submit_time_argument me (sample_host monday_noon) [] a st _ H)
    as (_ & _ & Hsp).
  split; [apply Hsp; vm_compute; intros [_ Hlt]; discriminate Hlt |].
  vm_compute. reflexivity.
Defined.

(** ** Printing jobs *)

Lemma format_s_length (width : nat) (v : option pystr) (w : pystr) :
  format_s width v = Ok w -> (width <= length w)%nat /\ exists s, v = Some s.
Proof.
  destruct v as [s|]; [| intros H; discriminate H].
  intros H. injection H as <-. rewrite length_app, length_replicate.
  split; [lia | eauto].
Qed.

Lemma format_d_length (width : nat) (n : Z) : (width <= length (format_d width n))%nat.
Proof. unfold format_d. rewrite length_app, length_replicate. lia. Qed.

Lemma host_number_cases (ls : list pystr) :
  (exists ns, mapM (fun l => match re_match host_number_re l with
                             | None => Raise AttributeError
                             | Some m => text m 1
                             end) ls = Ok ns)
  \/ mapM (fun l => match re_match host_number_re l with
                    | None => Raise AttributeError
                    | Some m => text m 1
                    end) ls = Raise AttributeError.
Proof.
  induction ls as [|l ls IH]; [left; exists []; reflexivity |].
  cbn [mapM]. destruct (re_match host_number_re l) as [m|]; [| right; reflexivity].
  destruct (text m 1) as [n|e] eqn:E; cbn [rbind].
  2:{ right. unfold text in E. destruct (group m 1); [discriminate E |].
      injection E as <-. reflexivity. }
  destruct IH as [(ns & ->)| ->]; cbn [rbind]; eauto.
Qed.

Lemma Job_str_cases (py_repr : pystr -> pystr) (qs : list Queue.t) (j : Job.t) :
  (forall line,
      Job_str py_repr qs j = Ok line ->
      (91 <= length line)%nat
      /\ is_Some (Job.name j) /\ is_Some (Job.user j) /\ is_Some (Job.state j))
  /\ (Job.name j = None \/ Job.user j = None \/ Job.state j = None ->
      ((length (Job.location j) <= 1)%nat ->
       Job_str py_repr qs j = Raise TypeError)
      /\ (Job_str py_repr qs j = Raise TypeError
          \/ Job_str py_repr qs j = Raise AttributeError)).
Proof.
  unfold Job_str.
  set (time := if bool_decide (Job.state j = Some (str "running"))
               then str_of_time (Job.runtime j)
               else str_of_time (Job.queued_time j)).
  split.
  - intros line H.
    apply rbind_Ok_inv in H as (loc & _ & H).
    apply rbind_Ok_inv in H as (name & Hn & H).
    apply rbind_Ok_inv in H as (loc' & Hl & H).
    apply rbind_Ok_inv in H as (user & Hu & H).
    apply rbind_Ok_inv in H as (state & Hs & H).
    apply rbind_Ok_inv in H as (time' & Ht & H). injection H as <-.
    apply format_s_length in Hn as [Ln [? ->]], Hl as [Ll _], Hu as [Lu [? ->]],
        Hs as [Ls [? ->]], Ht as [Lt _].
    pose proof (format_d_length 8 (Job.jobid j)) as Ld.
    split; [| repeat split; eauto].
    repeat (rewrite length_app; cbn [length]). lia.
  - intros Hnone.
    assert (Hfmt : forall loc,
               (do name <- format_s 20 (Job.name j);
                do location <- format_s 24 (Some loc);
                do user <- format_s 16 (Job.user j);
                do state <- format_s 8 (Job.state j);
                do time0 <- format_s 10 (Some time);
                Ok (format_d 8 (Job.jobid j) ++ str " " ++ name ++ str " " ++ location
                    ++ str " " ++ user ++ str " " ++ state ++ str " " ++ time0))
               = Raise TypeError).
    { intros loc. destruct (Job.name j); [| reflexivity].
      destruct (Job.user j); [| reflexivity].
      destruct (Job.state j); [| reflexivity].
      destruct Hnone as [H|[H|H]]; discriminate H. }
    split.
    + intros Hlen.
      destruct (Nat.ltb_spec 1 (length (Job.location j))) as [Hlt|_]; [lia |].
      cbn [rbind]. apply Hfmt.
    + destruct (1 <? length (Job.location j))%nat.
      * destruct (host_number_cases (Job.location j)) as [(ns & ->)| ->];
          cbn [rbind]; [left; apply Hfmt | right; reflexivity].
      * cbn [rbind]. left. apply Hfmt.
Qed.

Lemma Job_from_string_text_fields py_eval s j :
  Job_from_string py_eval s = Ok j ->
  Job.user j = re_match JobRe.user_re s ≫= (fun m => group m 1)
  /\ Job.name j = re_match JobRe.name_re s ≫= (fun m => group m 1)
  /\ Job.state j = re_match JobRe.state_re s ≫= (fun m => group m 1).
Proof.
  unfold Job_from_string. intros H.
  do 14 (apply rbind_Ok_inv in H as (? & _ & H)).
  injection H as <-. repeat split; reflexivity.
Qed.

(** X17: [str(job)] needs a name, a user and a state. Whenever
    [Job.__str__] returns a line, the job has all three and the line is at
    least 91 characters long (six columns and five spaces). A job read by
    [from_string] from a record without [JobName], [User] or [State] field
    cannot be printed: the call raises [TypeError] ([None] does not take
    the format [s]), or [AttributeError] when it has several host names and
    one of them is not letters followed by digits. Neither can a job
    returned by [submit] when no [jobname] was given: [TypeError]. *)
Theorem Job_str_needs_name_user_state :
  forall (py_repr : pystr -> pystr) (qs : list Queue.t),
    (forall j line,
        Job_str py_repr qs j = Ok line ->
        (91 <= length line)%nat
        /\ is_Some (Job.name j) /\ is_Some (Job.user j) /\ is_Some (Job.state j))
    /\ (forall py_eval s j,
           Job_from_string py_eval s = Ok j ->
           re_match JobRe.name_re s = None
           \/ re_match JobRe.user_re s = None
           \/ re_match JobRe.state_re s = None ->
           Job_str py_repr qs j = Raise TypeError
           \/ Job_str py_repr qs j = Raise AttributeError)
    /\ (forall user sys js a st job,
           fst (Queue_submit user sys js a st) = Ok job ->
           Submit.jobname a = None ->
           Job_str py_repr qs job = Raise TypeError).
Proof.
  intros py_repr qs. split; [| split].
  - intros j. apply (proj1 (Job_str_cases py_repr qs j)).
  - intros py_eval s j Hj Hnone.
    apply Job_from_string_text_fields in Hj as (Hu & Hn & Hs).
    apply (proj2 (Job_str_cases py_repr qs j)).
    rewrite Hu, Hn, Hs.
    destruct Hnone as [-> | [-> | ->]]; auto.
  - intros user sys js a st job H Hname.
    apply Queue_submit_accepted_inv in H
        as (_ & _ & filename & written & output & _ & _ & _ & _ & Hj & _).
    apply (proj2 (Job_str_cases py_repr qs job)).
    + left. rewrite Hj. exact Hname.
    + rewrite Hj. cbn. lia.
Qed.

Lemma Job_str_sample :
  let j := Job.mk 12 (QueueName (str "debug")) (Some me) (Some (str "build")) None
             None None None (Some (minutes 5)) None None None []
             (Some (str "queued")) None None VNone [] in
  exists line,
    Job_str plain_repr [] j = Ok line
    /\ (91 <= length line)%nat.
Proof.
  intros j.
  eassert (H : Job_str plain_repr [] j = Ok _) by (vm_compute; reflexivity).
  eexists. split; [exact H |].
  exact (proj1 (proj1 (Job_str_needs_name_user_state plain_repr []) _ _ H)).
Defined.

(** ** A policy whose occupancy is not a number *)

Lemma fmul_nan (x : pyfloat) : fmul x S754_nan = S754_nan.
Proof. destruct x; reflexivity. Qed.

Lemma allowed_nodes_nan (q : Queue.t) :
  allowed_nodes q S754_nan = Raise ValueError
  \/ allowed_nodes q S754_nan = Raise OverflowError.
Proof.
  unfold allowed_nodes, mul_int_float.
  destruct (float_of_int (Queue.totalnodes q)) as [x|e] eqn:E; cbn [rbind].
  - rewrite fmul_nan. left. reflexivity.
  - right. unfold float_of_int in E.
    destruct (binary_normalize 53 1024 (Queue.totalnodes q) 0 false);
      try discriminate E. injection E as <-. reflexivity.
Qed.

(** X18: a policy whose [max_occupancy] is not a number is built and then
    useless. [UserPolicy.__init__] accepts [nan], and the loop of
    [get_queues] run with that fraction fails on the first queue, with the
    [ValueError] of [ceil] (or the [OverflowError] of the conversion of
    [totalnodes]), as soon as there is a queue. *)
Theorem nan_occupancy_accepted_then_fails :
  forall (office_day_start office_day_stop : timedelta)
         (office_max_occupancy : pyfloat) (office_maxtime maxtime : timedelta)
         (user : pystr) (T : timedelta) (h : heap),
    UserPolicy_init office_day_start office_day_stop office_max_occupancy
      S754_nan office_maxtime maxtime
    = Ok (UserPolicy.mk office_day_start office_day_stop office_max_occupancy
            S754_nan office_maxtime maxtime)
    /\ (h_queues h <> [] ->
        apply_policy user S754_nan T h = Raise ValueError
        \/ apply_policy user S754_nan T h = Raise OverflowError).
Proof.
  intros a b omo c d user T h. split; [reflexivity |].
  intros Hne. unfold apply_policy.
  destruct (h_queues h) as [|q qs]; [contradiction |].
  assert (Hadj : adjust user (h_jobs h) S754_nan T q = Raise ValueError
                 \/ adjust user (h_jobs h) S754_nan T q = Raise OverflowError).
  { unfold adjust. destruct (allowed_nodes_nan q) as [-> | ->]; auto. }
  cbn [mapM]. destruct Hadj as [-> | ->]; cbn [rbind]; auto.
Qed.

Lemma nan_occupancy_sample_heap :
  h_queues sample_heap <> []
  /\ exists e, apply_policy me S754_nan (hours 2) sample_heap = Raise e.
Proof.
  assert (H : h_queues sample_heap <> []) by discriminate.
  split; [exact H |].
  destruct (proj2 (nan_occupancy_accepted_then_fails (hours 7) (hours 21) quarter
                     (minutes 30) (hours 2) me (hours 2) sample_heap) H)
    as [E|E]; eexists; exact E.
Defined.
